(** * Metadata_checker: the filename classification engine of
    [backend/server.py], embedded in Rocq.

    The development follows the Python source:
    - [Py]: the few Python built-ins the engine relies on (exceptions as a
      result type, [str.lower], [str.zfill], truthiness, float formatting);
    - [Re]: the fragment of Python's [re] module the patterns of the source
      are written in (parser from the pattern text, backtracking matcher with
      capture groups, [re.search]);
    - the pattern tables of [FileAnalyzer.__init__], [analyze_filename],
      [_extract_year], [_extract_season_episode];
    - [format_file_size], [get_quality_emoji], [format_analysis_response];
    - the vocabulary in which the properties are stated (a declarative
      reading of the patterns, first-match-wins on a table, occurrences of
      years and of season/episode numbers);
    - the proofs: the matcher computes the declarative reading, [re.search]
      finds the leftmost occurrence, and the properties of the engine.

    Strings.  A Python [str] is modelled as a Rocq [string]: a sequence of
    8-bit characters, read as the code points U+0000..U+00FF.  The character
    classes ([\w], [\d], [str.lower]) are the Unicode ones restricted to that
    range.  Text of the source beyond that range (the decorative glyphs of the
    renderer) occurs only inside literals that are concatenated and never
    inspected. *)

From stdpp Require Import base list strings gmap.
From Stdlib Require Import ZArith Ascii DecimalString.

Local Open Scope Z_scope.

(* ================================================================== *)
(** * Python built-ins *)
(* ================================================================== *)

Module Py.

(** The exceptions that the modelled code can raise. *)
Inductive exn : Set :=
| ReError          (* re.error: the pattern does not compile *)
| AttributeError   (* method call on None *)
| OverflowError.   (* int too large to convert to float *)

Inductive result (A : Type) : Type :=
| Ok (a : A)
| Raise (e : exn).
Global Arguments Ok {A} a.
Global Arguments Raise {A} e.

Definition bind {A B} (m : result A) (k : A → result B) : result B :=
  match m with
  | Ok a => k a
  | Raise e => Raise e
  end.

Definition returns {A} (m : result A) : Prop := ∃ a, m = Ok a.

(** Values stored in a [Dict[str, Any]]; the engine stores booleans and
    optional strings. *)
Inductive val : Set :=
| VNone
| VBool (b : bool)
| VStr (s : string).

(** Truthiness, as used by [if x:] and [bool(x)]. *)
Definition truthy (v : val) : bool :=
  match v with
  | VNone => false
  | VBool b => b
  | VStr s => negb (String.eqb s "")
  end.

(** [str(v)], as used by an f-string replacement field. *)
Definition str_of (v : val) : string :=
  match v with
  | VNone => "None"
  | VBool true => "True"
  | VBool false => "False"
  | VStr s => s
  end.

Definition of_opt (o : option string) : val :=
  match o with
  | Some s => VStr s
  | None => VNone
  end.

(** ** Characters *)

Definition code (c : ascii) : N := N_of_ascii c.

Definition between (lo hi n : N) : bool := ((lo <=? n) && (n <=? hi))%N.

(** [\d] on [str] patterns: Unicode decimal digits; below U+0100 these are
    0..9. *)
Definition is_digit (c : ascii) : bool := between 48 57 (code c).

(** [str.isalpha] below U+0100: A-Z, a-z, feminine/masculine ordinal
    indicators, micro sign, and the Latin-1 letters. *)
Definition is_alpha (c : ascii) : bool :=
  let n := code c in
  between 65 90 n || between 97 122 n
  || (n =? 170)%N || (n =? 181)%N || (n =? 186)%N
  || between 192 214 n || between 216 246 n || between 248 255 n.

(** Characters for which [str.isdigit] or [str.isnumeric] holds without
    being decimal: superscripts 1, 2, 3 and the vulgar fractions. *)
Definition is_other_numeric (c : ascii) : bool :=
  let n := code c in
  (n =? 178)%N || (n =? 179)%N || (n =? 185)%N || between 188 190 n.

(** [\w] on [str] patterns: alphanumeric in the sense of [str.isalnum], or
    the underscore. *)
Definition is_word (c : ascii) : bool :=
  is_alpha c || is_digit c || is_other_numeric c || (code c =? 95)%N.

(** [str.lower] on one character: A-Z and the upper-case Latin-1 letters
    (U+00C0..U+00DE but the multiplication sign) move up by 32. *)
Definition lower_char (c : ascii) : ascii :=
  let n := code c in
  if between 65 90 n || (between 192 222 n && negb (n =? 215)%N)
  then ascii_of_N (n + 32)
  else c.

Fixpoint lower (s : string) : string :=
  match s with
  | EmptyString => EmptyString
  | String c s' => String (lower_char c) (lower s')
  end.

(** ** [str.zfill] *)

Fixpoint zeros (n : nat) : string :=
  match n with
  | O => ""
  | S n' => String "0" (zeros n')
  end.

(** [s.zfill(width)]: pad on the left with "0" up to [width]; a leading sign
    stays in front of the padding. *)
Definition zfill (width : nat) (s : string) : string :=
  let pad := zeros (width - String.length s) in
  match s with
  | String c s' =>
      if Ascii.eqb c "+" || Ascii.eqb c "-"
      then String c (pad +:+ s')
      else pad +:+ s
  | EmptyString => pad
  end.

(** ** Integers and floats *)

(** A finite float is kept as the exact dyadic rational
    [f_num / 2 ^ f_exp2]. *)
Record float : Set := Float { f_num : Z; f_exp2 : Z }.

(** Nearest integer to [a / b] for [0 < b], ties to even. *)
Definition round_half_even (a b : Z) : Z :=
  let q := a / b in
  let r := a mod b in
  if 2 * r <? b then q
  else if b <? 2 * r then q + 1
  else if Z.even q then q else q + 1.

(** [float(n)] for an [int]: exact below 2^53, otherwise rounded to 53
    significant bits (ties to even); [OverflowError] beyond the largest
    double. *)
Definition float_of_int (n : Z) : result float :=
  let a := Z.abs n in
  if a <? 2 ^ 53 then Ok (Float n 0)
  else
    let sh := Z.log2 a - 52 in
    let v := round_half_even a (2 ^ sh) * 2 ^ sh in
    if 2 ^ 1024 <=? v then Raise OverflowError
    else Ok (Float (Z.sgn n * v) 0).

(** [x / 1024.0]: exact, the divisor being a power of two (the values
    the engine divides are at least 1, far from underflow). *)
Definition fdiv1024 (x : float) : float :=
  Float (f_num x) (f_exp2 x + 10).

(** [x < 1024.0]. *)
Definition flt1024 (x : float) : bool :=
  f_num x <? 1024 * 2 ^ f_exp2 x.

Definition dec (n : Z) : string := NilZero.string_of_int (Z.to_int n).

(** [f"{x:.1f}"]: the decimal expansion of the exact value, correctly
    rounded to one fractional digit (ties to even). *)
Definition format_1f (x : float) : string :=
  let t := round_half_even (10 * Z.abs (f_num x)) (2 ^ f_exp2 x) in
  (if f_num x <? 0 then "-" else "") +:+ dec (t / 10) +:+ "." +:+ dec (t mod 10).

End Py.

Notation "'let*' x := m 'in' k" := (Py.bind m (λ x, k))
  (at level 10, x name, m at level 100, k at level 200).

(* ================================================================== *)
(** * The [re] module *)
(* ================================================================== *)

Module Re.

Import Py.

(** ** Abstract syntax of the patterns *)

(** One-character matchers. *)
Inductive cset : Set :=
| CLit (c : ascii)     (* a literal character, possibly escaped *)
| CAny                 (* .  : anything but a newline *)
| CDigit.              (* \d *)

Inductive regex : Set :=
| Eps
| Chr (c : cset)
| Bnd                          (* \b *)
| Eos                          (* $  *)
| Cat (r1 r2 : regex)
| Alt (r1 r2 : regex)          (* r1|r2, r1 tried first *)
| Opt (r : regex)              (* r?  greedy *)
| Plus (c : cset)              (* c+  greedy, on a one-character matcher *)
| Grp (i : nat) (r : regex)    (* capturing group number i *)
| NotAhead (r : regex).        (* (?!r) *)

(** ** Compiling the pattern text ([sre_parse]) *)

(** [r{n}]: [n] copies of [r]. *)
Fixpoint times (n : nat) (r : regex) : regex :=
  match n with
  | O => Eps
  | S n' => Cat r (times n' r)
  end.

Definition digit_val (c : ascii) : option nat :=
  if is_digit c then Some (N.to_nat (code c - 48)) else None.

(** An escape sequence [\c]. *)
Definition escape (c : ascii) : option regex :=
  if Ascii.eqb c "b" then Some Bnd
  else if Ascii.eqb c "d" then Some (Chr CDigit)
  else if is_word c then None
  else Some (Chr (CLit c)).

(** A quantifier after the item [r]; returns the quantified item and the
    remaining pattern text. *)
Definition quantified (r : regex) (s : list ascii) : option (regex * list ascii) :=
  match s with
  | "?"%char :: s' => Some (Opt r, s')
  | "+"%char :: s' =>
      match r with
      | Chr c => Some (Plus c, s')
      | _ => None
      end
  | "{"%char :: d :: "}"%char :: s' =>
      n ← digit_val d; Some (times n r, s')
  | "*"%char :: _ | "{"%char :: _ => None
  | _ => Some (r, s)
  end.

(** The parser threads the number [g] of the next capturing group.  Its
    first argument bounds the nesting and length of the pattern.  A
    sequence [abc] is read as [Cat a (Cat b (Cat c Eps))]. *)
Fixpoint p_alt (fuel g : nat) (s : list ascii) : option (regex * nat * list ascii) :=
  match fuel with
  | O => None
  | S fuel =>
      '(r1, g1, s1) ← p_seq fuel g s;
      match s1 with
      | "|"%char :: s2 =>
          '(r2, g2, s3) ← p_alt fuel g1 s2;
          Some (Alt r1 r2, g2, s3)
      | _ => Some (r1, g1, s1)
      end
  end
with p_seq (fuel g : nat) (s : list ascii) : option (regex * nat * list ascii) :=
  match fuel with
  | O => None
  | S fuel =>
      match s with
      | [] => Some (Eps, g, s)
      | c :: _ =>
          if Ascii.eqb c "|" || Ascii.eqb c ")" then Some (Eps, g, s)
          else
            '(r1, g1, s1) ← p_item fuel g s;
            '(r2, s2) ← quantified r1 s1;
            '(r3, g3, s3) ← p_seq fuel g1 s2;
            Some (Cat r2 r3, g3, s3)
      end
  end
with p_item (fuel g : nat) (s : list ascii) : option (regex * nat * list ascii) :=
  match fuel with
  | O => None
  | S fuel =>
      match s with
      | "("%char :: "?"%char :: "!"%char :: s1 =>
          '(r, g1, s2) ← p_alt fuel g s1;
          match s2 with
          | ")"%char :: s3 => Some (NotAhead r, g1, s3)
          | _ => None
          end
      | "("%char :: "?"%char :: _ => None
      | "("%char :: s1 =>
          '(r, g1, s2) ← p_alt fuel (S g) s1;
          match s2 with
          | ")"%char :: s3 => Some (Grp g r, g1, s3)
          | _ => None
          end
      | "\"%char :: c :: s1 => r ← escape c; Some (r, g, s1)
      | "."%char :: s1 => Some (Chr CAny, g, s1)
      | "$"%char :: s1 => Some (Eos, g, s1)
      | c :: s1 =>
          if (Ascii.eqb c "\" || Ascii.eqb c "[" || Ascii.eqb c "^" || Ascii.eqb c "*"
              || Ascii.eqb c "+" || Ascii.eqb c "?" || Ascii.eqb c "{")%char
          then None
          else Some (Chr (CLit c), g, s1)
      | [] => None
      end
  end.

(** [re.compile(pattern)]; [None] stands for a pattern outside the
    fragment, which the model treats as [re.error]. *)
Definition compile (pattern : string) : option regex :=
  let s := String.list_ascii_of_string pattern in
  match p_alt (S (S (2 * length s))) 1 s with
  | Some (r, _, []) => Some r
  | _ => None
  end.

(** ** The backtracking matcher *)

(** A position in the subject: the character before it (for [\b]), the
    text from it on, and the groups captured so far, latest first. *)
Record mstate : Set := MState {
  m_prev : option ascii;
  m_rest : list ascii;
  m_caps : list (nat * list ascii)
}.

Definition cset_match (ic : bool) (c : cset) (x : ascii) : bool :=
  match c with
  | CLit a => if ic then Ascii.eqb (lower_char a) (lower_char x) else Ascii.eqb a x
  | CAny => negb (Ascii.eqb x "010")
  | CDigit => is_digit x
  end.

Definition word_at (o : option ascii) : bool :=
  match o with
  | Some c => is_word c
  | None => false
  end.

(** All ways to match [c+] from a position, longest first. *)
Fixpoint plus_run (f : ascii → bool) (s : list ascii) (cs : list (nat * list ascii))
  : list mstate :=
  match s with
  | x :: t => if f x then plus_run f t cs ++ [MState (Some x) t cs] else []
  | [] => []
  end.

(** [run ic r st]: the positions at which a match of [r] started at [st]
    can end, in the order in which the backtracking engine tries them.
    [ic] is the IGNORECASE flag. *)
Fixpoint run (ic : bool) (r : regex) (st : mstate) : list mstate :=
  match r with
  | Eps => [st]
  | Chr c =>
      match m_rest st with
      | x :: t => if cset_match ic c x then [MState (Some x) t (m_caps st)] else []
      | [] => []
      end
  | Bnd =>
      if xorb (word_at (m_prev st)) (word_at (head (m_rest st))) then [st] else []
  | Eos =>
      match m_rest st with
      | [] => [st]
      | [x] => if Ascii.eqb x "010" then [st] else []
      | _ => []
      end
  | Cat r1 r2 => st1 ← run ic r1 st; run ic r2 st1
  | Alt r1 r2 => run ic r1 st ++ run ic r2 st
  | Opt r1 => run ic r1 st ++ [st]
  | Plus c => plus_run (cset_match ic c) (m_rest st) (m_caps st)
  | Grp i r1 =>
      (λ st1, MState (m_prev st1) (m_rest st1)
                ((i, take (length (m_rest st) - length (m_rest st1)) (m_rest st))
                   :: m_caps st1))
        <$> run ic r1 st
  | NotAhead r1 =>
      match run ic r1 st with
      | [] => [st]
      | _ :: _ => []
      end
  end.

Fixpoint capture (i : nat) (cs : list (nat * list ascii)) : option (list ascii) :=
  match cs with
  | [] => None
  | (j, v) :: cs' => if Nat.eqb i j then Some v else capture i cs'
  end.

(** A match object. *)
Record match_obj : Set := Match {
  m_start : nat;
  m_whole : string;
  m_groups : list (nat * list ascii)
}.

(** [m.group()] *)
Definition group0 (m : match_obj) : string := m_whole m.

(** [m.group(i)] for [1 ≤ i]: [None] when group [i] took no part in the
    match. *)
Definition group (m : match_obj) (i : nat) : option string :=
  String.string_of_list_ascii <$> capture i (m_groups m).

(** Leftmost match: try every start position in turn, keep the first
    result of the first position that has one. *)
Fixpoint scan (ic : bool) (r : regex) (start : nat) (prev : option ascii) (s : list ascii)
  : option match_obj :=
  match run ic r (MState prev s []) with
  | st :: _ =>
      Some (Match start
              (String.string_of_list_ascii (take (length s - length (m_rest st)) s))
              (m_caps st))
  | [] =>
      match s with
      | [] => None
      | x :: t => scan ic r (S start) (Some x) t
      end
  end.

(** [re.search(pattern, text, flags)], with [ic] for [re.IGNORECASE]. *)
Definition search (pattern text : string) (ic : bool) : result (option match_obj) :=
  match compile pattern with
  | Some r => Ok (scan ic r 0 None (String.list_ascii_of_string text))
  | None => Raise ReError
  end.

End Re.

(* ================================================================== *)
(** * [FileAnalyzer] *)
(* ================================================================== *)

Import Py.

(** ** The pattern tables of [FileAnalyzer.__init__]

    A Python [dict] literal with distinct keys, iterated in insertion
    order by [.items()]: an association list in the order of the source. *)

(** Video quality indicators. *)
Definition quality_patterns : list (string * string) :=
  [ ("CAM", "\b(cam|camrip|cam-rip)\b");
    ("CAMRip", "\b(camrip|cam-rip)\b");
    ("TS", "\b(ts|telesync|tele-sync)\b");
    ("TC", "\b(tc|telecine|tele-cine)\b");
    ("WP", "\b(wp|workprint|work-print)\b");
    ("DVDScr", "\b(dvdscr|dvd-scr|dvdscreener)\b");
    ("R5", "\br5\b");
    ("DVDRip", "\b(dvdrip|dvd-rip)\b");
    ("BDRip", "\b(bdrip|bd-rip|bluray-rip)\b");
    ("BRRip", "\b(brrip|br-rip)\b");
    ("HDRip", "\b(hdrip|hd-rip)\b");
    ("HDTV", "\b(hdtv|hd-tv)\b");
    ("PDTV", "\b(pdtv|pd-tv)\b");
    ("DSRip", "\b(dsrip|ds-rip)\b");
    ("WEB-DL", "\b(web-dl|webdl|web\.dl)\b");
    ("WEBRip", "\b(webrip|web-rip|web\.rip)\b");
    ("WEB", "\bweb(?!rip|dl)\b");
    ("BluRay", "\b(bluray|blu-ray|bdrip|bdremux)\b");
    ("UHD", "\b(uhd|ultra\.hd|4k\.uhd)\b");
    ("REMUX", "\b(remux|re-mux)\b");
    ("REPACK", "\b(repack|re-pack)\b");
    ("PROPER", "\b(proper)\b");
    ("REAL", "\b(real)\b");
    ("RETAIL", "\b(retail)\b");
    ("UNCUT", "\b(uncut)\b");
    ("EXTENDED", "\b(extended|ext)\b");
    ("REMASTERED", "\b(remastered|remaster)\b") ].

(** Resolution patterns. *)
Definition resolution_patterns : list (string * string) :=
  [ ("4K", "\b(4k|2160p|uhd|ultra\.hd)\b");
    ("2K", "\b(2k|1440p)\b");
    ("1080p", "\b(1080p|1080i|full\.hd|fullhd)\b");
    ("720p", "\b(720p|720i|hd)\b");
    ("576p", "\b(576p|576i)\b");
    ("480p", "\b(480p|480i|sd)\b");
    ("360p", "\b(360p)\b");
    ("240p", "\b(240p)\b") ].

(** Video codecs. *)
Definition video_codec_patterns : list (string * string) :=
  [ ("H.264", "\b(h\.?264|x264|avc)\b");
    ("H.265", "\b(h\.?265|x265|hevc)\b");
    ("VP9", "\bvp9\b");
    ("VP8", "\bvp8\b");
    ("XviD", "\bxvid\b");
    ("DivX", "\bdivx\b");
    ("AV1", "\bav1\b") ].

(** Audio codecs. *)
Definition audio_codec_patterns : list (string * string) :=
  [ ("AAC", "\baac\b");
    ("AC3", "\b(ac3|ac-3)\b");
    ("DTS", "\b(dts|dts-hd)\b");
    ("MP3", "\bmp3\b");
    ("FLAC", "\bflac\b");
    ("OGG", "\bogg\b");
    ("Opus", "\bopus\b");
    ("EAC3", "\b(eac3|eac-3|e-ac-3)\b") ].

(** File formats. *)
Definition format_patterns : list (string * string) :=
  [ ("MKV", "\.mkv$");
    ("MP4", "\.mp4$");
    ("AVI", "\.avi$");
    ("WMV", "\.wmv$");
    ("FLV", "\.flv$");
    ("MOV", "\.mov$");
    ("M4V", "\.m4v$");
    ("WebM", "\.webm$");
    ("OGV", "\.ogv$");
    ("MTS", "\.mts$");
    ("M2TS", "\.m2ts$");
    ("TS", "\.ts$");
    ("MPG", "\.(mpg|mpeg)$");
    ("VOB", "\.vob$");
    ("ASF", "\.asf$");
    ("3GP", "\.3gp$") ].

(** Language patterns. *)
Definition language_patterns : list (string * string) :=
  [ ("English", "\b(eng|english|en)\b");
    ("Hindi", "\b(hin|hindi|hi)\b");
    ("Spanish", "\b(spa|spanish|es)\b");
    ("French", "\b(fre|french|fr)\b");
    ("German", "\b(ger|german|de)\b");
    ("Italian", "\b(ita|italian|it)\b");
    ("Japanese", "\b(jpn|japanese|ja)\b");
    ("Korean", "\b(kor|korean|ko)\b");
    ("Chinese", "\b(chi|chinese|zh)\b");
    ("Russian", "\b(rus|russian|ru)\b") ].

(** Source indicators. *)
Definition source_patterns : list (string * string) :=
  [ ("Netflix", "\b(netflix|nf)\b");
    ("Amazon Prime", "\b(amzn|amazon)\b");
    ("Disney+", "\b(dsnp|disney)\b");
    ("HBO Max", "\b(hmax|hbo)\b");
    ("Apple TV+", "\b(atvp|apple)\b");
    ("Hulu", "\bhulu\b");
    ("Peacock", "\bpcok\b");
    ("Paramount+", "\bpmtp\b");
    ("YouTube", "\b(youtube|yt)\b");
    ("BBC iPlayer", "\bbbc\b");
    ("iTunes", "\bitunes\b") ].

(** ** The result record *)

Record AnalysisResult : Type := mkAnalysisResult {
  filename : string;
  file_type : string;
  quality : option string;
  resolution : option string;
  codec : option string;
  audio_codec : option string;
  language : option string;
  source : option string;
  format_details : gmap string val
}.

Record FileMetadata : Type := mkFileMetadata {
  file_id : string;
  file_name : string;
  file_size : option Z;
  mime_type : option string;
  file_unique_id : string
}.

(** ** [analyze_filename] *)

(** The loop shared by the seven categories:
    [for name, pattern in table.items():
       if re.search(pattern, filename_lower, re.IGNORECASE): field = name; break]
    It yields the value left in the field, [None] when no pattern matched. *)
Fixpoint detect (items : list (string * string)) (filename_lower : string)
  : result (option string) :=
  match items with
  | [] => Ok None
  | (name, pattern) :: items' =>
      let* m := Re.search pattern filename_lower true in
      match m with
      | Some _ => Ok (Some name)
      | None => detect items' filename_lower
      end
  end.

(** [bool(re.search(pattern, text))] *)
Definition found (pattern text : string) : result bool :=
  let* m := Re.search pattern text false in
  Ok (bool_decide (is_Some m)).

(** [x.zfill(2)] where [x] may be [None]. *)
Definition zfill2 (x : option string) : result string :=
  match x with
  | Some s => Ok (zfill 2 s)
  | None => Raise AttributeError
  end.

Definition _extract_year (filename : string) : result (option string) :=
  let* year_match := Re.search "\b(19|20)\d{2}\b" filename false in
  Ok (Re.group0 <$> year_match).

Definition se_patterns : list string :=
  [ "s(\d+)e(\d+)";
    "season.?(\d+).?episode.?(\d+)";
    "(\d+)x(\d+)" ].

(** [for pattern in se_patterns: ...] *)
Fixpoint se_loop (patterns : list string) (filename : string) : result (option string) :=
  match patterns with
  | [] => Ok None
  | pattern :: patterns' =>
      let* m := Re.search pattern (lower filename) false in
      match m with
      | Some m =>
          let* season := zfill2 (Re.group m 1) in
          let* episode := zfill2 (Re.group m 2) in
          Ok (Some ("S" +:+ season +:+ "E" +:+ episode))
      | None => se_loop patterns' filename
      end
  end.

Definition _extract_season_episode (filename : string) : result (option string) :=
  se_loop se_patterns filename.

Definition analyze_filename (filename : string) : result AnalysisResult :=
  let filename_lower := lower filename in
  let* format_name := detect format_patterns filename_lower in
  let* quality := detect quality_patterns filename_lower in
  let* resolution := detect resolution_patterns filename_lower in
  let* codec := detect video_codec_patterns filename_lower in
  let* audio_codec := detect audio_codec_patterns filename_lower in
  let* language := detect language_patterns filename_lower in
  let* source := detect source_patterns filename_lower in
  let* has_subtitles := found "\b(sub|subs|subtitle|subtitles)\b" filename_lower in
  let* has_multiple_audio := found "\b(dual|multi|multilang)\b" filename_lower in
  let* is_3d := found "\b3d\b" filename_lower in
  let* is_hdr := found "\b(hdr|hdr10|dolby.vision)\b" filename_lower in
  let* year := _extract_year filename in
  let* season_episode := _extract_season_episode filename in
  Ok {| filename := filename;
        file_type := default "Unknown" format_name;
        quality := quality;
        resolution := resolution;
        codec := codec;
        audio_codec := audio_codec;
        language := language;
        source := source;
        format_details :=
          <["has_subtitles" := VBool has_subtitles]> $
          <["has_multiple_audio" := VBool has_multiple_audio]> $
          <["is_3d" := VBool is_3d]> $
          <["is_hdr" := VBool is_hdr]> $
          <["year" := of_opt year]> $
          <["season_episode" := of_opt season_episode]> ∅ |}.

(** [details.get(key)], [None] for a missing key. *)
Definition get (details : gmap string val) (key : string) : val :=
  default VNone (details !! key).

Definition field (r : result AnalysisResult) (key : string) : option val :=
  match r with
  | Ok a => Some (get (format_details a) key)
  | Raise _ => None
  end.


(* ================================================================== *)
(** * Rendering *)
(* ================================================================== *)

Definition nl : string := String "010" "".

(** Truthiness and [str()] of an [Optional[str]] attribute. *)
Definition truthy_opt (o : option string) : bool := truthy (of_opt o).
Definition text (o : option string) : string := str_of (of_opt o).

(** A Python number: the loop variable of [format_file_size] starts as an
    [int] and becomes a [float] at the first division. *)
Inductive num : Set :=
| Int (n : Z)
| Flt (x : float).

(** [x < 1024.0]; an [int] is compared exactly. *)
Definition num_lt1024 (x : num) : bool :=
  match x with
  | Int n => n <? 1024
  | Flt x => flt1024 x
  end.

(** [x / 1024.0]; an [int] is converted first. *)
Definition num_div1024 (x : num) : result num :=
  match x with
  | Int n => let* y := float_of_int n in Ok (Flt (fdiv1024 y))
  | Flt y => Ok (Flt (fdiv1024 y))
  end.

(** [f"{x:.1f}"]; an [int] is converted first. *)
Definition num_format_1f (x : num) : result string :=
  match x with
  | Int n => let* y := float_of_int n in Ok (format_1f y)
  | Flt y => Ok (format_1f y)
  end.

(** [for unit in units: ...] followed by the final [return]. *)
Fixpoint size_loop (units : list string) (size_bytes : num) : result string :=
  match units with
  | [] => let* s := num_format_1f size_bytes in Ok (s +:+ " PB")
  | unit :: units' =>
      if num_lt1024 size_bytes
      then let* s := num_format_1f size_bytes in Ok (s +:+ " " +:+ unit)
      else let* size_bytes := num_div1024 size_bytes in size_loop units' size_bytes
  end.

Definition format_file_size (size_bytes : option Z) : result string :=
  match size_bytes with
  | None => Ok "Unknown"
  | Some n =>
      if n =? 0 then Ok "Unknown"
      else size_loop ["B"; "KB"; "MB"; "GB"; "TB"] (Int n)
  end.

Definition quality_emojis : list (string * string) :=
  [ ("CAM", "üì∑");
    ("TS", "üìΩÔ∏è");
    ("DVDRip", "üíø");
    ("BluRay", "üíé");
    ("WEB-DL", "üåê");
    ("WEBRip", "üåê");
    ("HDTV", "üì∫");
    ("UHD", "üëë");
    ("REMUX", "‚ú®") ].

Fixpoint lookup_str (key : string) (items : list (string * string)) : option string :=
  match items with
  | [] => None
  | (k, v) :: items' => if String.eqb key k then Some v else lookup_str key items'
  end.

Definition get_quality_emoji (quality : string) : string :=
  default "üé¨" (lookup_str quality quality_emojis).

Definition format_analysis_response (analysis : AnalysisResult) (file_info : option FileMetadata)
  : result string :=
  let response := "üé¨ **File Analysis Results**" +:+ nl +:+ nl in
  let response := response +:+ "üìÅ **Filename:** `" +:+ filename analysis +:+ "`" +:+ nl in
  let* response :=
    match file_info with
    | Some file_info =>
        let* size := format_file_size (file_size file_info) in
        let response := response +:+ "üíæ **File Size:** " +:+ size +:+ nl in
        Ok (if truthy_opt (mime_type file_info)
            then response +:+ "üìã **MIME Type:** `" +:+ text (mime_type file_info) +:+ "`" +:+ nl
            else response)
    | None => Ok response
    end in
  let response := response +:+ nl +:+ "**üîç Detected Metadata:**" +:+ nl in
  let response := response +:+ "‚Ä¢ **Format:** " +:+ file_type analysis +:+ nl in
  let response :=
    if truthy_opt (quality analysis)
    then let quality_emoji := get_quality_emoji (text (quality analysis)) in
         response +:+ "‚Ä¢ **Quality:** " +:+ quality_emoji +:+ " " +:+ text (quality analysis) +:+ nl
    else response in
  let response :=
    if truthy_opt (resolution analysis)
    then response +:+ "‚Ä¢ **Resolution:** üì∫ " +:+ text (resolution analysis) +:+ nl
    else response in
  let response :=
    if truthy_opt (codec analysis)
    then response +:+ "‚Ä¢ **Video Codec:** üé• " +:+ text (codec analysis) +:+ nl
    else response in
  let response :=
    if truthy_opt (audio_codec analysis)
    then response +:+ "‚Ä¢ **Audio Codec:** üîä " +:+ text (audio_codec analysis) +:+ nl
    else response in
  let response :=
    if truthy_opt (language analysis)
    then response +:+ "‚Ä¢ **Language:** üåê " +:+ text (language analysis) +:+ nl
    else response in
  let response :=
    if truthy_opt (source analysis)
    then response +:+ "‚Ä¢ **Source:** üì∫ " +:+ text (source analysis) +:+ nl
    else response in
  let response :=
    if bool_decide (format_details analysis ≠ ∅)
    then
      let details := format_details analysis in
      let response :=
        if truthy (get details "year")
        then response +:+ "‚Ä¢ **Year:** üìÖ " +:+ str_of (get details "year") +:+ nl
        else response in
      let response :=
        if truthy (get details "season_episode")
        then response +:+ "‚Ä¢ **Episode:** üì∫ " +:+ str_of (get details "season_episode") +:+ nl
        else response in
      let response :=
        if truthy (get details "has_subtitles")
        then response +:+ "‚Ä¢ **Subtitles:** üí¨ Yes" +:+ nl
        else response in
      let response :=
        if truthy (get details "has_multiple_audio")
        then response +:+ "‚Ä¢ **Multi-Audio:** üéµ Yes" +:+ nl
        else response in
      let response :=
        if truthy (get details "is_3d")
        then response +:+ "‚Ä¢ **3D:** üï∂Ô∏è Yes" +:+ nl
        else response in
      let response :=
        if truthy (get details "is_hdr")
        then response +:+ "‚Ä¢ **HDR:** ‚ú® Yes" +:+ nl
        else response in
      response
    else response in
  let response := response +:+ nl +:+ "_Analysis completed successfully!_ ‚úÖ" in
  Ok response.

(* ================================================================== *)
(** * Vocabulary of the specification *)
(* ================================================================== *)

Abbreviation chars := String.list_ascii_of_string.
Abbreviation str := String.string_of_list_ascii.

(** ** Declarative reading of a pattern *)

(** The character before a position that lies [w] after a position whose
    previous character is [prev]. *)
Definition last_or (prev : option ascii) (w : list ascii) : option ascii :=
  match last w with
  | Some c => Some c
  | None => prev
  end.

(** [den ic r prev w post cs cs']: the pattern [r] matches exactly the text
    [w], which is preceded by [prev] and followed by [post]; the groups go
    from [cs] to [cs']. *)
Fixpoint den (ic : bool) (r : Re.regex) (prev : option ascii) (w post : list ascii)
    (cs cs' : list (nat * list ascii)) : Prop :=
  match r with
  | Re.Eps => w = [] ∧ cs' = cs
  | Re.Chr c => (∃ x, w = [x] ∧ Re.cset_match ic c x = true) ∧ cs' = cs
  | Re.Bnd => w = [] ∧ xorb (Re.word_at prev) (Re.word_at (head post)) = true ∧ cs' = cs
  | Re.Eos => w = [] ∧ (post = [] ∨ post = ["010"%char]) ∧ cs' = cs
  | Re.Cat r1 r2 =>
      ∃ w1 w2 cs1, w = w1 ++ w2 ∧ den ic r1 prev w1 (w2 ++ post) cs cs1
                   ∧ den ic r2 (last_or prev w1) w2 post cs1 cs'
  | Re.Alt r1 r2 => den ic r1 prev w post cs cs' ∨ den ic r2 prev w post cs cs'
  | Re.Opt r1 => den ic r1 prev w post cs cs' ∨ (w = [] ∧ cs' = cs)
  | Re.Plus c => w ≠ [] ∧ Forall (λ x, Re.cset_match ic c x = true) w ∧ cs' = cs
  | Re.Grp i r1 => ∃ cs1, den ic r1 prev w post cs cs1 ∧ cs' = (i, w) :: cs1
  | Re.NotAhead r1 =>
      w = [] ∧ cs' = cs
      ∧ ¬ ∃ w1 post1 cs1, post = w1 ++ post1 ∧ den ic r1 prev w1 post1 cs cs1
  end.

(** The pattern [r] occurs in [s] at offset [length pre]. *)
Definition occurs_at (ic : bool) (r : Re.regex) (s pre w post : list ascii)
    (cs : list (nat * list ascii)) : Prop :=
  s = pre ++ w ++ post ∧ den ic r (last pre) w post [] cs.

(** A literal word followed by [k], as the parser reads it. *)
Definition lits (l : list ascii) (k : Re.regex) : Re.regex :=
  foldr (λ c r, Re.Cat (Re.Chr (Re.CLit c)) r) k l.

(** ** Pure readings of the loops *)

(** [re.search(pattern, text, flags)] finds something. *)
Definition hit (ic : bool) (pattern text : string) : bool :=
  match Re.search pattern text ic with
  | Ok (Some _) => true
  | _ => false
  end.

(** The label of the first entry of a table whose pattern is found. *)
Fixpoint pick (items : list (string * string)) (text : string) : option string :=
  match items with
  | [] => None
  | (name, pattern) :: items' =>
      if hit true pattern text then Some name else pick items' text
  end.

Definition labels (items : list (string * string)) : list string := fst <$> items.

Definition compiles (pattern : string) : Prop := is_Some (Re.compile pattern).

(** First-match-wins, stated on the table: [o] is the label of the
    earliest entry whose pattern is found in the lower-cased file name,
    and [None] when there is no such entry. *)
Definition first_match_wins (items : list (string * string)) (f : string)
    (o : option string) : Prop :=
  match o with
  | Some l =>
      ∃ i pattern, items !! i = Some (l, pattern)
        ∧ hit true pattern (lower f) = true
        ∧ ∀ j l' pattern', (j < i)%nat → items !! j = Some (l', pattern')
            → hit true pattern' (lower f) = false
  | None => ∀ l pattern, (l, pattern) ∈ items → hit true pattern (lower f) = false
  end.

(** Of two entries whose patterns are both found, the later one is not
    the one selected: [l] is not the label of an entry that comes after an
    entry whose pattern is found. *)
Definition never_later (items : list (string * string)) (f : string) (l : string) : Prop :=
  ∀ i j e1 e2, items !! i = Some e1 → items !! j = Some e2 → (i < j)%nat
    → hit true e1.2 (lower f) = true → l ≠ e2.1.

(** ** Season and episode numbers *)

(** A number: a non-empty run of decimal digits. *)
Definition number (a : list ascii) : Prop :=
  a ≠ [] ∧ Forall (λ x, is_digit x = true) a.

(** An optional separator: at most one character, not a newline. *)
Definition separator (x : list ascii) : Prop :=
  x = [] ∨ ∃ c, x = [c] ∧ c ≠ "010"%char.

(** The three families of [_extract_season_episode], in priority order. *)
Inductive family : Set := SxEy | SeasonEpisode | NxM.

Definition rank (fam : family) : nat :=
  match fam with
  | SxEy => 0
  | SeasonEpisode => 1
  | NxM => 2
  end.

Definition family_pattern (fam : family) : string :=
  match fam with
  | SxEy => "s(\d+)e(\d+)"
  | SeasonEpisode => "season.?(\d+).?episode.?(\d+)"
  | NxM => "(\d+)x(\d+)"
  end.

(** The patterns as the parser reads them. *)
Definition family_regex (fam : family) : Re.regex :=
  let number i := Re.Grp i (Re.Cat (Re.Plus Re.CDigit) Re.Eps) in
  let sep := Re.Opt (Re.Chr Re.CAny) in
  match fam with
  | SxEy =>
      lits (chars "s") (Re.Cat (number 1%nat)
        (lits (chars "e") (Re.Cat (number 2%nat) Re.Eps)))
  | SeasonEpisode =>
      lits (chars "season") (Re.Cat sep (Re.Cat (number 1%nat)
        (Re.Cat sep (lits (chars "episode") (Re.Cat sep
          (Re.Cat (number 2%nat) Re.Eps))))))
  | NxM =>
      Re.Cat (number 1%nat) (lits (chars "x") (Re.Cat (number 2%nat) Re.Eps))
  end.

(** [w] is written in the family [fam] with season [a] and episode [b]. *)
Definition shaped (fam : family) (a b w : list ascii) : Prop :=
  match fam with
  | SxEy => w = chars "s" ++ a ++ chars "e" ++ b
  | SeasonEpisode =>
      ∃ x y z, separator x ∧ separator y ∧ separator z
        ∧ w = chars "season" ++ x ++ a ++ y ++ chars "episode" ++ z ++ b
  | NxM => w = a ++ chars "x" ++ b
  end.

(** An occurrence of the family [fam] in the text [t], after [pre] and
    before [post], with season [a] and episode [b]. *)
Definition occurrence (fam : family) (t : string) (pre : list ascii) (a b : string)
    (post : list ascii) : Prop :=
  number (chars a) ∧ number (chars b)
  ∧ ∃ w, chars t = pre ++ w ++ post ∧ shaped fam (chars a) (chars b) w.

Definition occurs (fam : family) (t : string) : Prop :=
  ∃ pre a b post, occurrence fam t pre a b post.

(** The occurrence that is taken: none starts before it, and its
    episode number runs up to the last digit. *)
Definition chosen (fam : family) (t a b : string) : Prop :=
  ∃ pre post, occurrence fam t pre a b post
    ∧ (∀ c, head post = Some c → is_digit c = false)
    ∧ ∀ pre' a' b' post', occurrence fam t pre' a' b' post'
        → (length pre ≤ length pre')%nat.

(** Zero-padding on the left, up to two characters. *)
Definition pad2 (a : string) : string := zeros (2 - String.length a) +:+ a.

Definition rendered (a b : string) : string := "S" +:+ pad2 a +:+ "E" +:+ pad2 b.

(** What [_extract_season_episode] is to return: the rendering of the
    occurrence taken from the first family, in priority order, that occurs in
    the lower-cased file name; [None] when no family occurs. *)
Definition season_episode_spec (f : string) (o : option string) : Prop :=
  match o with
  | Some out =>
      ∃ fam a b, chosen fam (lower f) a b ∧ out = rendered a b
        ∧ ∀ fam', (rank fam' < rank fam)%nat → ¬ occurs fam' (lower f)
  | None => ∀ fam, ¬ occurs fam (lower f)
  end.

(** The pattern ends in a greedy [\d+], possibly inside groups. *)
Fixpoint ends_in_number (r : Re.regex) : bool :=
  match r with
  | Re.Plus Re.CDigit => true
  | Re.Cat r1 r2 =>
      match r2 with
      | Re.Eps => ends_in_number r1
      | _ => ends_in_number r2
      end
  | Re.Grp _ r1 => ends_in_number r1
  | _ => false
  end.

(** ** Whole words *)

(** Neither a word character just before nor just after: for a text
    that starts and ends with word characters this is [\b...\b]. *)
Definition delimited (pre post : list ascii) : Prop :=
  Re.word_at (last pre) = false ∧ Re.word_at (head post) = false.

(** ** Years *)

(** "19" or "20" and two more decimal digits. *)
Definition year_text (y : list ascii) : Prop :=
  ∃ p c3 c4, (p = chars "19" ∨ p = chars "20")
    ∧ is_digit c3 = true ∧ is_digit c4 = true ∧ y = p ++ [c3; c4].

(** A four-digit run 19xx/20xx anywhere in the file name, as the
    specification words it. *)
Definition year_run (f : string) (pre y post : list ascii) : Prop :=
  chars f = pre ++ y ++ post ∧ year_text y.

(** The same, standing as a word of its own. *)
Definition year_word (f : string) (pre y post : list ascii) : Prop :=
  year_run f pre y post ∧ delimited pre post.

(** [o] is the leftmost occurrence, [None] when there is none. *)
Definition leftmost (occ : list ascii → list ascii → list ascii → Prop)
    (o : option string) : Prop :=
  match o with
  | Some y =>
      ∃ pre post, occ pre (chars y) post
        ∧ ∀ pre' y' post', occ pre' y' post' → (length pre ≤ length pre')%nat
  | None => ∀ pre y post, ¬ occ pre y post
  end.

Definition year_regex : Re.regex :=
  Re.Cat Re.Bnd
    (Re.Cat (Re.Grp 1 (Re.Alt (lits (chars "19") Re.Eps) (lits (chars "20") Re.Eps)))
       (Re.Cat (Re.Cat (Re.Chr Re.CDigit) (Re.Cat (Re.Chr Re.CDigit) Re.Eps))
          (Re.Cat Re.Bnd Re.Eps))).

(** ** The HDR flag *)

(** The words of the HDR pattern as the code matches them: the dot
    stands for any character but a newline. *)
Definition hdr_text (w : list ascii) : Prop :=
  w = chars "hdr" ∨ w = chars "hdr10"
  ∨ ∃ c, c ≠ "010"%char ∧ w = chars "dolby" ++ c :: chars "vision".

(** The words as the specification reads them: a literal dot. *)
Definition hdr_text_literal (w : list ascii) : Prop :=
  w = chars "hdr" ∨ w = chars "hdr10" ∨ w = chars "dolby.vision".

Definition contains_word (text : string) (P : list ascii → Prop) : Prop :=
  ∃ pre w post, chars text = pre ++ w ++ post ∧ P w ∧ delimited pre post.

Definition hdr_regex : Re.regex :=
  Re.Cat Re.Bnd
    (Re.Cat (Re.Grp 1 (Re.Alt (lits (chars "hdr") Re.Eps)
                      (Re.Alt (lits (chars "hdr10") Re.Eps)
                         (lits (chars "dolby")
                            (Re.Cat (Re.Chr Re.CAny) (lits (chars "vision") Re.Eps))))))
       (Re.Cat Re.Bnd Re.Eps)).

(** ** The value of [analyze_filename] *)

(** Every pattern of a table is in the fragment that [Re.compile] reads. *)
Definition compiled (items : list (string * string)) : bool :=
  forallb (λ e, bool_decide (compiles e.2)) items.

Definition value {A} (d : A) (m : result A) : A :=
  match m with
  | Ok a => a
  | Raise _ => d
  end.

(** The record that [analyze_filename] builds, read off its body. *)
Definition analysis_of (f : string) : AnalysisResult :=
  {| filename := f;
     file_type := default "Unknown" (pick format_patterns (lower f));
     quality := pick quality_patterns (lower f);
     resolution := pick resolution_patterns (lower f);
     codec := pick video_codec_patterns (lower f);
     audio_codec := pick audio_codec_patterns (lower f);
     language := pick language_patterns (lower f);
     source := pick source_patterns (lower f);
     format_details :=
       <["has_subtitles" := VBool (hit false "\b(sub|subs|subtitle|subtitles)\b" (lower f))]> $
       <["has_multiple_audio" := VBool (hit false "\b(dual|multi|multilang)\b" (lower f))]> $
       <["is_3d" := VBool (hit false "\b3d\b" (lower f))]> $
       <["is_hdr" := VBool (hit false "\b(hdr|hdr10|dolby.vision)\b" (lower f))]> $
       <["year" := of_opt (value None (_extract_year f))]> $
       <["season_episode" := of_opt (value None (_extract_season_episode f))]> ∅ |}.

(** The category tables with the field each one fills. *)
Definition categories : list (list (string * string) * (AnalysisResult → option string)) :=
  [ (quality_patterns, quality);
    (resolution_patterns, resolution);
    (video_codec_patterns, codec);
    (audio_codec_patterns, audio_codec);
    (language_patterns, language);
    (source_patterns, source) ].

(** The keys of [format_details]. *)
Definition detail_keys : list string :=
  [ "has_subtitles"; "has_multiple_audio"; "is_3d"; "is_hdr"; "year"; "season_episode" ].

(** The [is_hdr] flag is set exactly when the lower-cased file name
    contains one of the words [P], standing as a word of its own. *)
Definition hdr_flag_is (P : list ascii → Prop) (f : string) : Prop :=
  ∃ a b, analyze_filename f = Ok a
    ∧ format_details a !! "is_hdr" = Some (VBool b)
    ∧ (b = true ↔ contains_word (lower f) P).

(** The year returned is the leftmost occurrence [occ], and it is what
    [analyze_filename] stores under "year". *)
Definition year_is (occ : string → list ascii → list ascii → list ascii → Prop)
    (f : string) : Prop :=
  ∃ o, _extract_year f = Ok o ∧ leftmost (occ f) o
    ∧ ∃ a, analyze_filename f = Ok a ∧ format_details a !! "year" = Some (of_opt o).

(** ** Extension patterns *)

(** A pattern without [\b], look-ahead, wildcard or quantifier that
    consumes no dot. *)
Fixpoint plain (r : Re.regex) : bool :=
  match r with
  | Re.Eps | Re.Eos => true
  | Re.Chr (Re.CLit c) => negb (Ascii.eqb (lower_char c) ".")
  | Re.Cat r1 r2 | Re.Alt r1 r2 => plain r1 && plain r2
  | Re.Grp _ r1 => plain r1
  | _ => false
  end.

(** Every match of the pattern passes an end-of-string test. *)
Fixpoint to_end (r : Re.regex) : bool :=
  match r with
  | Re.Eos => true
  | Re.Cat r1 r2 => to_end r1 || to_end r2
  | Re.Alt r1 r2 => to_end r1 && to_end r2
  | Re.Grp _ r1 => to_end r1
  | _ => false
  end.

(** The shape [\.ext$]: a literal dot, a plain rest, the end. *)
Definition extension_shape (r : Re.regex) : bool :=
  match r with
  | Re.Cat (Re.Chr (Re.CLit c)) k => Ascii.eqb c "." && plain k && to_end k
  | _ => false
  end.

Definition extension_table (items : list (string * string)) : bool :=
  forallb (λ e, match Re.compile e.2 with
                | Some r => extension_shape r
                | None => false
                end) items.

(** ** Rendering *)

(** The unit names, in the order of scaling. *)
Definition units : list string := ["B"; "KB"; "MB"; "GB"; "TB"; "PB"].

(** [k] divisions by 1024 bring [n] below 1024, or [k] is the last unit. *)
Definition scaled (n : Z) (k : nat) : Prop :=
  (k ≤ 5)%nat ∧ (k = 0%nat ∨ 1024 ^ Z.of_nat k ≤ n)
  ∧ (k = 5%nat ∨ n < 1024 ^ Z.of_nat (k + 1)).

(** [t] tenths is the value [n / 1024 ^ k] rounded to one decimal place,
    a tie going to the even digit. *)
Definition nearest_tenth (n : Z) (k : nat) (t : Z) : Prop :=
  2 * Z.abs (10 * n - t * 1024 ^ Z.of_nat k) ≤ 1024 ^ Z.of_nat k
  ∧ (2 * Z.abs (10 * n - t * 1024 ^ Z.of_nat k) = 1024 ^ Z.of_nat k → Z.even t = true).

Definition one_decimal (t : Z) : string := dec (t / 10) +:+ "." +:+ dec (t mod 10).

(** The lines that [format_analysis_response] writes for a file. *)
Definition file_lines (size : string) (file_info : FileMetadata) : string :=
  ("üíæ **File Size:** " +:+ size +:+ nl)
  +:+ (if truthy_opt (mime_type file_info)
       then "üìã **MIME Type:** `" +:+ text (mime_type file_info) +:+ "`" +:+ nl
       else "").

(** The header that [format_analysis_response] starts with. *)
Definition response_head (analysis : AnalysisResult) : string :=
  ("üé¨ **File Analysis Results**" +:+ nl +:+ nl) +:+ "üìÅ **Filename:** `" +:+ filename analysis +:+ "`" +:+ nl.

(* ================================================================== *)
(** * Further vocabulary *)
(* ================================================================== *)

(** ** Patterns in lower case *)

(** Every literal of the pattern is its own lower case. *)
Fixpoint lowercase_pattern (r : Re.regex) : bool :=
  match r with
  | Re.Chr (Re.CLit c) | Re.Plus (Re.CLit c) => bool_decide (lower_char c = c)
  | Re.Cat r1 r2 | Re.Alt r1 r2 => lowercase_pattern r1 && lowercase_pattern r2
  | Re.Opt r1 | Re.Grp _ r1 | Re.NotAhead r1 => lowercase_pattern r1
  | _ => true
  end.

Definition lowercase_table (items : list (string * string)) : bool :=
  forallb (λ e, match Re.compile e.2 with
                | Some r => lowercase_pattern r
                | None => false
                end) items.

(** ** Lists of words *)

(** The alternation [w1|w2|...] as the parser reads it. *)
Fixpoint one_of (ws : list string) : Re.regex :=
  match ws with
  | [] => Re.Eps
  | [w] => lits (chars w) Re.Eps
  | w :: ws' => Re.Alt (lits (chars w) Re.Eps) (one_of ws')
  end.

(** [\b(w1|w2|...)\b] *)
Definition words_regex (ws : list string) : Re.regex :=
  Re.Cat Re.Bnd (Re.Cat (Re.Grp 1 (one_of ws)) (Re.Cat Re.Bnd Re.Eps)).

(** [\bw\b], without a group. *)
Definition word_regex (w : string) : Re.regex :=
  Re.Cat Re.Bnd (lits (chars w) (Re.Cat Re.Bnd Re.Eps)).

(** A word that starts and ends with a word character. *)
Definition wordy (w : string) : bool :=
  Re.word_at (head (chars w)) && Re.word_at (last (chars w)).

(** The text contains one of the words [ws], standing on its own. *)
Definition contains_one_of (text : string) (ws : list string) : Prop :=
  contains_word text (λ w, str w ∈ ws).

(** ** Boolean details and tables *)

(** The boolean detail [key] is set exactly when the lower-cased file
    name contains one of the words [ws], standing on its own. *)
Definition flag_is (key : string) (ws : list string) (f : string) : Prop :=
  ∃ a b, analyze_filename f = Ok a
    ∧ format_details a !! key = Some (VBool b)
    ∧ (b = true ↔ contains_one_of (lower f) ws).

(** ** The lines of the response *)

(** The analysis [a] with the details [d] in place of its own. *)
Definition with_details (a : AnalysisResult) (d : gmap string val) : AnalysisResult :=
  {| filename := filename a;
     file_type := file_type a;
     quality := quality a;
     resolution := resolution a;
     codec := codec a;
     audio_codec := audio_codec a;
     language := language a;
     source := source a;
     format_details := d |}.

(** What the renderer reads of a value: nothing when it is falsy, its
    text otherwise. *)
Definition reading (v : val) : option string :=
  if truthy v then Some (str_of v) else None.

(** A line that is written for a truthy value, with its text. *)
Definition optional_line (label : string) (v : val) : string :=
  if truthy v then label +:+ str_of v +:+ nl else "".

(** A line that is written for a truthy value, as it stands. *)
Definition flag_line (label : string) (v : val) : string :=
  if truthy v then label +:+ nl else "".

(** The lines for the format and the six categories. *)
Definition field_lines (a : AnalysisResult) : string :=
  ("‚Ä¢ **Format:** " +:+ file_type a +:+ nl)
  +:+ (if truthy_opt (quality a)
       then "‚Ä¢ **Quality:** " +:+ get_quality_emoji (text (quality a)) +:+ " "
            +:+ text (quality a) +:+ nl
       else "")
  +:+ optional_line "‚Ä¢ **Resolution:** üì∫ " (of_opt (resolution a))
  +:+ optional_line "‚Ä¢ **Video Codec:** üé• " (of_opt (codec a))
  +:+ optional_line "‚Ä¢ **Audio Codec:** üîä " (of_opt (audio_codec a))
  +:+ optional_line "‚Ä¢ **Language:** üåê " (of_opt (language a))
  +:+ optional_line "‚Ä¢ **Source:** üì∫ " (of_opt (source a)).

(** The lines for the details. *)
Definition detail_lines (details : gmap string val) : string :=
  optional_line "‚Ä¢ **Year:** üìÖ " (get details "year")
  +:+ optional_line "‚Ä¢ **Episode:** üì∫ " (get details "season_episode")
  +:+ flag_line "‚Ä¢ **Subtitles:** üí¨ Yes" (get details "has_subtitles")
  +:+ flag_line "‚Ä¢ **Multi-Audio:** üéµ Yes" (get details "has_multiple_audio")
  +:+ flag_line "‚Ä¢ **3D:** üï∂Ô∏è Yes" (get details "is_3d")
  +:+ flag_line "‚Ä¢ **HDR:** ‚ú® Yes" (get details "is_hdr").

(** The response, put together from its parts. *)
Definition response_of (a : AnalysisResult) (files : string) : string :=
  response_head a +:+ files +:+ (nl +:+ "**üîç Detected Metadata:**" +:+ nl)
  +:+ field_lines a +:+ detail_lines (format_details a)
  +:+ (nl +:+ "_Analysis completed successfully!_ ‚úÖ").

(* ================================================================== *)
(** * The text handler of [telegram_bot.py] *)
(* ================================================================== *)

(** [s.startswith(p)] *)
Fixpoint startswith (s p : string) {struct p} : bool :=
  match p, s with
  | EmptyString, _ => true
  | String a p', String b s' => Ascii.eqb a b && startswith s' p'
  | String _ _, EmptyString => false
  end.

(** [sub in s], for two strings. *)
Fixpoint str_in (sub s : string) : bool :=
  startswith s sub
  || match s with
     | String _ s' => str_in sub s'
     | EmptyString => false
     end.

(** The extensions that [handle_text] looks for. *)
Definition text_extensions : list string :=
  [".mkv"; ".mp4"; ".avi"; ".webm"; ".mov"; ".flv"; ".wmv"].

(** The test by which [handle_text] takes a message for a file name:
    ['.' in text and any(ext in text.lower() for ext in [...])]; the text is
    analysed when it holds and answered with a hint otherwise. *)
Definition looks_like_filename (text : string) : bool :=
  str_in "." text && existsb (λ ext, str_in ext (lower text)) text_extensions.

(* ================================================================== *)
(** * The webhook handler of [server.py] *)
(* ================================================================== *)

(** ** The pieces of Python it uses *)

(** The text before the first space and, when there is a space, the text
    after it. *)
Fixpoint cut_space (s : string) : string * option string :=
  match s with
  | EmptyString => ("", None)
  | String c s' =>
      if Ascii.eqb c " " then ("", Some s')
      else let '(before, after) := cut_space s' in (String c before, after)
  end.

(** [s.split(' ', 1)] *)
Definition split_space_once (s : string) : list string :=
  match cut_space s with
  | (before, Some after) => [before; after]
  | (before, None) => [before]
  end.

(** [x or y] on optional strings. *)
Definition or_else (x y : option string) : option string :=
  if truthy_opt x then x else y.

(** An attribute read with [getattr(obj, name, default)]: the object
    may lack it. *)
Inductive attribute : Set :=
| Missing
| Present (v : option string).

Definition getattr (a : attribute) (default : option string) : option string :=
  match a with
  | Present v => v
  | Missing => default
  end.

(** ** The objects of an update *)

Module Telegram.

Record User : Set := mkUser { username : option string }.

(** A document or a video. *)
Record Media : Set := mkMedia {
  file_id : string;
  file_name : option string;
  file_size : option Z;
  mime_type : option string;
  file_unique_id : string
}.

(** An audio; its name and title are read with [getattr]. *)
Record Audio : Set := mkAudio {
  audio_file_id : string;
  audio_file_name : attribute;
  audio_title : attribute;
  audio_file_size : option Z;
  audio_mime_type : option string;
  audio_file_unique_id : string
}.

Record Message : Set := mkMessage {
  chat_id : Z;
  from_user : option User;
  text : option string;
  document : option Media;
  video : option Media;
  audio : option Audio
}.

End Telegram.

(** ** Calls to the database and to Telegram *)

(** The awaited calls of the handler, with the arguments that the
    handler determines; the fields "id" and "timestamp" of the stored
    documents, drawn from [uuid.uuid4] and [datetime.utcnow], and the
    constant parse mode are left out. *)
Inductive call : Type :=
| insert_message (chat_id : Z) (username text : option string) (message_type : string)
| insert_analysis (chat_id : Z) (filename : string) (file_metadata : option FileMetadata)
    (analysis : AnalysisResult) (source : string)
| send_message (chat_id : Z) (text : string).

(** What is caught by [except Exception]. *)
Inductive error : Type :=
| PythonError (e : exn)      (* raised by the analysis or the rendering *)
| ValidationError            (* pydantic: a required field is None *)
| CallError (c : call).      (* raised by an awaited call *)

(** What lies outside the program: which calls raise, and the text
    that [get_user_stats], which catches its own exceptions, returns for a
    chat. *)
Record world : Type := mkWorld {
  fails : call → bool;
  user_stats : Z → string
}.

(** A computation that makes calls: from the calls made so far to the
    calls made after it and its value, or the exception it raises. *)
Definition io (A : Type) : Type := list call → list call * (error + A).

Definition ret {A} (a : A) : io A := λ made, (made, inr a).

Definition io_bind {A B} (m : io A) (k : A → io B) : io B :=
  λ made, match m made with
          | (made', inr a) => k a made'
          | (made', inl e) => (made', inl e)
          end.

(** [await call] *)
Definition await (w : world) (c : call) : io unit :=
  λ made, (made ++ [c], if fails w c then inl (CallError c) else inr tt).

(** A pure step of the program, which may raise. *)
Definition lift {A} (r : result A) : io A :=
  λ made, (made, match r with
                 | Ok a => inr a
                 | Raise e => inl (PythonError e)
                 end).

(** [try: body except Exception as e: handler] *)
Definition try_except {A} (body : io A) (handler : error → io A) : io A :=
  λ made, match body made with
          | (made', inl e) => handler e made'
          | (made', inr a) => (made', inr a)
          end.

Notation "'do' x <- m ; k" := (io_bind m (λ x, k))
  (at level 10, x name, m at level 100, k at level 200).

(** [FileMetadata(file_id=..., file_name=..., ...)]: the model
    validates its fields, and [file_name: str] does not admit [None]. *)
Definition new_FileMetadata (file_id : string) (file_name : option string)
    (file_size : option Z) (mime_type : option string) (file_unique_id : string)
  : io FileMetadata :=
  match file_name with
  | Some name => ret (mkFileMetadata file_id name file_size mime_type file_unique_id)
  | None => λ made, (made, inl ValidationError)
  end.

(** ** The handler *)

Definition welcome_message : string :=
  String.concat nl
    [ "";
      "ü§ñ **Welcome to File Metadata Analyzer Bot!**";
      "";
      "I can analyze Telegram files and extract detailed metadata including:";
      "‚Ä¢ File format (MKV, MP4, AVI, etc.)";
      "‚Ä¢ Quality (BluRay, WEB-DL, DVDRip, etc.) ";
      "‚Ä¢ Resolution (4K, 1080p, 720p, etc.)";
      "‚Ä¢ Video/Audio codecs (H.264, H.265, AAC, etc.)";
      "‚Ä¢ Source platform (Netflix, Amazon Prime, etc.)";
      "‚Ä¢ Language and subtitle information";
      "";
      "**How to use:**";
      "1. Forward any file to me";
      "2. Send a file directly";
      "3. Use `/analyze filename.mkv` with any filename";
      "";
      "**Commands:**";
      "/start - Show this help message  ";
      "/analyze <filename> - Analyze a specific filename";
      "/stats - Show your analysis history";
      "";
      "Just send me any file and I'll analyze it! üìÅ‚ú®";
      "                " ].

Definition usage_message : string :=
  "Please provide a filename. Example: `/analyze Movie.2023.1080p.BluRay.x264.mkv`".

Definition apology_message : string :=
  "Sorry, there was an error analyzing this file. Please try again.".

(** Truthiness of an optional object: an object is truthy, [None] is
    not. *)
Definition present {A} (o : option A) : bool :=
  match o with
  | Some _ => true
  | None => false
  end.

(** The chain [if message.document: ... elif message.video: ... elif
    message.audio: ...] that builds [file_info], which starts as [None]. *)
Definition build_file_info (message : Telegram.Message) : io (option FileMetadata) :=
  match Telegram.document message with
  | Some document =>
      do file_info <-
        new_FileMetadata (Telegram.file_id document)
          (or_else (Telegram.file_name document) (Some "Unknown"))
          (Telegram.file_size document) (Telegram.mime_type document)
          (Telegram.file_unique_id document);
      ret (Some file_info)
  | None =>
      match Telegram.video message with
      | Some video =>
          do file_info <-
            new_FileMetadata (Telegram.file_id video)
              (or_else (Telegram.file_name video) (Some "Unknown Video"))
              (Telegram.file_size video) (Telegram.mime_type video)
              (Telegram.file_unique_id video);
          ret (Some file_info)
      | None =>
          match Telegram.audio message with
          | Some audio =>
              do file_info <-
                new_FileMetadata (Telegram.audio_file_id audio)
                  (or_else (getattr (Telegram.audio_file_name audio) None)
                     (getattr (Telegram.audio_title audio) (Some "Unknown Audio")))
                  (Telegram.audio_file_size audio) (Telegram.audio_mime_type audio)
                  (Telegram.audio_file_unique_id audio);
              ret (Some file_info)
          | None => ret None
          end
      end
  end.

(** The block under [if file_info:]: analyse, render, store, answer. *)
Definition answer_file (w : world) (chat_id : Z) (file_info : FileMetadata) : io unit :=
  do analysis <- lift (analyze_filename (file_name file_info));
  do response <- lift (format_analysis_response analysis (Some file_info));
  do _ <- await w (insert_analysis chat_id (file_name file_info) (Some file_info) analysis
                     "file_upload");
  await w (send_message chat_id response).

(** [handle_telegram_message(update)], for an update that holds a
    message; [bot] tells whether the bot was initialised.  Logging is left
    out. *)
Definition handle_telegram_message (w : world) (bot : bool) (message : Telegram.Message)
  : io unit :=
  if negb bot then ret tt
  else
    let chat_id := Telegram.chat_id message in
    try_except
      (do _ <- await w (insert_message chat_id
                          (match Telegram.from_user message with
                           | Some user => Telegram.username user
                           | None => None
                           end)
                          (Telegram.text message)
                          (if truthy_opt (Telegram.text message) then "text" else "media"));
       if truthy_opt (Telegram.text message) then
         let text := text (Telegram.text message) in
         if startswith text "/start" then
           await w (send_message chat_id welcome_message)
         else if startswith text "/analyze" then
           match split_space_once text with
           | _ :: filename :: _ =>
               do analysis <- lift (analyze_filename filename);
               do response <- lift (format_analysis_response analysis None);
               do _ <- await w (insert_analysis chat_id filename None analysis "command");
               await w (send_message chat_id response)
           | _ => await w (send_message chat_id usage_message)
           end
         else if startswith text "/stats" then
           await w (send_message chat_id (user_stats w chat_id))
         else ret tt
       else if present (Telegram.document message) || present (Telegram.video message)
               || present (Telegram.audio message) then
         do file_info <- build_file_info message;
         match file_info with
         | Some file_info => answer_file w chat_id file_info
         | None => ret tt
         end
       else ret tt)
      (λ _, await w (send_message chat_id apology_message)).


(** The call by which the handler logs the message, its first. *)
Definition log_call (message : Telegram.Message) : call :=
  insert_message (Telegram.chat_id message)
    (match Telegram.from_user message with
     | Some user => Telegram.username user
     | None => None
     end)
    (Telegram.text message)
    (if truthy_opt (Telegram.text message) then "text" else "media").

(** A world in which no call raises. *)
Definition calm (w : world) : Prop := ∀ c, fails w c = false.

(* ================================================================== *)
(** * The matcher computes the declarative reading *)
(* ================================================================== *)

Section matcher.
Import Re.
Implicit Types (r : regex) (st : mstate) (w s post : list ascii) (prev : option ascii).

Lemma last_or_nil prev : last_or prev [] = prev.
Proof. done. Qed.

Lemma last_or_app prev w1 w2 : last_or (last_or prev w1) w2 = last_or prev (w1 ++ w2).
Proof.
  unfold last_or. destruct w2 as [|x w2 _] using rev_ind.
  - by rewrite app_nil_r.
  - by rewrite app_assoc, !last_snoc.
Qed.

Lemma last_or_cons prev x w : last_or prev (x :: w) = last_or (Some x) w.
Proof. change (x :: w) with ([x] ++ w). by rewrite <- last_or_app. Qed.

Lemma last_or_None w : last_or None w = last w.
Proof. unfold last_or. by destruct (last w). Qed.

Lemma take_app_sub w post : take (length (w ++ post) - length post) (w ++ post) = w.
Proof.
  rewrite length_app. replace (length w + length post - length post)%nat with (length w) by lia.
  by rewrite take_app_length.
Qed.

(** [c+]: the non-empty prefixes of the subject made of [c]. *)
Lemma plus_run_spec (f : ascii → bool) s cs st' :
  st' ∈ plus_run f s cs ↔
  ∃ w, w ≠ [] ∧ Forall (λ x, f x = true) w ∧ s = w ++ m_rest st'
       ∧ m_prev st' = last w ∧ m_caps st' = cs.
Proof.
  revert st'. induction s as [|x t IH]; intros st'; simpl.
  - split; [by intros ?%elem_of_nil|].
    intros (w & Hw & _ & Heq & _). by destruct w.
  - destruct (f x) eqn:Hx.
    + rewrite elem_of_app, IH, list_elem_of_singleton. split.
      * intros [(w & Hw & Hf & -> & Hp & Hc) | ->].
        -- exists (x :: w). split_and!; auto.
           rewrite last_cons. destruct (last w) eqn:E; [done|].
           apply last_None in E. done.
        -- exists [x]. by split_and!; auto.
      * intros (w & Hw & Hf & Heq & Hp & Hc).
        destruct w as [|y w]; [done|]. simplify_eq/=.
        destruct w as [|z w].
        -- right. destruct st'; simplify_eq/=. done.
        -- left. exists (z :: w). inversion Hf; subst. split_and!; auto.
    + split; [by intros ?%elem_of_nil|].
      intros (w & Hw & Hf & Heq & _). destruct w as [|y w]; [done|].
      simplify_eq/=. inversion Hf; congruence.
Qed.

(** The matcher is sound and complete for the declarative reading. *)
Lemma run_den ic r st st' :
  st' ∈ run ic r st ↔
  ∃ w, m_rest st = w ++ m_rest st'
       ∧ den ic r (m_prev st) w (m_rest st') (m_caps st) (m_caps st')
       ∧ m_prev st' = last_or (m_prev st) w.
Proof.
  revert st st'. induction r as [| c | | | r1 IH1 r2 IH2 | r1 IH1 r2 IH2 | r1 IH1 | c | i r1 IH1 | r1 IH1];
    intros st st'; simpl.
  - (* Eps *)
    rewrite list_elem_of_singleton. split.
    + intros ->. by exists [].
    + intros (w & Hr & [-> Hc] & Hp). destruct st, st'; simplify_eq/=. done.
  - (* Chr *)
    destruct st as [p s cs]; simpl. split.
    + destruct s as [|x t]; [by intros ?%elem_of_nil|].
      destruct (cset_match ic c x) eqn:Hx; [|by intros ?%elem_of_nil].
      intros ->%list_elem_of_singleton. exists [x]. simpl. eauto 10.
    + intros (w & -> & [(x & -> & Hx) Hc] & Hp). simpl. rewrite Hx.
      apply list_elem_of_singleton. destruct st'; simplify_eq/=. done.
  - (* Bnd *)
    split.
    + destruct (xorb _ _) eqn:Hb; [|by intros ?%elem_of_nil].
      intros ->%list_elem_of_singleton. by exists [].
    + intros (w & Hr & (-> & Hb & Hc) & Hp). simpl in *. rewrite Hr, Hb.
      apply list_elem_of_singleton. destruct st, st'; simplify_eq/=. done.
  - (* Eos *)
    split.
    + destruct (m_rest st) as [|x [|y t]] eqn:Hs.
      * intros ->%list_elem_of_singleton. exists []. rewrite Hs. split_and!; auto.
      * destruct (Ascii.eqb x "010") eqn:Hx; [|by intros ?%elem_of_nil].
        apply Ascii.eqb_eq in Hx as ->.
        intros ->%list_elem_of_singleton. exists []. rewrite Hs. split_and!; auto.
      * by intros ?%elem_of_nil.
    + intros (w & Hr & (-> & Hb & Hc) & Hp). simpl in *. rewrite Hr.
      assert (st' = st) as -> by (destruct st, st'; simplify_eq/=; done).
      destruct Hb as [-> | ->]; simpl; apply list_elem_of_singleton; done.
  - (* Cat *)
    rewrite list_elem_of_bind. split.
    + intros (st1 & H2 & H1). apply IH1 in H1 as (w1 & Hr1 & Hd1 & Hp1).
      apply IH2 in H2 as (w2 & Hr2 & Hd2 & Hp2).
      exists (w1 ++ w2). split_and!.
      * by rewrite Hr1, Hr2, app_assoc.
      * exists w1, w2, (m_caps st1). rewrite <- Hr2, <- Hp1. done.
      * by rewrite Hp2, Hp1, last_or_app.
    + intros (w & Hr & (w1 & w2 & cs1 & -> & Hd1 & Hd2) & Hp).
      exists (MState (last_or (m_prev st) w1) (w2 ++ m_rest st') cs1). split.
      * apply IH2. exists w2. simpl. split_and!; auto. by rewrite last_or_app.
      * apply IH1. exists w1. simpl. split_and!; auto. by rewrite Hr, app_assoc.
  - (* Alt *)
    rewrite elem_of_app, IH1, IH2. split.
    + intros [(w & ? & ? & ?) | (w & ? & ? & ?)]; exists w; auto.
    + intros (w & ? & [?|?] & ?); [left | right]; exists w; auto.
  - (* Opt *)
    rewrite elem_of_app, IH1, list_elem_of_singleton. split.
    + intros [(w & ? & ? & ?)| ->]; [exists w; auto|]. exists []. auto.
    + intros (w & Hr & [Hd | [-> Hc]] & Hp); [left; eauto|].
      right. destruct st, st'; simplify_eq/=. done.
  - (* Plus *)
    rewrite plus_run_spec. split.
    + intros (w & Hw & Hf & Hr & Hp & Hc). exists w. split_and!; auto.
      rewrite Hp. unfold last_or. destruct (last w) eqn:E; [done|].
      by apply last_None in E.
    + intros (w & Hr & (Hw & Hf & Hc) & Hp). exists w. split_and!; auto.
      rewrite Hp. unfold last_or. destruct (last w) eqn:E; [done|].
      by apply last_None in E.
  - (* Grp *)
    rewrite list_elem_of_fmap. split.
    + intros (st1 & -> & H1). apply IH1 in H1 as (w & Hr & Hd & Hp). simpl.
      exists w. split_and!; auto. exists (m_caps st1). split; [done|].
      by rewrite Hr, take_app_sub.
    + intros (w & Hr & (cs1 & Hd & Hc) & Hp).
      exists (MState (m_prev st') (m_rest st') cs1). split.
      * simpl. rewrite Hr, take_app_sub. destruct st'; simplify_eq/=. done.
      * apply IH1. exists w. auto.
  - (* NotAhead *)
    split.
    + destruct (run ic r1 st) as [|st1 l] eqn:Hrun; [|by intros ?%elem_of_nil].
      intros ->%list_elem_of_singleton. exists []. split_and!; auto.
      intros (w1 & post1 & cs1 & Hr & Hd).
      assert (MState (last_or (m_prev st) w1) post1 cs1 ∈ run ic r1 st) as Hin.
      { apply IH1. exists w1. auto. }
      rewrite Hrun in Hin. by apply elem_of_nil in Hin.
    + intros (w & Hr & (-> & Hc & Hn) & Hp).
      assert (st' = st) as -> by (destruct st, st'; simplify_eq/=; done).
      destruct (run ic r1 st) as [|st1 l] eqn:Hrun; [by apply list_elem_of_singleton|].
      exfalso. apply Hn.
      assert (st1 ∈ run ic r1 st) as Hin by (rewrite Hrun; left).
      apply IH1 in Hin as (w1 & Hr1 & Hd1 & _). eauto.
Qed.

End matcher.

Section searching.
Import Re.
Implicit Types (r : regex) (st : mstate) (w s post : list ascii) (prev : option ascii).

Lemma run_nil ic r prev s :
  run ic r (MState prev s []) = [] ↔
  ∀ w post cs, s = w ++ post → ¬ den ic r prev w post [] cs.
Proof.
  split.
  - intros Hrun w post cs -> Hd.
    assert (MState (last_or prev w) post cs ∈ run ic r (MState prev (w ++ post) [])) as Hin.
    { apply run_den. exists w. auto. }
    rewrite Hrun in Hin. by apply elem_of_nil in Hin.
  - intros Hno. destruct (run _ _ _) as [|st l] eqn:Hrun; [done|].
    assert (st ∈ run ic r (MState prev s [])) as Hin by (rewrite Hrun; left).
    apply run_den in Hin as (w & Hr & Hd & _). simpl in *.
    destruct (Hno _ _ _ Hr Hd).
Qed.

Lemma run_head ic r prev s st l :
  run ic r (MState prev s []) = st :: l →
  ∃ w, s = w ++ m_rest st ∧ den ic r prev w (m_rest st) [] (m_caps st)
       ∧ take (length s - length (m_rest st)) s = w.
Proof.
  intros Hrun.
  assert (st ∈ run ic r (MState prev s [])) as Hin by (rewrite Hrun; left).
  apply run_den in Hin as (w & Hr & Hd & _). simpl in *.
  exists w. split_and!; auto. by rewrite Hr, take_app_sub.
Qed.

(** [scan] fails exactly when the pattern occurs nowhere. *)
Lemma scan_None ic r n prev s :
  scan ic r n prev s = None ↔
  ∀ pre w post cs, s = pre ++ w ++ post → ¬ den ic r (last_or prev pre) w post [] cs.
Proof.
  revert n prev. induction s as [|x t IH]; intros n prev; simpl.
  - destruct (run _ _ _) as [|st l] eqn:Hrun.
    + split; [|done]. intros _ pre w post cs Heq.
      symmetry in Heq. apply app_eq_nil in Heq as [-> Heq]. rewrite last_or_nil.
      rewrite run_nil in Hrun. by apply Hrun.
    + split; [done|]. intros Hno. apply run_head in Hrun as (w & Hs & Hd & _).
      destruct (Hno [] w (m_rest st) (m_caps st)); auto.
  - destruct (run _ _ _) as [|st l] eqn:Hrun.
    + rewrite IH. rewrite run_nil in Hrun. split.
      * intros Hno pre w post cs Heq. destruct pre as [|y pre].
        -- rewrite last_or_nil. by apply Hrun.
        -- simplify_eq/=. rewrite last_or_cons. by apply Hno.
      * intros Hno pre w post cs Heq. rewrite <- last_or_cons with (prev := prev).
        apply Hno. by rewrite Heq.
    + split; [done|]. intros Hno. apply run_head in Hrun as (w & Hs & Hd & _).
      destruct (Hno [] w (m_rest st) (m_caps st)); auto.
Qed.

(** The state that a successful [scan] is read from: the first result of
    the matcher at the leftmost position that has one. *)
Lemma scan_found ic r n prev s m :
  scan ic r n prev s = Some m →
  ∃ pre suf st l,
    s = pre ++ suf ∧ run ic r (MState (last_or prev pre) suf []) = st :: l
    ∧ m = Match (n + length pre) (str (take (length suf - length (m_rest st)) suf)) (m_caps st)
    ∧ ∀ pre' w' post' cs', s = pre' ++ w' ++ post' →
        den ic r (last_or prev pre') w' post' [] cs' → (length pre ≤ length pre')%nat.
Proof.
  revert n prev. induction s as [|x t IH]; intros n prev; cbn [scan].
  - destruct (run _ _ _) as [|st l] eqn:Hrun; [done|]. intros [= <-].
    exists [], [], st, l. rewrite Nat.add_0_r. split_and!; auto. intros; simpl; lia.
  - destruct (run _ _ _) as [|st l] eqn:Hrun.
    + intros (pre & suf & st & l & -> & Hrun' & -> & Hleft)%IH.
      exists (x :: pre), suf, st, l. rewrite last_or_cons.
      split_and!; auto; [simpl; f_equal; lia|].
      intros pre' w' post' cs' Heq Hd'. destruct pre' as [|y pre'].
      * rewrite run_nil in Hrun. destruct (Hrun w' post' cs' Heq Hd').
      * injection Heq as <- Heq. rewrite last_or_cons in Hd'.
        specialize (Hleft _ _ _ _ Heq Hd'). simpl. lia.
    + intros [= <-]. exists [], (x :: t), st, l. rewrite Nat.add_0_r.
      split_and!; auto. intros; simpl; lia.
Qed.

(** A successful [scan] returns an occurrence of the pattern, and no
    occurrence starts before it. *)
Lemma scan_Some ic r n prev s m :
  scan ic r n prev s = Some m →
  ∃ pre w post cs,
    s = pre ++ w ++ post ∧ den ic r (last_or prev pre) w post [] cs
    ∧ m = Match (n + length pre) (str w) cs
    ∧ ∀ pre' w' post' cs', s = pre' ++ w' ++ post' →
        den ic r (last_or prev pre') w' post' [] cs' → (length pre ≤ length pre')%nat.
Proof.
  intros (pre & suf & st & l & -> & Hrun & -> & Hleft)%scan_found.
  apply run_head in Hrun as (w & Hs & Hd & Ht).
  exists pre, w, (m_rest st), (m_caps st). rewrite Ht.
  split_and!; [by rewrite Hs|done..].
Qed.

Lemma search_compiled ic pattern r text :
  compile pattern = Some r →
  search pattern text ic = Ok (scan ic r 0 None (chars text)).
Proof. unfold search. by intros ->. Qed.

(** [hit] on a compiled pattern: the pattern occurs somewhere. *)
Lemma hit_true ic pattern r text :
  compile pattern = Some r →
  hit ic pattern text = true ↔ ∃ pre w post cs, occurs_at ic r (chars text) pre w post cs.
Proof.
  intros Hc. unfold hit, occurs_at. rewrite (search_compiled _ _ _ _ Hc).
  destruct (scan _ _ _ _ _) as [m|] eqn:Hs.
  - split; [intros _|done].
    apply scan_Some in Hs as (pre & w & post & cs & Heq & Hd & _).
    rewrite last_or_None in Hd. eauto 10.
  - split; [done|]. intros (pre & w & post & cs & Heq & Hd).
    rewrite scan_None in Hs. destruct (Hs pre w post cs Heq). by rewrite last_or_None.
Qed.

Lemma hit_false ic pattern r text :
  compile pattern = Some r →
  hit ic pattern text = false ↔ ∀ pre w post cs, ¬ occurs_at ic r (chars text) pre w post cs.
Proof.
  intros Hc. rewrite <- not_true_iff_false, (hit_true _ _ _ _ Hc). split.
  - intros Hno pre w post cs Ho. apply Hno. eauto.
  - intros Hno (pre & w & post & cs & Ho). by apply (Hno pre w post cs).
Qed.

End searching.

Section reading.
Import Re.
Implicit Types (r k : regex) (w s post : list ascii) (prev : option ascii)
  (cs : list (nat * list ascii)).

Lemma last_or_last prev w : w ≠ [] → last_or prev w = last w.
Proof.
  intros Hw. unfold last_or. destruct (last w) eqn:E; [done|].
  by apply last_None in E.
Qed.

Lemma den_Cat_Chr ic c k prev w post cs cs' :
  den ic (Cat (Chr c) k) prev w post cs cs' ↔
  ∃ x w2, w = x :: w2 ∧ cset_match ic c x = true ∧ den ic k (Some x) w2 post cs cs'.
Proof.
  simpl. split.
  - intros (w1 & w2 & cs1 & -> & [(x & -> & Hx) ->] & Hk). eauto.
  - intros (x & w2 & -> & Hx & Hk). exists [x], w2, cs. eauto 10.
Qed.

Lemma den_Cat_Bnd ic k prev w post cs cs' :
  den ic (Cat Bnd k) prev w post cs cs' ↔
  xorb (word_at prev) (word_at (head (w ++ post))) = true ∧ den ic k prev w post cs cs'.
Proof.
  simpl. split.
  - intros (w1 & w2 & cs1 & -> & (-> & Hb & ->) & Hk). eauto.
  - intros (Hb & Hk). exists [], w, cs. eauto 10.
Qed.

Lemma den_Cat_Opt_Chr ic c k prev w post cs cs' :
  den ic (Cat (Opt (Chr c)) k) prev w post cs cs' ↔
  (∃ x w2, w = x :: w2 ∧ cset_match ic c x = true ∧ den ic k (Some x) w2 post cs cs')
  ∨ den ic k prev w post cs cs'.
Proof.
  simpl. split.
  - intros (w1 & w2 & cs1 & -> & [[(x & -> & Hx) ->] | [-> ->]] & Hk); eauto 10.
  - intros [(x & w2 & -> & Hx & Hk) | Hk].
    + exists [x], w2, cs. eauto 10.
    + exists [], w, cs. eauto 10.
Qed.

(** A capturing group around [c+], the shape of [(\d+)]. *)
Lemma den_Cat_Grp_Plus ic i c k prev w post cs cs' :
  den ic (Cat (Grp i (Cat (Plus c) Eps)) k) prev w post cs cs' ↔
  ∃ a w2, w = a ++ w2 ∧ a ≠ [] ∧ Forall (λ x, cset_match ic c x = true) a
          ∧ den ic k (last a) w2 post ((i, a) :: cs) cs'.
Proof.
  simpl. split.
  - intros (w1 & w2 & cs1 & -> &
            (cs2 & (a & e & cs3 & -> & (Ha & Hf & ->) & (-> & ->)) & ->) & Hk).
    rewrite app_nil_r in *. rewrite last_or_last in Hk by done. eauto 10.
  - intros (a & w2 & -> & Ha & Hf & Hk).
    exists a, w2, ((i, a) :: cs). rewrite last_or_last by done. split_and!; auto.
    exists cs. split; [|done]. exists a, [], cs. rewrite app_nil_r. eauto 10.
Qed.

Lemma den_Cat_Grp ic i r k prev w post cs cs' :
  den ic (Cat (Grp i r) k) prev w post cs cs' ↔
  ∃ w1 w2 cs1, w = w1 ++ w2 ∧ den ic r prev w1 (w2 ++ post) cs cs1
               ∧ den ic k (last_or prev w1) w2 post ((i, w1) :: cs1) cs'.
Proof.
  simpl. split.
  - intros (w1 & w2 & cs1 & -> & (cs2 & Hr & ->) & Hk). eauto 10.
  - intros (w1 & w2 & cs1 & -> & Hr & Hk). exists w1, w2, ((i, w1) :: cs1). eauto 10.
Qed.

Lemma den_Cat_assoc ic r1 r2 k prev w post cs cs' :
  den ic (Cat (Cat r1 r2) k) prev w post cs cs' ↔
  den ic (Cat r1 (Cat r2 k)) prev w post cs cs'.
Proof.
  simpl. split.
  - intros (w12 & w3 & cs2 & -> & (w1 & w2 & cs1 & -> & H1 & H2) & H3).
    exists w1, (w2 ++ w3), cs1. split_and!.
    + by rewrite app_assoc.
    + by rewrite <- app_assoc.
    + exists w2, w3, cs2. rewrite last_or_app. done.
  - intros (w1 & w23 & cs1 & -> & H1 & (w2 & w3 & cs2 & -> & H2 & H3)).
    exists (w1 ++ w2), w3, cs2. rewrite last_or_app in H3. split_and!.
    + by rewrite app_assoc.
    + exists w1, w2, cs1. by rewrite <- app_assoc in H1.
    + done.
Qed.

Lemma den_Cat_Eps ic k prev w post cs cs' :
  den ic (Cat Eps k) prev w post cs cs' ↔ den ic k prev w post cs cs'.
Proof.
  simpl. split.
  - by intros (w1 & w2 & cs1 & -> & [-> ->] & H).
  - intros H. exists [], w, cs. done.
Qed.

Lemma den_Alt ic r1 r2 prev w post cs cs' :
  den ic (Alt r1 r2) prev w post cs cs' ↔
  den ic r1 prev w post cs cs' ∨ den ic r2 prev w post cs cs'.
Proof. done. Qed.

Lemma den_Eps ic prev w post cs cs' :
  den ic Eps prev w post cs cs' ↔ w = [] ∧ cs' = cs.
Proof. done. Qed.

(** A literal word, compared case-sensitively. *)
Lemma den_lits l k prev w post cs cs' :
  den false (lits l k) prev w post cs cs' ↔
  ∃ w2, w = l ++ w2 ∧ den false k (last_or prev l) w2 post cs cs'.
Proof.
  revert prev w. induction l as [|c l IH]; intros prev w.
  - simpl. rewrite last_or_nil. split; [eauto|]. by intros (w2 & -> & ?).
  - change (lits (c :: l) k) with (Cat (Chr (CLit c)) (lits l k)).
    rewrite den_Cat_Chr. setoid_rewrite IH. rewrite last_or_cons. simpl. split.
    + intros (x & w2 & -> & ->%Ascii.eqb_eq & (w3 & -> & Hk)). eauto.
    + intros (w2 & -> & Hk). exists c, (l ++ w2). rewrite Ascii.eqb_refl. eauto.
Qed.

End reading.

Section greedy.
Import Re.
Implicit Types (r k : regex) (st : mstate).

Lemma plus_run_head (f : ascii → bool) s cs st l :
  plus_run f s cs = st :: l → ∀ c, head (m_rest st) = Some c → f c = false.
Proof.
  revert st l. induction s as [|x t IH]; intros st l; simpl; [done|].
  destruct (f x) eqn:Hx; [|done].
  destruct (plus_run f t cs) as [|st1 l1] eqn:Hrun; simpl.
  - intros [= <- <-] c Hc. simpl in Hc. destruct t as [|y t]; simplify_eq/=.
    destruct (f c); [|done]. by destruct (plus_run f t cs).
  - intros [= <- <-]. by eapply IH.
Qed.

Lemma bind_head {A B} (f : A → list B) (l : list A) y t :
  l ≫= f = y :: t → ∃ x t', x ∈ l ∧ f x = y :: t'.
Proof.
  induction l as [|x l IH]; [done|]. rewrite bind_cons.
  destruct (f x) as [|y' t'] eqn:Hf; simpl.
  - intros (x' & t'' & Hin & Hx)%IH. exists x', t''. split; [by right|done].
  - intros [= -> <-]. exists x, t'. split; [left|done].
Qed.

Lemma run_Cat_Eps ic r st : run ic (Cat r Eps) st = run ic r st.
Proof.
  cbn [run]. induction (run ic r st) as [|x l IH]; [done|].
  rewrite bind_cons, IH. done.
Qed.

(** The first result of a pattern that ends in [\d+] takes all the
    digits there are. *)
Lemma ends_in_number_head ic r st st' l :
  ends_in_number r = true → run ic r st = st' :: l →
  ∀ c, head (m_rest st') = Some c → is_digit c = false.
Proof.
  revert st st' l.
  induction r as [| c | | | r1 IH1 r2 IH2 | r1 IH1 r2 IH2 | r1 IH1 | c | i r1 IH1 | r1 IH1];
    intros st st' l Hr Hrun; try done.
  - (* Cat *)
    assert (r2 = Eps ∨ ends_in_number r2 = true) as [-> | Hr2]
      by (destruct r2; simpl in Hr; auto).
    + rewrite run_Cat_Eps in Hrun. by eapply IH1.
    + cbn [run] in Hrun. apply bind_head in Hrun as (st1 & l1 & Hin & H2).
      by eapply IH2.
  - (* Plus *)
    destruct c; try done. cbn [run] in Hrun.
    intros c Hc. by eapply (plus_run_head _ _ _ _ _ Hrun).
  - (* Grp *)
    cbn [run] in Hrun. destruct (run ic r1 st) as [|st1 l1] eqn:Hr1; [done|].
    rewrite fmap_cons in Hrun. injection Hrun as <- _.
    simpl. by apply (IH1 st st1 l1).
Qed.

End greedy.

Section families.
Import Re.
Implicit Types (w a b post : list ascii) (prev : option ascii)
  (cs : list (nat * list ascii)).

Lemma family_compiles fam : compile (family_pattern fam) = Some (family_regex fam).
Proof. by destruct fam; vm_compute. Qed.

Lemma separator_nil : separator [].
Proof. by left. Qed.

Lemma separator_one x : cset_match false CAny x = true → separator [x].
Proof.
  simpl. intros Hx. right. exists x. split; [done|]. intros ->. done.
Qed.

Lemma separator_inv x : separator x → x = [] ∨ ∃ c, x = [c] ∧ cset_match false CAny c = true.
Proof.
  intros [-> | (c & -> & Hc)]; [by left|]. right. exists c. split; [done|].
  simpl. apply negb_true_iff, Ascii.eqb_neq. done.
Qed.

(** What the three patterns match, with the groups they capture. *)
Lemma den_family fam prev w post cs :
  den false (family_regex fam) prev w post [] cs ↔
  ∃ a b, number a ∧ number b ∧ shaped fam a b w ∧ cs = [(2%nat, b); (1%nat, a)].
Proof.
  unfold number. destruct fam; unfold family_regex.
  - (* s(\d+)e(\d+) *)
    rewrite den_lits. setoid_rewrite den_Cat_Grp_Plus.
    setoid_rewrite den_lits. setoid_rewrite den_Cat_Grp_Plus.
    setoid_rewrite den_Eps. simpl. split.
    + intros (w2 & -> & a & w3 & -> & Ha & Hfa & w4 & -> & b & e & -> & Hb & Hfb & -> & ->).
      exists a, b. rewrite app_nil_r. done.
    + intros (a & b & [Ha Hfa] & [Hb Hfb] & -> & ->).
      eexists. split; [done|]. exists a. eexists. split; [done|]. split_and!; auto.
      eexists. split; [done|]. exists b, []. rewrite app_nil_r. done.
  - (* season.?(\d+).?episode.?(\d+) *)
    rewrite den_lits. setoid_rewrite den_Cat_Opt_Chr.
    setoid_rewrite den_Cat_Grp_Plus. setoid_rewrite den_Cat_Opt_Chr.
    setoid_rewrite den_lits. setoid_rewrite den_Cat_Opt_Chr.
    setoid_rewrite den_Cat_Grp_Plus. setoid_rewrite den_Eps. split.
    + intros (w2 & -> & Hx).
      assert (∃ x w3, separator x ∧ w2 = x ++ w3 ∧
        ∃ a w4, w3 = a ++ w4 ∧ a ≠ [] ∧ Forall (λ c, cset_match false CDigit c = true) a ∧
        ∃ y w5, separator y ∧ w4 = y ++ w5 ∧
        ∃ w6, w5 = chars "episode" ++ w6 ∧
        ∃ z w7, separator z ∧ w6 = z ++ w7 ∧
        ∃ b, w7 = b ∧ b ≠ [] ∧ Forall (λ c, cset_match false CDigit c = true) b
             ∧ cs = [(2%nat, b); (1%nat, a)])
        as (x & w3 & Hsx & -> & a & w4 & -> & Ha & Hfa & y & w5 & Hsy & -> & w6 & -> &
            z & w7 & Hsz & -> & b & -> & Hb & Hfb & ->).
      { destruct Hx as [(x & w3 & -> & Hcx & Hx) | Hx];
          [exists [x], w3; split; [by apply separator_one|]
          | exists [], w2; split; [apply separator_nil|]];
          (split; [done|]);
          destruct Hx as (a & w4 & -> & Ha & Hfa & Hy); exists a, w4; split_and!; auto;
          (destruct Hy as [(y & w5 & -> & Hcy & Hy) | Hy];
            [exists [y], w5; split; [by apply separator_one|]
            | exists [], w4; split; [apply separator_nil|]]);
          (split; [done|]);
          destruct Hy as (w6 & -> & Hz); exists w6; (split; [done|]);
          (destruct Hz as [(z & w7 & -> & Hcz & Hz) | Hz];
            [exists [z], w7; split; [by apply separator_one|]
            | exists [], w6; split; [apply separator_nil|]]);
          (split; [done|]);
          destruct Hz as (b & e & -> & Hb & Hfb & -> & ->); exists b;
          rewrite app_nil_r; done. }
      exists a, b. split_and!; auto. exists x, y, z. split_and!; auto.
    + intros (a & b & [Ha Hfa] & [Hb Hfb] & (x & y & z & Hsx & Hsy & Hsz & ->) & ->).
      eexists. split; [done|].
      assert (∀ k : list ascii → option ascii → Prop,
                (∀ p, k b p) → ∀ p,
                (∃ c w2, z ++ b = c :: w2 ∧ cset_match false CAny c = true ∧ k w2 (Some c))
                ∨ k (z ++ b) p) as Hz.
      { intros k Hk p. apply separator_inv in Hsz as [-> | (c & -> & Hc)]; [by right|].
        left. exists c, b. done. }
      assert (∀ (k : list ascii → option ascii → Prop) t,
                (∀ p, k t p) → ∀ p,
                (∃ c w2, y ++ t = c :: w2 ∧ cset_match false CAny c = true ∧ k w2 (Some c))
                ∨ k (y ++ t) p) as Hy.
      { intros k t Hk p. apply separator_inv in Hsy as [-> | (c & -> & Hc)]; [by right|].
        left. exists c, t. done. }
      assert (∀ (k : list ascii → option ascii → Prop) t,
                (∀ p, k t p) → ∀ p,
                (∃ c w2, x ++ t = c :: w2 ∧ cset_match false CAny c = true ∧ k w2 (Some c))
                ∨ k (x ++ t) p) as Hx.
      { intros k t Hk p. apply separator_inv in Hsx as [-> | (c & -> & Hc)]; [by right|].
        left. exists c, t. done. }
      apply (Hx (λ t p, ∃ a0 w2, t = a0 ++ w2 ∧ _)). intros p.
      exists a. eexists. split; [done|]. split_and!; auto.
      apply (Hy (λ t p, ∃ w2, t = _ ++ w2 ∧ _)). intros p'.
      eexists. split; [done|].
      apply (Hz (λ t p, ∃ a0 w2, t = a0 ++ w2 ∧ _)). intros p''.
      exists b, []. rewrite app_nil_r. done.
      Unshelve. all: exact None.
  - (* (\d+)x(\d+) *)
    rewrite den_Cat_Grp_Plus. setoid_rewrite den_lits.
    setoid_rewrite den_Cat_Grp_Plus. setoid_rewrite den_Eps. simpl. split.
    + intros (a & w2 & -> & Ha & Hfa & w3 & -> & b & e & -> & Hb & Hfb & -> & ->).
      exists a, b. rewrite app_nil_r. done.
    + intros (a & b & [Ha Hfa] & [Hb Hfb] & -> & ->).
      exists a. eexists. split; [done|]. split_and!; auto.
      eexists. split; [done|]. exists b, []. rewrite app_nil_r. done.
Qed.

End families.

Section words.
Import Re.
Implicit Types (r k : regex) (w s post : list ascii) (prev : option ascii)
  (cs : list (nat * list ascii)).

Lemma year_compiles : compile "\b(19|20)\d{2}\b" = Some year_regex.
Proof. by vm_compute. Qed.

Lemma hdr_compiles : compile "\b(hdr|hdr10|dolby.vision)\b" = Some hdr_regex.
Proof. by vm_compute. Qed.

Lemma is_digit_word c : is_digit c = true → is_word c = true.
Proof. unfold is_word. intros ->. by rewrite orb_true_r. Qed.

Lemma xorb_true_r_inv b : xorb b true = true ↔ b = false.
Proof. by destruct b. Qed.

Lemma xorb_true_l_inv b : xorb true b = true ↔ b = false.
Proof. by destruct b. Qed.

(** [\b(r)...\b] around a group. *)
Lemma den_word ic i r k prev w post cs cs' :
  den ic (Cat Bnd (Cat (Grp i r) k)) prev w post cs cs' ↔
  xorb (word_at prev) (word_at (head (w ++ post))) = true
  ∧ ∃ w1 w2 cs1, w = w1 ++ w2 ∧ den ic r prev w1 (w2 ++ post) cs cs1
                 ∧ den ic k (last_or prev w1) w2 post ((i, w1) :: cs1) cs'.
Proof. by rewrite den_Cat_Bnd, den_Cat_Grp. Qed.

Lemma den_Bnd_end ic prev w post cs cs' :
  den ic (Cat Bnd Eps) prev w post cs cs' ↔
  w = [] ∧ xorb (word_at prev) (word_at (head post)) = true ∧ cs' = cs.
Proof.
  rewrite den_Cat_Bnd, den_Eps. split.
  - by intros (Hb & -> & ->).
  - by intros (-> & Hb & ->).
Qed.

(** What the year pattern matches. *)
Lemma den_year prev w post cs :
  den false year_regex prev w post [] cs ↔
  year_text w ∧ word_at prev = false ∧ word_at (head post) = false
  ∧ cs = [(1%nat, take 2 w)].
Proof.
  unfold year_regex, year_text. rewrite den_word.
  setoid_rewrite den_Cat_assoc. setoid_rewrite den_Cat_Chr.
  setoid_rewrite den_Cat_assoc. setoid_rewrite den_Cat_Chr.
  setoid_rewrite den_Cat_Eps. setoid_rewrite den_Bnd_end. split.
  - intros (Hb & w1 & w2 & cs1 & -> & H1 &
            c3 & w0 & -> & Hc3 & c4 & w3 & -> & Hc4 & -> & Hb' & ->).
    rewrite !den_Alt, !den_lits in H1. setoid_rewrite den_Eps in H1.
    assert ((w1 = chars "19" ∨ w1 = chars "20") ∧ cs1 = []) as [Hw1 ->].
    { destruct H1 as [(e & -> & -> & ->) | (e & -> & -> & ->)]; auto. }
    simpl in Hb', Hc3, Hc4.
    rewrite (is_digit_word _ Hc4) in Hb'. apply xorb_true_l_inv in Hb'.
    split_and!.
    + exists w1, c3, c4. done.
    + by destruct Hw1 as [-> | ->]; apply xorb_true_r_inv in Hb.
    + done.
    + by destruct Hw1 as [-> | ->].
  - intros ((p & c3 & c4 & Hp & Hc3 & Hc4 & ->) & Hprev & Hpost & ->).
    split; [by destruct Hp as [-> | ->]; rewrite Hprev|].
    exists p, [c3; c4], []. split_and!; [done| |].
    + rewrite !den_Alt, !den_lits. setoid_rewrite den_Eps.
      destruct Hp as [-> | ->]; [left | right]; exists []; done.
    + exists c3, [c4]. split_and!; auto. exists c4, []. split_and!; auto.
      * simpl. by rewrite (is_digit_word _ Hc4), Hpost.
      * by destruct Hp as [-> | ->].
Qed.

(** What the HDR pattern matches. *)
Lemma den_hdr prev w post cs :
  den false hdr_regex prev w post [] cs ↔
  hdr_text w ∧ word_at prev = false ∧ word_at (head post) = false
  ∧ cs = [(1%nat, w)].
Proof.
  unfold hdr_regex, hdr_text. rewrite den_word. setoid_rewrite den_Bnd_end. split.
  - intros (Hb & w1 & w2 & cs1 & -> & H1 & -> & Hb' & ->).
    rewrite app_nil_r in *. rewrite !den_Alt, !den_lits in H1.
    setoid_rewrite den_Cat_Chr in H1. setoid_rewrite den_lits in H1.
    setoid_rewrite den_Eps in H1.
    destruct H1 as [(e & -> & -> & ->) | [(e & -> & -> & ->)
      | (e & -> & c & e' & -> & Hc & e'' & -> & -> & ->)]];
      simpl in Hb, Hb'; apply xorb_true_r_inv in Hb; apply xorb_true_l_inv in Hb';
      split_and!; auto.
    right; right. exists c. split; [|done]. intros ->. done.
  - intros (Hw & Hprev & Hpost & ->).
    split; [by destruct Hw as [-> | [-> | (c & _ & ->)]]; rewrite Hprev|].
    exists w, [], []. rewrite app_nil_r. split; [done|]. split.
    + rewrite !den_Alt, !den_lits. setoid_rewrite den_Cat_Chr.
      setoid_rewrite den_lits. setoid_rewrite den_Eps.
      destruct Hw as [-> | [-> | (c & Hc & ->)]].
      * left. exists []. done.
      * right; left. exists []. done.
      * right; right. eexists. split; [done|]. exists c. eexists. split; [done|].
        split; [simpl; by apply negb_true_iff, Ascii.eqb_neq|].
        exists []. done.
    + split_and!; auto.
      by destruct Hw as [-> | [-> | (c & _ & ->)]]; simpl; rewrite Hpost.
Qed.

End words.

Section strings.

Lemma chars_app (a b : string) : chars (a +:+ b) = chars a ++ chars b.
Proof. induction a as [|c a IH]; simpl; [done|]. by rewrite IH. Qed.

Lemma chars_str (l : list ascii) : chars (str l) = l.
Proof. apply String.list_ascii_of_string_of_list_ascii. Qed.

Lemma str_chars (s : string) : str (chars s) = s.
Proof. apply String.string_of_list_ascii_of_string. Qed.

Lemma chars_inj (a b : string) : chars a = chars b → a = b.
Proof. intros H. by rewrite <- (str_chars a), <- (str_chars b), H. Qed.

Lemma str_app (a b : list ascii) : str (a ++ b) = str a +:+ str b.
Proof. apply chars_inj. by rewrite chars_app, !chars_str. Qed.

Lemma chars_length (a : string) : length (chars a) = String.length a.
Proof. induction a as [|c a IH]; simpl; [done|]. by rewrite IH. Qed.

Lemma chars_lower (a : string) : chars (lower a) = lower_char <$> chars a.
Proof. induction a as [|c a IH]; simpl; [done|]. by rewrite IH. Qed.

Lemma lower_app (a b : string) : lower (a +:+ b) = lower a +:+ lower b.
Proof. induction a as [|c a IH]; simpl; [done|]. by rewrite IH. Qed.

End strings.

(** Splits a [Forall] over a table given as a literal list into one goal
    per entry. *)
Ltac each_entry := repeat first [apply Forall_nil_2 | apply Forall_cons_2].

Section loops.

Lemma compiles_search ic pattern text :
  compiles pattern →
  ∃ r, Re.compile pattern = Some r
       ∧ Re.search pattern text ic = Ok (Re.scan ic r 0 None (chars text)).
Proof. intros [r Hr]. exists r. split; [done|]. by apply search_compiled. Qed.

Lemma hit_search ic pattern text :
  compiles pattern →
  Re.search pattern text ic = Ok (Re.scan ic (default Re.Eps (Re.compile pattern)) 0 None (chars text))
  ∧ hit ic pattern text = bool_decide (is_Some (Re.scan ic (default Re.Eps (Re.compile pattern)) 0 None (chars text))).
Proof.
  intros [r Hr]. unfold hit. rewrite (search_compiled _ _ _ _ Hr), Hr. simpl.
  split; [done|]. by destruct (Re.scan _ _ _ _ _).
Qed.

Lemma compiled_cons name pattern items :
  compiled ((name, pattern) :: items) = true → compiles pattern ∧ compiled items = true.
Proof.
  unfold compiled. simpl. intros [H1 H2]%andb_true_iff. split; [|done].
  by apply bool_decide_eq_true in H1.
Qed.

(** On a table of well-formed patterns the loop never raises and leaves
    the label that [pick] describes. *)
Lemma detect_pick items text :
  compiled items = true → detect items text = Ok (pick items text).
Proof.
  induction items as [|[name pattern] items IH]; [done|].
  intros [Hp Hc]%compiled_cons. simpl.
  destruct (hit_search true pattern text Hp) as [-> ->]. simpl.
  destruct (Re.scan _ _ _ _ _); simpl; [done|]. by apply IH.
Qed.

Lemma found_hit pattern text :
  compiles pattern → found pattern text = Ok (hit false pattern text).
Proof.
  intros Hp. unfold found. destruct (hit_search false pattern text Hp) as [-> ->]. done.
Qed.

Lemma tables_compiled :
  compiled format_patterns = true ∧ compiled quality_patterns = true
  ∧ compiled resolution_patterns = true ∧ compiled video_codec_patterns = true
  ∧ compiled audio_codec_patterns = true ∧ compiled language_patterns = true
  ∧ compiled source_patterns = true.
Proof. by vm_compute. Qed.

(** [pick] is first-match-wins. *)
Lemma pick_first_match items f : first_match_wins items f (pick items (lower f)).
Proof.
  induction items as [|[name pattern] items IH]; simpl.
  - intros l pattern Hin. by apply elem_of_nil in Hin.
  - destruct (hit true pattern (lower f)) eqn:Hhit; simpl.
    + exists 0%nat, pattern. split_and!; auto. intros; lia.
    + destruct (pick items (lower f)) as [l|]; simpl in *.
      * destruct IH as (i & p & Hi & Hp & Hbefore).
        exists (S i), p. split_and!; auto.
        intros [|j] l' p' Hlt Hj; simplify_eq/=; [done|].
        apply (Hbefore j l' p'); [lia|done].
      * intros l p [[= -> ->] | Hin]%elem_of_cons; [done|]. by apply (IH l p).
Qed.

Lemma pick_cons name pattern items text :
  pick ((name, pattern) :: items) text
  = if hit true pattern text then Some name else pick items text.
Proof. done. Qed.

Lemma labels_lookup items i e : items !! i = Some e → labels items !! i = Some e.1.
Proof. intros H. unfold labels. by rewrite list_lookup_fmap, H. Qed.

(** With distinct labels, the label selected is never that of a later
    entry than one whose pattern is found. *)
Lemma pick_never_later items f l :
  NoDup (labels items) → pick items (lower f) = Some l → never_later items f l.
Proof.
  intros Hnd Hp i j e1 e2 Hi Hj Hlt Hhit ->.
  pose proof (pick_first_match items f) as Hfirst. rewrite Hp in Hfirst.
  destruct Hfirst as (k & p & Hk & _ & Hbefore).
  assert (k = j) as ->.
  { apply (NoDup_lookup (labels items) k j e2.1); [done|..].
    - by apply labels_lookup in Hk.
    - by apply labels_lookup in Hj. }
  destruct e1 as [l1 p1]. simpl in Hhit. rewrite (Hbefore i l1 p1 Hlt Hi) in Hhit. done.
Qed.

Lemma tables_distinct :
  NoDup (labels format_patterns) ∧ NoDup (labels quality_patterns)
  ∧ NoDup (labels resolution_patterns) ∧ NoDup (labels video_codec_patterns)
  ∧ NoDup (labels audio_codec_patterns) ∧ NoDup (labels language_patterns)
  ∧ NoDup (labels source_patterns).
Proof. split_and!; by apply (bool_decide_unpack _); vm_compute. Qed.

Lemma pick_label items text l : pick items text = Some l → l ∈ labels items.
Proof.
  induction items as [|[name pattern] items IH]; simpl; [done|].
  destruct (hit true pattern text).
  - intros [= ->]. left.
  - intros H. right. by apply IH.
Qed.

End loops.

Section extractors.

Lemma extract_year_scan f :
  _extract_year f = Ok (Re.group0 <$> Re.scan false year_regex 0 None (chars f)).
Proof.
  unfold _extract_year. by rewrite (search_compiled _ _ _ _ year_compiles).
Qed.

(** The year is the leftmost four-digit run 19xx/20xx that stands as a
    word of its own. *)
Lemma extract_year_leftmost f :
  ∃ o, _extract_year f = Ok o ∧ leftmost (year_word f) o.
Proof.
  rewrite extract_year_scan. eexists. split; [done|].
  destruct (Re.scan _ _ _ _ _) as [m|] eqn:Hs; simpl.
  - apply scan_Some in Hs as (pre & w & post & cs & Heq & Hd & -> & Hleft).
    rewrite last_or_None in Hd. apply den_year in Hd as (Hy & Hp & Hq & _).
    exists pre, post. unfold Re.group0. simpl. rewrite chars_str. split.
    + by repeat split.
    + intros pre' y' post' [[Heq' Hy'] [Hp' Hq']]. apply (Hleft pre' y' post' [(1%nat, take 2 y')]); [done|].
      rewrite last_or_None. apply den_year. done.
  - intros pre y post [[Heq Hy] [Hp Hq]].
    rewrite scan_None in Hs. apply (Hs pre y post [(1%nat, take 2 y)] Heq).
    rewrite last_or_None. apply den_year. done.
Qed.

Lemma number_not_sign c s : number (c :: s) → Ascii.eqb c "+" || Ascii.eqb c "-" = false.
Proof.
  intros [_ Hf]. inversion Hf as [|? ? Hc _]; subst.
  apply orb_false_iff. split; apply Ascii.eqb_neq; intros ->; done.
Qed.

Lemma zfill_number a : number (chars a) → zfill 2 a = pad2 a.
Proof.
  intros Ha. unfold zfill, pad2. destruct a as [|c a]; [by destruct Ha|].
  by rewrite (number_not_sign c (chars a)).
Qed.

Lemma family_ends_in_number fam : ends_in_number (family_regex fam) = true.
Proof. by destruct fam. Qed.

Lemma occurrence_den fam t pre a b post :
  occurrence fam t pre a b post →
  ∃ w, chars t = pre ++ w ++ post
       ∧ den false (family_regex fam) (last_or None pre) w post []
           [(2%nat, chars b); (1%nat, chars a)].
Proof.
  intros (Ha & Hb & w & Heq & Hw). exists w. split; [done|].
  apply den_family. eauto 10.
Qed.

(** One turn of the loop over [se_patterns]. *)
Lemma family_step fam f :
  (∃ a b, chosen fam (lower f) a b
          ∧ ∀ rest, se_loop (family_pattern fam :: rest) f = Ok (Some (rendered a b)))
  ∨ (¬ occurs fam (lower f)
     ∧ ∀ rest, se_loop (family_pattern fam :: rest) f = se_loop rest f).
Proof.
  pose proof (search_compiled false _ _ (lower f) (family_compiles fam)) as Hsearch.
  destruct (Re.scan false (family_regex fam) 0 None (chars (lower f))) as [m|] eqn:Hs.
  - left. apply scan_found in Hs as (pre & suf & st & l & Heq & Hrun & -> & Hleft).
    pose proof (ends_in_number_head _ _ _ _ _ (family_ends_in_number fam) Hrun) as Hend.
    apply run_head in Hrun as (w & Hsuf & Hd & Ht).
    apply den_family in Hd as (a & b & Ha & Hb & Hw & Hcs).
    exists (str a), (str b). split.
    + exists pre, (Re.m_rest st). split_and!; [|done|].
      * unfold occurrence. rewrite !chars_str, Heq, Hsuf. eauto 10.
      * intros pre' a' b' post' (w' & Heq' & Hd')%occurrence_den.
        exact (Hleft pre' w' post' _ Heq' Hd').
    + intros rest. simpl. rewrite Hsearch. simpl. unfold Re.group. simpl. rewrite Hcs. simpl.
      rewrite !zfill_number by (by rewrite chars_str). done.
  - right. split.
    + intros (pre & a & b & post & (w & Heq & Hd)%occurrence_den).
      rewrite scan_None in Hs. exact (Hs pre w post _ Heq Hd).
    + intros rest. simpl. by rewrite Hsearch.
Qed.

Lemma extract_season_episode_spec f :
  ∃ o, _extract_season_episode f = Ok o ∧ season_episode_spec f o.
Proof.
  unfold _extract_season_episode.
  change se_patterns
    with [family_pattern SxEy; family_pattern SeasonEpisode; family_pattern NxM].
  destruct (family_step SxEy f) as [(a & b & Ho & ->) | [Hno1 ->]].
  { eexists. split; [done|]. exists SxEy, a, b. split_and!; auto.
    intros fam' Hlt. destruct fam'; simpl in Hlt; lia. }
  destruct (family_step SeasonEpisode f) as [(a & b & Ho & ->) | [Hno2 ->]].
  { eexists. split; [done|]. exists SeasonEpisode, a, b. split_and!; auto.
    intros fam' Hlt. destruct fam'; simpl in Hlt; try lia. apply Hno1. }
  destruct (family_step NxM f) as [(a & b & Ho & ->) | [Hno3 ->]].
  { eexists. split; [done|]. exists NxM, a, b. split_and!; auto.
    intros fam' Hlt. destruct fam'; simpl in Hlt; try lia; [apply Hno1 | apply Hno2]. }
  eexists. split; [done|]. intros []; [apply Hno1 | apply Hno2 | apply Hno3].
Qed.

(** [analyze_filename] never raises; its value is [analysis_of]. *)
Lemma analyze_filename_returns f : analyze_filename f = Ok (analysis_of f).
Proof.
  destruct tables_compiled as (Hf & Hq & Hr & Hv & Ha & Hl & Hs).
  unfold analyze_filename, analysis_of.
  rewrite !detect_pick by done.
  rewrite !found_hit by (by apply (bool_decide_unpack _); vm_compute).
  destruct (extract_year_leftmost f) as (y & -> & _).
  destruct (extract_season_episode_spec f) as (se & -> & _). done.
Qed.

End extractors.

(* ================================================================== *)
(** * The claims *)
(* ================================================================== *)

Section classification.

Lemma details_lookup f :
  let d := format_details (analysis_of f) in
  d !! "has_subtitles" = Some (VBool (hit false "\b(sub|subs|subtitle|subtitles)\b" (lower f)))
  ∧ d !! "has_multiple_audio" = Some (VBool (hit false "\b(dual|multi|multilang)\b" (lower f)))
  ∧ d !! "is_3d" = Some (VBool (hit false "\b3d\b" (lower f)))
  ∧ d !! "is_hdr" = Some (VBool (hit false "\b(hdr|hdr10|dolby.vision)\b" (lower f)))
  ∧ d !! "year" = Some (of_opt (value None (_extract_year f)))
  ∧ d !! "season_episode" = Some (of_opt (value None (_extract_season_episode f))).
Proof.
  simpl. split_and!; by repeat (rewrite lookup_insert_ne by done); rewrite lookup_insert_eq.
Qed.

(** C1.  First-match-wins per category: for every file name and each of
    the seven categories, the field that [analyze_filename] fills holds the
    label of the earliest entry of the category's table, in declared order,
    whose pattern is found in the lower-cased file name, and nothing when no
    entry matches ([file_type] then reads "Unknown"); of two entries of a
    table whose patterns are both found, the label selected is never that of
    the later one. *)
Theorem first_match_wins_per_category (f : string) :
  ∃ a, analyze_filename f = Ok a
    ∧ (∃ o, first_match_wins format_patterns f o ∧ file_type a = default "Unknown" o)
    ∧ never_later format_patterns f (file_type a)
    ∧ Forall (λ c, first_match_wins c.1 f (c.2 a)
                   ∧ ∀ l, c.2 a = Some l → never_later c.1 f l) categories.
Proof.
  destruct tables_distinct as (Hf & Hq & Hr & Hv & Ha & Hl & Hs).
  exists (analysis_of f). split; [apply analyze_filename_returns|]. split_and!.
  - exists (pick format_patterns (lower f)). split; [apply pick_first_match|done].
  - unfold analysis_of; cbn [file_type].
    destruct (pick format_patterns (lower f)) as [l|] eqn:Hp; cbn [default].
    + by apply pick_never_later.
    + intros i j e1 e2 Hi Hj Hlt Hhit _.
      pose proof (pick_first_match format_patterns f) as Hnone. rewrite Hp in Hnone.
      destruct e1 as [l1 p1]. simpl in Hhit. rewrite (Hnone l1 p1) in Hhit; [done|].
      by eapply list_elem_of_lookup_2.
  - each_entry;
      (split; [apply pick_first_match|]); intros l;
      unfold analysis_of; cbn [fst snd quality resolution codec audio_codec language source];
      by apply pick_never_later.
Qed.

(** C2.  Totality and label validity: on every string, the empty one
    included, [analyze_filename] returns (it raises nothing) a record for the
    given file name whose [file_type] is "Unknown" or a label of the format
    table, whose six other category fields are each empty or a label of
    their table, and whose details hold all six keys. *)
Theorem analyze_filename_total_and_valid (f : string) :
  ∃ a, analyze_filename f = Ok a
    ∧ filename a = f
    ∧ (file_type a = "Unknown" ∨ file_type a ∈ labels format_patterns)
    ∧ Forall (λ c, c.2 a = None ∨ ∃ l, c.2 a = Some l ∧ l ∈ labels c.1) categories
    ∧ Forall (λ key, is_Some (format_details a !! key)) detail_keys.
Proof.
  exists (analysis_of f). split; [apply analyze_filename_returns|].
  split; [done|]. split_and!.
  - unfold analysis_of; cbn [file_type].
    destruct (pick format_patterns (lower f)) as [l|] eqn:Hp; [|by left].
    right. apply pick_label in Hp. exact Hp.
  - each_entry; unfold analysis_of;
      cbn [fst snd quality resolution codec audio_codec language source];
      match goal with
      | |- pick ?t ?x = None ∨ _ =>
          destruct (pick t x) as [l|] eqn:Hp; [right; exists l; split; [done|]|by left]
      end; apply pick_label in Hp; exact Hp.
  - destruct (details_lookup f) as (H1 & H2 & H3 & H4 & H5 & H6).
    each_entry; eauto.
Qed.

Lemma cam_covers_camrip :
  ∃ r1 r2 r3 k,
    Re.compile "\b(cam|camrip|cam-rip)\b" = Some (Re.Cat Re.Bnd (Re.Cat (Re.Grp 1 (Re.Alt r1 (Re.Alt r2 r3))) k))
    ∧ Re.compile "\b(camrip|cam-rip)\b" = Some (Re.Cat Re.Bnd (Re.Cat (Re.Grp 1 (Re.Alt r2 r3)) k)).
Proof. do 4 eexists. split; vm_compute; reflexivity. Qed.

(** Every text in which the "CAMRip" pattern is found is one in which the
    "CAM" pattern is found. *)
Lemma hit_camrip_cam text :
  hit true "\b(camrip|cam-rip)\b" text = true → hit true "\b(cam|camrip|cam-rip)\b" text = true.
Proof.
  destruct cam_covers_camrip as (r1 & r2 & r3 & k & Hc1 & Hc2).
  rewrite (hit_true _ _ _ _ Hc1), (hit_true _ _ _ _ Hc2).
  intros (pre & w & post & cs & Heq & Hd). exists pre, w, post, cs. split; [done|].
  rewrite den_word in *. destruct Hd as (Hb & w1 & w2 & cs1 & -> & Hd & Hk).
  split; [done|]. exists w1, w2, cs1. split_and!; auto. rewrite den_Alt. by right.
Qed.

(** C9.  Dead quality rule: on no input does [analyze_filename] select
    the quality "CAMRip"; the earlier "CAM" pattern is found wherever the
    "CAMRip" pattern is, and the scan stops there. *)
Theorem camrip_never_selected (f : string) :
  ∃ a, analyze_filename f = Ok a ∧ quality a ≠ Some "CAMRip"
    ∧ (hit true "\b(camrip|cam-rip)\b" (lower f) = true → quality a = Some "CAM").
Proof.
  exists (analysis_of f). split; [apply analyze_filename_returns|].
  pose proof (hit_camrip_cam (lower f)) as Hcov.
  unfold analysis_of; cbn [quality].
  change quality_patterns
    with (("CAM", "\b(cam|camrip|cam-rip)\b") :: ("CAMRip", "\b(camrip|cam-rip)\b")
            :: drop 2 quality_patterns).
  rewrite !pick_cons.
  destruct (hit true "\b(cam|camrip|cam-rip)\b" (lower f)) eqn:H1; [by split|].
  destruct (hit true "\b(camrip|cam-rip)\b" (lower f)) eqn:H2; [by specialize (Hcov eq_refl)|].
  split; [|done]. intros Hp%pick_label.
  assert (bool_decide ("CAMRip" ∈ labels (drop 2 quality_patterns)) = false) as Hn
    by (by vm_compute).
  by apply bool_decide_eq_false in Hn.
Qed.

End classification.

Section details.

(** C3, as amended.  The year is the leftmost four-character text "19xx"
    or "20xx" (x a decimal digit) of the original file name that stands as a
    word of its own: not preceded and not followed by a letter, a digit or an
    underscore; it is [None] when there is no such text.  Leftmost means by
    position, not by magnitude, and no range is checked beyond the prefix. *)
Theorem year_is_leftmost_word (f : string) : year_is year_word f.
Proof.
  destruct (extract_year_leftmost f) as (o & Ho & Hleft).
  exists o. split_and!; auto. exists (analysis_of f).
  split; [apply analyze_filename_returns|].
  destruct (details_lookup f) as (_ & _ & _ & _ & -> & _). by rewrite Ho.
Qed.

(** C3, as stated, fails: "Movie2023" holds the four-digit run "2023",
    which starts with "20", and yet no year is returned, the run being glued
    to the word before it. *)
Lemma year_anywhere_fails : ¬ year_is year_run "Movie2023".
Proof.
  intros (o & Ho & Hleft & _).
  assert (o = None) as -> by (vm_compute in Ho; congruence).
  apply (Hleft (chars "Movie") (chars "2023") []). split; [done|].
  exists (chars "20"), "2"%char, "3"%char. auto.
Qed.

(** Priority of the three families: S<num>E<num>, "season <num> episode
    <num>" and <num>x<num> are tried in this order on the lower-cased file
    name; the value is the rendering S<NN>E<NN> of an occurrence of the first
    family that occurs at all (an S..E.. occurrence wins over an <num>x<num>
    one elsewhere), and [None] when none occurs.  In the second family the
    separators are read as the pattern reads them, any one character; which
    digits are then taken for the numbers is settled below. *)
Lemma season_episode_priority (f : string) :
  ∃ o, _extract_season_episode f = Ok o ∧ season_episode_spec f o
    ∧ ∃ a, analyze_filename f = Ok a
        ∧ format_details a !! "season_episode" = Some (of_opt o).
Proof.
  destruct (extract_season_episode_spec f) as (o & Ho & Hspec).
  exists o. split_and!; auto. exists (analysis_of f).
  split; [apply analyze_filename_returns|].
  destruct (details_lookup f) as (_ & _ & _ & _ & _ & ->). by rewrite Ho.
Qed.

Lemma hit_hdr text :
  hit false "\b(hdr|hdr10|dolby.vision)\b" text = true ↔ contains_word text hdr_text.
Proof.
  rewrite (hit_true _ _ _ _ hdr_compiles). unfold occurs_at, contains_word. split.
  - intros (pre & w & post & cs & Heq & (Hw & Hp & Hq & _)%den_hdr).
    exists pre, w, post. by repeat split.
  - intros (pre & w & post & Heq & Hw & Hp & Hq).
    exists pre, w, post, [(1%nat, w)]. split; [done|]. by apply den_hdr.
Qed.

(** What the code does for the HDR flag: the [is_hdr] detail is true
    exactly when the lower-cased file name contains, as a word of its own,
    "hdr", "hdr10", or "dolby" and "vision" joined by any one character other
    than a newline; the unescaped dot of the pattern is a wildcard. *)
Lemma is_hdr_wildcard (f : string) : hdr_flag_is hdr_text f.
Proof.
  exists (analysis_of f), (hit false "\b(hdr|hdr10|dolby.vision)\b" (lower f)).
  split; [apply analyze_filename_returns|].
  destruct (details_lookup f) as (_ & _ & _ & -> & _). split; [done|]. apply hit_hdr.
Qed.

Lemma no_literal_hdr_word : ¬ contains_word (lower "Movie Dolby Vision") hdr_text_literal.
Proof.
  intros (pre & w & post & Heq & Hw & _).
  assert (bool_decide ("h"%char ∈ chars (lower "Movie Dolby Vision")) = false) as Hh
    by (by vm_compute).
  assert (bool_decide ("."%char ∈ chars (lower "Movie Dolby Vision")) = false) as Hdot
    by (by vm_compute).
  apply bool_decide_eq_false in Hh, Hdot.
  assert (∀ c, c ∈ w → c ∈ chars (lower "Movie Dolby Vision")) as Hin.
  { intros c Hc. rewrite Heq, !elem_of_app. auto. }
  destruct Hw as [-> | [-> | ->]].
  - apply Hh, Hin. left.
  - apply Hh, Hin. left.
  - apply Hdot, Hin. do 5 right. left.
Qed.

(** C5.  The claim asks for a literal dot between "dolby" and "vision";
    the pattern of the code leaves the dot unescaped.  On
    "Movie Dolby Vision", which contains none of the words "hdr", "hdr10" and
    "dolby.vision", the code sets [is_hdr]. *)
Theorem is_hdr_on_dolby_space :
  ∃ a, analyze_filename "Movie Dolby Vision" = Ok a
    ∧ format_details a !! "is_hdr" = Some (VBool true)
    ∧ ¬ contains_word (lower "Movie Dolby Vision") hdr_text_literal.
Proof.
  exists (analysis_of "Movie Dolby Vision").
  split; [apply analyze_filename_returns|]. split; [|apply no_literal_hdr_word].
  destruct (details_lookup "Movie Dolby Vision") as (_ & _ & _ & -> & _).
  by vm_compute.
Qed.

(** In the second family the optional separator is any character, a
    digit included: of "Season10Episode5" the season read is "0". *)
Lemma season_separator_takes_digit :
  _extract_season_episode "Season10Episode5" = Ok (Some "S00E05")
  ∧ _extract_season_episode "Season 10 Episode 5" = Ok (Some "S10E05").
Proof. by vm_compute. Qed.

(** C4.  The claim asks for the season and episode numbers of the
    name, each padded to two digits.  The lower-cased name of
    "Show.Season10Episode5.mkv" reads "season", the number 10, "episode", the
    number 5, and the first family does not occur in it; the rendering of 10
    and 5 is "S10E05".  The code returns "S00E05", and stores it under
    "season_episode": the optional separator [.?] that the second pattern
    puts before each number is tried first and takes the digit 1 for a
    separator, so that the season is read as 0. *)
Theorem season_number_misread :
  _extract_season_episode "Show.Season10Episode5.mkv" = Ok (Some "S00E05")
  ∧ lower "Show.Season10Episode5.mkv"
    = "show." +:+ "season" +:+ "10" +:+ "episode" +:+ "5" +:+ ".mkv"
  ∧ ¬ occurs SxEy (lower "Show.Season10Episode5.mkv")
  ∧ rendered "10" "5" = "S10E05"
  ∧ ∃ a, analyze_filename "Show.Season10Episode5.mkv" = Ok a
      ∧ format_details a !! "season_episode" = Some (VStr "S00E05").
Proof.
  split; [by vm_compute|]. split; [by vm_compute|]. split; [|split; [by vm_compute|]].
  - destruct (family_step SxEy "Show.Season10Episode5.mkv") as [(a & b & _ & H) | [Hno _]];
      [|done].
    specialize (H []). by vm_compute in H.
  - exists (analysis_of "Show.Season10Episode5.mkv").
    split; [apply analyze_filename_returns|].
    destruct (details_lookup "Show.Season10Episode5.mkv") as (_ & _ & _ & _ & _ & ->).
    by vm_compute.
Qed.

End details.

Section suffix.
Import Re.
Implicit Types (r k : regex) (w s post : list ascii) (prev : option ascii)
  (cs : list (nat * list ascii)).

Lemma lower_char_dot x : lower_char x = "."%char → x = "."%char.
Proof.
  destruct x as [[] [] [] [] [] [] [] []]; vm_compute; intros H; congruence.
Qed.

Lemma elem_of_lower_dot (x : string) : "."%char ∈ chars x → "."%char ∈ chars (lower x).
Proof.
  rewrite chars_lower. intros H. apply list_elem_of_fmap. by exists "."%char.
Qed.

Lemma plain_no_dot r prev w post cs cs' :
  plain r = true → den true r prev w post cs cs' → "."%char ∉ w.
Proof.
  revert prev w post cs cs'.
  induction r as [| c | | | r1 IH1 r2 IH2 | r1 IH1 r2 IH2 | r1 IH1 | c | i r1 IH1 | r1 IH1];
    intros prev w post cs cs' Hp Hd; simpl in *; try done.
  - destruct Hd as [-> _]. by apply not_elem_of_nil.
  - destruct c as [c| |]; try done. destruct Hd as [(x & -> & Hx) _].
    apply Ascii.eqb_eq in Hx. apply negb_true_iff, Ascii.eqb_neq in Hp.
    intros Hin%list_elem_of_singleton. subst x. apply Hp. by rewrite Hx.
  - destruct Hd as [-> _]. by apply not_elem_of_nil.
  - apply andb_true_iff in Hp as [Hp1 Hp2].
    destruct Hd as (w1 & w2 & cs1 & -> & Hd1 & Hd2).
    apply not_elem_of_app. split; [by eapply IH1|by eapply IH2].
  - apply andb_true_iff in Hp as [Hp1 Hp2].
    destruct Hd as [Hd | Hd]; [by eapply IH1|by eapply IH2].
  - destruct Hd as (cs1 & Hd & _). by eapply IH1.
Qed.

Lemma plain_any_prev r prev prev' w post cs cs' :
  plain r = true → den true r prev w post cs cs' → den true r prev' w post cs cs'.
Proof.
  revert prev prev' w post cs cs'.
  induction r as [| c | | | r1 IH1 r2 IH2 | r1 IH1 r2 IH2 | r1 IH1 | c | i r1 IH1 | r1 IH1];
    intros prev prev' w post cs cs' Hp Hd; simpl in *; try done.
  - apply andb_true_iff in Hp as [Hp1 Hp2].
    destruct Hd as (w1 & w2 & cs1 & -> & Hd1 & Hd2).
    exists w1, w2, cs1. split_and!; eauto.
  - apply andb_true_iff in Hp as [Hp1 Hp2].
    destruct Hd as [Hd | Hd]; [left | right]; eauto.
  - destruct Hd as (cs1 & Hd & ->). eauto.
Qed.

Lemma to_end_no_dot r prev w post cs cs' :
  to_end r = true → den true r prev w post cs cs' → "."%char ∉ post.
Proof.
  revert prev w post cs cs'.
  induction r as [| c | | | r1 IH1 r2 IH2 | r1 IH1 r2 IH2 | r1 IH1 | c | i r1 IH1 | r1 IH1];
    intros prev w post cs cs' Hp Hd; simpl in *; try done.
  - destruct Hd as (_ & [-> | ->] & _); [by apply not_elem_of_nil|].
    by intros [=]%list_elem_of_singleton.
  - destruct Hd as (w1 & w2 & cs1 & -> & Hd1 & Hd2).
    apply orb_true_iff in Hp as [Hp | Hp]; [|by eapply IH2].
    eapply IH1 in Hd1; [|done]. by apply not_elem_of_app in Hd1 as [_ ?].
  - apply andb_true_iff in Hp as [Hp1 Hp2].
    destruct Hd as [Hd | Hd]; [by eapply IH1|by eapply IH2].
  - destruct Hd as (cs1 & Hd & _). by eapply IH1.
Qed.

(** A match of an extension pattern is a dot followed by dot-free text
    up to the end of the subject; it does not depend on what precedes. *)
Lemma extension_den r prev w post cs cs' :
  extension_shape r = true → den true r prev w post cs cs' →
  (∃ w', w = "."%char :: w' ∧ "."%char ∉ w' ++ post)
  ∧ ∀ prev', den true r prev' w post cs cs'.
Proof.
  destruct r as [| | | | [| [c | |] | | | | | | | |] k | | | | |]; try done.
  unfold extension_shape.
  intros [[->%Ascii.eqb_eq Hp]%andb_true_iff He]%andb_true_iff Hd.
  rewrite den_Cat_Chr in Hd. destruct Hd as (x & w2 & -> & Hx & Hk).
  unfold cset_match in Hx. apply Ascii.eqb_eq in Hx. symmetry in Hx.
  change (lower_char ".") with "."%char in Hx. apply lower_char_dot in Hx as ->.
  split.
  - exists w2. split; [done|].
    apply not_elem_of_app. split; [by eapply plain_no_dot|by eapply to_end_no_dot].
  - intros prev'. apply den_Cat_Chr. exists "."%char, w2. split_and!; auto.
Qed.

(** Whether an extension pattern is found depends only on the text from
    the last dot on. *)
Lemma hit_suffix pattern r (p x : string) :
  compile pattern = Some r → extension_shape r = true → "."%char ∈ chars x →
  hit true pattern (p +:+ x) = hit true pattern x.
Proof.
  intros Hc Hs Hdot.
  destruct (hit true pattern x) eqn:Hx.
  - apply (hit_true _ _ _ _ Hc) in Hx as (pre & w & post & cs & Heq & Hd).
    apply (hit_true _ _ _ _ Hc). exists (chars p ++ pre), w, post, cs. split.
    + by rewrite chars_app, Heq, app_assoc.
    + by apply (extension_den _ _ _ _ _ _ Hs Hd).
  - pose proof (proj1 (hit_false _ _ _ _ Hc) Hx) as Hno'. clear Hx. rename Hno' into Hx.
    apply (hit_false _ _ _ _ Hc). intros pre w post cs [Heq Hd].
    destruct (extension_den _ _ _ _ _ _ Hs Hd) as [(w' & -> & Hno) Hany].
    apply list_elem_of_split_r in Hdot as (x1 & x2 & Hx12 & Hx2).
    rewrite chars_app, Hx12, app_assoc in Heq. simpl in Heq.
    apply not_elem_of_app_cons_inv_r in Heq as (Hpre & _ & ->); [|done..].
    apply (Hx x1 ("."%char :: w') post cs). split; [by rewrite Hx12|]. apply Hany.
Qed.

Lemma format_patterns_extension : extension_table format_patterns = true.
Proof. by vm_compute. Qed.

Lemma pick_suffix items (p x : string) :
  extension_table items = true → "."%char ∈ chars x →
  pick items (p +:+ x) = pick items x.
Proof.
  intros Ht Hdot. induction items as [|[name pattern] items IH]; [done|].
  simpl in Ht. apply andb_true_iff in Ht as [Hr Ht].
  destruct (compile pattern) as [r|] eqn:Hc; [|done].
  rewrite !pick_cons, (hit_suffix _ _ _ _ Hc Hr Hdot), IH; done.
Qed.

(** Without a dot nothing is found. *)
Lemma pick_no_dot items (f : string) :
  extension_table items = true → "."%char ∉ chars f → pick items f = None.
Proof.
  intros Ht Hdot. induction items as [|[name pattern] items IH]; [done|].
  simpl in Ht. apply andb_true_iff in Ht as [Hr Ht].
  destruct (compile pattern) as [r|] eqn:Hc; [|done].
  rewrite pick_cons, IH by done.
  destruct (hit true pattern f) eqn:Hx; [|done].
  rewrite (hit_true _ _ _ _ Hc) in Hx. destruct Hx as (pre & w & post & cs & Heq & Hd).
  destruct (extension_den _ _ _ _ _ _ Hr Hd) as [(w' & -> & _) _].
  destruct Hdot. rewrite Heq, elem_of_app. right. left.
Qed.

(** C6.  The format depends only on the suffix: two file names that end
    in the same text from a dot on get the same [file_type], whatever stands
    before it, and a name without a dot gets "Unknown"; whereas the other
    categories answer to evidence anywhere in the name. *)
Theorem format_depends_only_on_suffix :
  (∀ p1 p2 x : string, "."%char ∈ chars x →
     ∃ a1 a2, analyze_filename (p1 +:+ x) = Ok a1 ∧ analyze_filename (p2 +:+ x) = Ok a2
       ∧ file_type a1 = file_type a2)
  ∧ (∀ f : string, "."%char ∉ chars f →
       ∃ a, analyze_filename f = Ok a ∧ file_type a = "Unknown")
  ∧ (∃ (p1 p2 x : string) a1 a2, "."%char ∈ chars x
       ∧ analyze_filename (p1 +:+ x) = Ok a1 ∧ analyze_filename (p2 +:+ x) = Ok a2
       ∧ quality a1 ≠ quality a2 ∧ resolution a1 ≠ resolution a2 ∧ codec a1 ≠ codec a2
       ∧ audio_codec a1 ≠ audio_codec a2 ∧ language a1 ≠ language a2
       ∧ source a1 ≠ source a2).
Proof.
  split_and!.
  - intros p1 p2 x Hdot. exists (analysis_of (p1 +:+ x)), (analysis_of (p2 +:+ x)).
    split_and!; [apply analyze_filename_returns..|].
    unfold analysis_of; cbn [file_type]. rewrite !lower_app.
    rewrite !(pick_suffix _ _ (lower x)); auto using format_patterns_extension, elem_of_lower_dot.
  - intros f Hdot. exists (analysis_of f). split; [apply analyze_filename_returns|].
    unfold analysis_of; cbn [file_type]. rewrite pick_no_dot; [done|apply format_patterns_extension|].
    rewrite chars_lower. intros (c & Hc & Hin)%list_elem_of_fmap.
    symmetry in Hc. apply lower_char_dot in Hc as ->. by destruct Hdot.
  - exists "A.1080p.BluRay.x264.AAC.eng.NF", "B.720p.WEB-DL.x265.DTS.hin.AMZN", ".mkv".
    do 2 eexists. split; [simpl; left|].
    rewrite !analyze_filename_returns. split_and!; [done..| | | | | |]; by vm_compute.
Qed.

End suffix.

Section rendering.

Lemma round_half_even_spec a b :
  0 < b →
  let t := round_half_even a b in
  2 * Z.abs (a - t * b) ≤ b ∧ (2 * Z.abs (a - t * b) = b → Z.even t = true).
Proof.
  intros Hb. unfold round_half_even.
  pose proof (Z.div_mod a b ltac:(lia)) as Hdm.
  pose proof (Z.mod_pos_bound a b Hb) as Hm.
  destruct (Z.ltb_spec (2 * (a mod b)) b); [split; [lia|intros; lia]|].
  destruct (Z.ltb_spec b (2 * (a mod b))); [split; [lia|intros; lia]|].
  destruct (Z.even (a / b)) eqn:He; simpl.
  - split; [lia|done].
  - split; [lia|]. intros _. rewrite Z.even_add, He. done.
Qed.

Lemma float_of_int_exact n : Z.abs n < 2 ^ 53 → float_of_int n = Ok (Float n 0).
Proof. intros H. unfold float_of_int. by destruct (Z.ltb_spec (Z.abs n) (2 ^ 53)); [|lia]. Qed.

Lemma format_1f_pos n e :
  0 < n → 0 ≤ e →
  ∃ t, format_1f (Float n e) = one_decimal t
       ∧ 2 * Z.abs (10 * n - t * 2 ^ e) ≤ 2 ^ e
       ∧ (2 * Z.abs (10 * n - t * 2 ^ e) = 2 ^ e → Z.even t = true).
Proof.
  intros Hn He. exists (round_half_even (10 * n) (2 ^ e)).
  unfold format_1f. simpl. rewrite Z.abs_eq by lia.
  destruct (Z.ltb_spec n 0); [lia|]. split; [done|].
  apply round_half_even_spec. by apply Z.pow_pos_nonneg.
Qed.

(** C7.  File-size rendering: an unknown size reads "Unknown"; 1536
    bytes read "1.5 KB"; and a byte count (below 2^53, where the float
    arithmetic is exact) is divided by 1024 until it is below 1024 or the unit
    PB is reached, and printed with one decimal place, rounded to nearest,
    followed by the unit among B, KB, MB, GB, TB, PB. *)
Theorem format_file_size_scaling :
  format_file_size None = Ok "Unknown"
  ∧ format_file_size (Some 1536) = Ok "1.5 KB"
  ∧ ∀ n, 0 < n < 2 ^ 53 →
      ∃ k unit t, scaled n k ∧ units !! k = Some unit ∧ nearest_tenth n k t
        ∧ format_file_size (Some n) = Ok (one_decimal t +:+ " " +:+ unit).
Proof.
  split; [done|]. split; [by vm_compute|].
  intros n [Hpos Hlt]. unfold format_file_size.
  destruct (Z.eqb_spec n 0); [lia|].
  unfold scaled, nearest_tenth.
  cbn [size_loop num_lt1024]. destruct (Z.ltb_spec n 1024) as [H0|H0].
  { cbn [num_format_1f]. rewrite float_of_int_exact by lia. cbn [bind].
    destruct (format_1f_pos n 0 Hpos ltac:(lia)) as (t & -> & Ht).
    exists 0%nat, "B", t. split_and!; auto; try apply Ht; try (right; simpl in *; lia); lia. }
  cbn [num_div1024]. rewrite float_of_int_exact by lia. cbn [bind fdiv1024 f_num f_exp2].
  cbn [size_loop num_lt1024 num_format_1f num_div1024 bind].
  unfold fdiv1024, flt1024; cbn [f_num f_exp2].
  destruct (Z.ltb_spec n (1024 * 2 ^ (0 + 10))) as [H1|H1].
  { destruct (format_1f_pos n (0 + 10) Hpos ltac:(lia)) as (t & -> & Ht).
    exists 1%nat, "KB", t. split_and!; auto; try apply Ht; try (right; simpl in *; lia); lia. }
  destruct (Z.ltb_spec n (1024 * 2 ^ (0 + 10 + 10))) as [H2|H2].
  { destruct (format_1f_pos n (0 + 10 + 10) Hpos ltac:(lia)) as (t & -> & Ht).
    exists 2%nat, "MB", t. split_and!; auto; try apply Ht; try (right; simpl in *; lia); lia. }
  destruct (Z.ltb_spec n (1024 * 2 ^ (0 + 10 + 10 + 10))) as [H3|H3].
  { destruct (format_1f_pos n (0 + 10 + 10 + 10) Hpos ltac:(lia)) as (t & -> & Ht).
    exists 3%nat, "GB", t. split_and!; auto; try apply Ht; try (right; simpl in *; lia); lia. }
  destruct (Z.ltb_spec n (1024 * 2 ^ (0 + 10 + 10 + 10 + 10))) as [H4|H4].
  { destruct (format_1f_pos n (0 + 10 + 10 + 10 + 10) Hpos ltac:(lia)) as (t & -> & Ht).
    exists 4%nat, "TB", t. split_and!; auto; try apply Ht; try (right; simpl in *; lia); lia. }
  destruct (format_1f_pos n (0 + 10 + 10 + 10 + 10 + 10) Hpos ltac:(lia)) as (t & -> & Ht).
  exists 5%nat, "PB", t. split_and!; auto; try apply Ht; try (right; simpl in *; lia); lia.
Qed.

(** C10.  A size of exactly 0 bytes is rendered "Unknown", as an absent
    size is, and not "0.0 B". *)
Theorem zero_size_is_unknown :
  format_file_size (Some 0) = Ok "Unknown"
  ∧ format_file_size (Some 0) = format_file_size None
  ∧ format_file_size (Some 0) ≠ Ok "0.0 B".
Proof. by split_and!. Qed.

End rendering.

Section response.

Lemma append_assoc (a b c : string) : (a +:+ b) +:+ c = a +:+ (b +:+ c).
Proof. apply chars_inj. by rewrite !chars_app, app_assoc. Qed.

Lemma append_nil_r (a : string) : a +:+ "" = a.
Proof. apply chars_inj. by rewrite chars_app, app_nil_r. Qed.

Lemma if_append (c : bool) (r x : string) :
  (if c then r +:+ x else r) = r +:+ (if c then x else "").
Proof. destruct c; [done|]. by rewrite append_nil_r. Qed.

(** C8.  Rendering with absent file metadata: for every analysis
    result, [format_analysis_response] without a file (None, the default of
    the parameter) raises nothing, and its text is the text rendered with a
    file from which the file-size and MIME-type lines are left out: the same
    header before them and the same body after them. *)
Theorem render_without_file_info (a : AnalysisResult) :
  ∃ body,
    format_analysis_response a None = Ok (response_head a +:+ body)
    ∧ ∀ fi, format_analysis_response a (Some fi)
        = (let* size := format_file_size (file_size fi) in
           Ok (response_head a +:+ file_lines size fi +:+ body)).
Proof.
  unfold format_analysis_response. cbv zeta.
  remember (response_head a) as h eqn:Hh. unfold response_head in Hh. rewrite <- !Hh.
  clear Hh. destruct (bool_decide (format_details a ≠ ∅)).
  - eexists. split.
    + cbn [bind]. rewrite !if_append, !append_assoc. reflexivity.
    + intros fi. destruct (format_file_size (file_size fi)) as [size|e]; [|done].
      cbn [bind]. unfold file_lines.
      rewrite !if_append, !append_assoc. reflexivity.
  - eexists. split.
    + cbn [bind]. rewrite !if_append, !append_assoc. reflexivity.
    + intros fi. destruct (format_file_size (file_size fi)) as [size|e]; [|done].
      cbn [bind]. unfold file_lines.
      rewrite !if_append, !append_assoc. reflexivity.
Qed.

End response.

Section witnesses.

(** Two names that end in ".mkv". *)
Lemma format_depends_only_on_suffix_witness :
  "."%char ∈ chars ".mkv"
  ∧ ∃ a1 a2, analyze_filename ("Movie.2023.1080p" +:+ ".mkv") = Ok a1
      ∧ analyze_filename ("Show.S02E05" +:+ ".mkv") = Ok a2
      ∧ file_type a1 = file_type a2.
Proof.
  split; [simpl; left|].
  apply (proj1 format_depends_only_on_suffix "Movie.2023.1080p" "Show.S02E05" ".mkv").
  simpl; left.
Defined.

(** The scaling at 1536 bytes. *)
Lemma format_file_size_scaling_witness :
  0 < 1536 < 2 ^ 53
  ∧ ∃ k unit t, scaled 1536 k ∧ units !! k = Some unit ∧ nearest_tenth 1536 k t
      ∧ format_file_size (Some 1536) = Ok (one_decimal t +:+ " " +:+ unit).
Proof.
  split; [lia|].
  apply (proj2 (proj2 format_file_size_scaling) 1536). lia.
Defined.

End witnesses.

(* ================================================================== *)
(** * The scenarios of the specification *)
(* ================================================================== *)

Section scenarios.

Lemma scenario_movie :
  ∃ a, analyze_filename "Movie.2023.1080p.BluRay.x264.mkv" = Ok a
    ∧ file_type a = "MKV" ∧ quality a = Some "BluRay" ∧ resolution a = Some "1080p"
    ∧ codec a = Some "H.264"
    ∧ format_details a !! "year" = Some (VStr "2023")
    ∧ format_details a !! "season_episode" = Some VNone.
Proof. eexists. split; [apply analyze_filename_returns|]. by vm_compute. Qed.

Lemma scenario_episode :
  ∃ a, analyze_filename "Show.S02E05.720p.WEB-DL.AAC.mp4" = Ok a
    ∧ file_type a = "MP4" ∧ quality a = Some "WEB-DL" ∧ resolution a = Some "720p"
    ∧ audio_codec a = Some "AAC"
    ∧ format_details a !! "season_episode" = Some (VStr "S02E05").
Proof. eexists. split; [apply analyze_filename_returns|]. by vm_compute. Qed.

Lemma scenario_nothing :
  ∃ a, analyze_filename "random_text_no_extension" = Ok a
    ∧ file_type a = "Unknown"
    ∧ Forall (λ c, c.2 a = None) categories
    ∧ (λ key, format_details a !! key) <$> detail_keys
      = [Some (VBool false); Some (VBool false); Some (VBool false); Some (VBool false);
         Some VNone; Some VNone].
Proof.
  eexists. split; [apply analyze_filename_returns|].
  split_and!; [by vm_compute| |by vm_compute].
  each_entry; by vm_compute.
Qed.

Lemma scenario_two_years :
  ∃ a, analyze_filename "Movie.2019.2020.CAM.avi" = Ok a
    ∧ file_type a = "AVI" ∧ quality a = Some "CAM"
    ∧ format_details a !! "year" = Some (VStr "2019").
Proof. eexists. split; [apply analyze_filename_returns|]. by vm_compute. Qed.

Lemma scenario_size_line : format_file_size (Some 1536) = Ok "1.5 KB".
Proof. by vm_compute. Qed.

End scenarios.

(* ================================================================== *)
(** * Further properties of the engine *)
(* ================================================================== *)

Section characters.

Lemma lower_char_idemp c : lower_char (lower_char c) = lower_char c.
Proof. by destruct c as [[] [] [] [] [] [] [] []]; vm_compute. Qed.

Lemma is_word_lower c : is_word (lower_char c) = is_word c.
Proof. by destruct c as [[] [] [] [] [] [] [] []]; vm_compute. Qed.

Lemma is_digit_lower c : is_digit (lower_char c) = is_digit c.
Proof. by destruct c as [[] [] [] [] [] [] [] []]; vm_compute. Qed.

Lemma lower_char_digit c : is_digit c = true → lower_char c = c.
Proof. destruct c as [[] [] [] [] [] [] [] []]; vm_compute; congruence. Qed.

Lemma lower_char_digit_inv c : is_digit (lower_char c) = true → lower_char c = c.
Proof. rewrite is_digit_lower. apply lower_char_digit. Qed.

Lemma lower_char_newline c : lower_char c = "010"%char ↔ c = "010"%char.
Proof.
  split; [|by intros ->].
  destruct c as [[] [] [] [] [] [] [] []]; vm_compute; congruence.
Qed.

Lemma lower_idemp (s : string) : lower (lower s) = lower s.
Proof. induction s as [|c s IH]; simpl; [done|]. by rewrite lower_char_idemp, IH. Qed.

Lemma chars_lower_fixed (s : string) : Forall (λ x, lower_char x = x) (chars (lower s)).
Proof.
  induction s as [|c s IH]; simpl; constructor; [apply lower_char_idemp|done].
Qed.

End characters.

Section ignorecase.
Import Re.
Implicit Types (r : regex) (w post : list ascii) (prev : option ascii)
  (cs : list (nat * list ascii)).

Lemma cset_match_lowered ic c x :
  lowercase_pattern (Chr c) = true → lower_char x = x →
  cset_match ic c x = cset_match false c x.
Proof.
  destruct ic; [|done]. destruct c as [a| |]; simpl; [|done..].
  intros Ha%bool_decide_eq_true ->. by rewrite Ha.
Qed.

(** On a text in lower case a pattern in lower case matches the same with
    and without IGNORECASE. *)
Lemma den_ignorecase r prev w post cs cs' :
  lowercase_pattern r = true → Forall (λ x, lower_char x = x) (w ++ post) →
  den true r prev w post cs cs' ↔ den false r prev w post cs cs'.
Proof.
  revert prev w post cs cs'.
  induction r as [| c | | | r1 IH1 r2 IH2 | r1 IH1 r2 IH2 | r1 IH1 | c | i r1 IH1 | r1 IH1];
    intros prev w post cs cs' Hr Hlow; cbn [den]; try done.
  - (* Chr *)
    split; intros [(x & -> & Hx) ->]; (split; [|done]); exists x; (split; [done|]);
      inversion Hlow as [|? ? Hfx _]; subst;
      by rewrite cset_match_lowered in * by done.
  - (* Cat *)
    simpl in Hr. apply andb_true_iff in Hr as [Hr1 Hr2].
    split; intros (w1 & w2 & cs1 & -> & H1 & H2); exists w1, w2, cs1;
      (split; [done|]); rewrite <- app_assoc in Hlow;
      pose proof Hlow as Hlow2; apply Forall_app in Hlow2 as [_ Hlow2];
      (split; [by apply (IH1 _ _ _ _ _ Hr1 Hlow)|by apply (IH2 _ _ _ _ _ Hr2 Hlow2)]).
  - (* Alt *)
    simpl in Hr. apply andb_true_iff in Hr as [Hr1 Hr2].
    by rewrite (IH1 _ _ _ _ _ Hr1 Hlow), (IH2 _ _ _ _ _ Hr2 Hlow).
  - (* Opt *)
    by rewrite (IH1 _ _ _ _ _ Hr Hlow).
  - (* Plus *)
    apply Forall_app in Hlow as [Hw _].
    assert (Forall (λ x, cset_match true c x = true) w
            ↔ Forall (λ x, cset_match false c x = true) w) as ->; [|done].
    rewrite !Forall_forall. split; intros H x Hx;
      specialize (H x Hx); rewrite Forall_forall in Hw; specialize (Hw x Hx);
      destruct c as [a| |]; try done;
      by rewrite (cset_match_lowered true (CLit a) x) in * by done.
  - (* Grp *)
    split; intros (cs1 & H1 & ->); exists cs1; (split; [|done]);
      by apply (IH1 _ _ _ _ _ Hr Hlow).
  - (* NotAhead *)
    split; intros (-> & -> & Hno); split_and!; auto;
      intros (w1 & post1 & cs1 & Hp & Hd); apply Hno; exists w1, post1, cs1;
      (split; [done|]); simpl in Hlow; rewrite Hp in Hlow;
      by apply (IH1 _ _ _ _ _ Hr Hlow).
Qed.

Lemma hit_ignorecase pattern r (f : string) :
  compile pattern = Some r → lowercase_pattern r = true →
  hit true pattern (lower f) = hit false pattern (lower f).
Proof.
  intros Hc Hr. apply eq_true_iff_eq.
  rewrite !(hit_true _ _ _ _ Hc). unfold occurs_at.
  pose proof (chars_lower_fixed f) as Hlow.
  split; intros (pre & w & post & cs & Heq & Hd); exists pre, w, post, cs;
    (split; [done|]); rewrite Heq in Hlow; apply Forall_app in Hlow as [_ Hlow];
    by apply (den_ignorecase _ _ _ _ _ _ Hr Hlow).
Qed.

End ignorecase.

Section word_lists.
Import Re.
Implicit Types (r k : regex) (w s post : list ascii) (prev : option ascii)
  (cs : list (nat * list ascii)) (ws : list string).

Lemma elem_of_str w ws : str w ∈ ws ↔ ∃ x, x ∈ ws ∧ w = chars x.
Proof.
  split.
  - intros H. exists (str w). by rewrite chars_str.
  - intros (x & Hx & ->). by rewrite str_chars.
Qed.

(** The alternation of literal words matches exactly these words. *)
Lemma den_one_of ws prev w post cs cs' :
  ws ≠ [] →
  den false (one_of ws) prev w post cs cs' ↔ str w ∈ ws ∧ cs' = cs.
Proof.
  intros Hne. induction ws as [|x ws IH]; [done|]. clear Hne.
  destruct ws as [|y ws].
  - cbn [one_of]. rewrite den_lits. setoid_rewrite den_Eps. rewrite elem_of_str. split.
    + intros (w2 & -> & -> & ->). rewrite app_nil_r. split; [|done].
      exists x. split; [left|done].
    + intros [(x' & ->%list_elem_of_singleton & ->) ->]. exists []. by rewrite app_nil_r.
  - change (one_of (x :: y :: ws)) with (Alt (lits (chars x) Eps) (one_of (y :: ws))).
    rewrite den_Alt, IH by done. rewrite den_lits. setoid_rewrite den_Eps.
    rewrite !elem_of_str. split.
    + intros [(w2 & -> & -> & ->) | [(x' & Hx' & ->) ->]].
      * rewrite app_nil_r. split; [|done]. exists x. split; [left|done].
      * split; [|done]. exists x'. split; [by right|done].
    + intros [(x' & [-> | Hx']%elem_of_cons & ->) ->].
      * left. exists []. by rewrite app_nil_r.
      * right. split; [|done]. exists x'. done.
Qed.

Lemma wordy_ends (x : string) :
  wordy x = true →
  chars x ≠ [] ∧ (∀ post, word_at (head (chars x ++ post)) = true)
  ∧ ∀ prev, word_at (last_or prev (chars x)) = true.
Proof.
  unfold wordy. intros [Hh Hl]%andb_true_iff.
  destruct (chars x) as [|c l] eqn:E; [done|]. split; [done|]. split; [done|].
  intros prev. by rewrite last_or_last.
Qed.

(** What [\b(w1|w2|...)\b] matches: one of the words, standing on its
    own. *)
Lemma den_words ws prev w post cs :
  ws ≠ [] → forallb wordy ws = true →
  den false (words_regex ws) prev w post [] cs ↔
  str w ∈ ws ∧ word_at prev = false ∧ word_at (head post) = false ∧ cs = [(1%nat, w)].
Proof.
  intros Hne Hws. unfold words_regex. rewrite den_word. setoid_rewrite den_Bnd_end.
  setoid_rewrite (den_one_of ws _ _ _ _ _ Hne).
  assert (∀ w, str w ∈ ws → w ≠ [] ∧ (∀ post, word_at (head (w ++ post)) = true)
                            ∧ ∀ prev, word_at (last_or prev w) = true) as Hends.
  { intros w' (x & Hx & ->)%elem_of_str. apply wordy_ends.
    rewrite forallb_forall in Hws. apply Hws. by apply list_elem_of_In. }
  split.
  - intros (Hb & w1 & w2 & cs1 & -> & [Hw ->] & -> & Hb' & ->).
    rewrite app_nil_r in *. destruct (Hends _ Hw) as (_ & Hh & Hl).
    rewrite Hh in Hb. rewrite Hl in Hb'.
    apply xorb_true_r_inv in Hb. apply xorb_true_l_inv in Hb'. done.
  - intros (Hw & Hp & Hq & ->). destruct (Hends _ Hw) as (_ & Hh & Hl).
    split; [by rewrite Hh, Hp|].
    exists w, [], []. rewrite app_nil_r. split_and!; auto. by rewrite Hl, Hq.
Qed.

(** What [\bw\b] matches. *)
Lemma den_one_word (x : string) prev w post cs :
  wordy x = true →
  den false (word_regex x) prev w post [] cs ↔
  w = chars x ∧ word_at prev = false ∧ word_at (head post) = false ∧ cs = [].
Proof.
  intros Hx. destruct (wordy_ends _ Hx) as (_ & Hh & Hl).
  unfold word_regex. rewrite den_Cat_Bnd, den_lits. setoid_rewrite den_Bnd_end. split.
  - intros (Hb & w2 & -> & -> & Hb' & ->). rewrite app_nil_r in *.
    rewrite Hh in Hb. rewrite Hl in Hb'.
    apply xorb_true_r_inv in Hb. apply xorb_true_l_inv in Hb'. done.
  - intros (-> & Hp & Hq & ->). split; [by rewrite Hh, Hp|].
    exists []. rewrite app_nil_r. split_and!; auto. by rewrite Hl, Hq.
Qed.

(** A pattern [\b(w1|w2|...)\b] is found exactly in the texts that
    contain one of the words, standing on its own. *)
Lemma hit_words pattern ws (text : string) :
  compile pattern = Some (words_regex ws) → ws ≠ [] → forallb wordy ws = true →
  hit false pattern text = true ↔ contains_one_of text ws.
Proof.
  intros Hc Hne Hws. rewrite (hit_true _ _ _ _ Hc).
  unfold occurs_at, contains_one_of, contains_word, delimited. split.
  - intros (pre & w & post & cs & Heq & (Hw & Hp & Hq & _)%den_words); [|done..].
    exists pre, w, post. done.
  - intros (pre & w & post & Heq & Hw & Hp & Hq).
    exists pre, w, post, [(1%nat, w)]. split; [done|]. by apply den_words.
Qed.

Lemma hit_one_word pattern (x : string) (text : string) :
  compile pattern = Some (word_regex x) → wordy x = true →
  hit false pattern text = true ↔ contains_one_of text [x].
Proof.
  intros Hc Hx. rewrite (hit_true _ _ _ _ Hc).
  unfold occurs_at, contains_one_of, contains_word, delimited. split.
  - intros (pre & w & post & cs & Heq & (-> & Hp & Hq & _)%den_one_word); [|done].
    exists pre, (chars x), post. rewrite str_chars. split_and!; auto. left.
  - intros (pre & w & post & Heq & (x' & ->%list_elem_of_singleton & ->)%elem_of_str & Hp & Hq).
    exists pre, (chars x), post, []. split; [done|]. by apply den_one_word.
Qed.

(** A shorter word inside a longer one: if the rest of the longer word
    starts with a character that is not a word character, the shorter word
    stands on its own wherever the longer one does. *)
Lemma contains_one_of_prefix (text x y : string) ws ws' :
  contains_one_of text ws → (∀ v, v ∈ ws → v ∈ ws' ∨ v = x +:+ y) →
  x ∈ ws' → word_at (head (chars y)) = false → y ≠ "" →
  contains_one_of text ws'.
Proof.
  intros (pre & w & post & Heq & (v & Hv & ->)%elem_of_str & Hp & Hq) Hsub Hx Hy Hne.
  destruct (Hsub v Hv) as [Hv' | ->].
  - exists pre, (chars v), post. rewrite str_chars. done.
  - exists pre, (chars x), (chars y ++ post). rewrite str_chars. split_and!; auto.
    + by rewrite Heq, chars_app, <- app_assoc.
    + destruct y as [|c y]; [done|]. done.
Qed.

End word_lists.

Section tables.

(** With distinct labels, the label selected tells which pattern was
    found. *)
Lemma pick_hit items text l pattern :
  NoDup (labels items) → (l, pattern) ∈ items → pick items text = Some l →
  hit true pattern text = true.
Proof.
  induction items as [|[name p] items IH]; [by intros _ ?%elem_of_nil|].
  unfold labels. rewrite fmap_cons, NoDup_cons. fold (labels items).
  intros [Hnot Hnd] [[= -> ->] | Hin]%elem_of_cons; rewrite pick_cons.
  - destruct (hit true p text); [done|]. intros Hp%pick_label. done.
  - destruct (hit true p text) eqn:Hh; [|by apply IH].
    intros [= ->]. destruct Hnot. apply list_elem_of_fmap. by exists (l, pattern).
Qed.

Lemma pick_first name pattern items text :
  hit true pattern text = true → pick ((name, pattern) :: items) text = Some name.
Proof. intros H. by rewrite pick_cons, H. Qed.

Lemma lowercase_tables :
  lowercase_table format_patterns = true ∧ lowercase_table quality_patterns = true
  ∧ lowercase_table resolution_patterns = true ∧ lowercase_table video_codec_patterns = true
  ∧ lowercase_table audio_codec_patterns = true ∧ lowercase_table language_patterns = true
  ∧ lowercase_table source_patterns = true.
Proof. by vm_compute. Qed.

Lemma lowercase_table_hit items l pattern (f : string) :
  lowercase_table items = true → (l, pattern) ∈ items →
  hit true pattern (lower f) = hit false pattern (lower f).
Proof.
  unfold lowercase_table. rewrite forallb_forall. intros Ht Hin.
  apply list_elem_of_In in Hin. specialize (Ht _ Hin). simpl in Ht.
  destruct (Re.compile pattern) as [r|] eqn:Hc; [|done].
  by apply (hit_ignorecase _ r).
Qed.

End tables.

Section flags.
Import Re.

Lemma flags_compile :
  compile "\b(sub|subs|subtitle|subtitles)\b"
    = Some (words_regex ["sub"; "subs"; "subtitle"; "subtitles"])
  ∧ compile "\b(dual|multi|multilang)\b" = Some (words_regex ["dual"; "multi"; "multilang"])
  ∧ compile "\b3d\b" = Some (word_regex "3d").
Proof. by vm_compute. Qed.

(** X1.  The details [has_subtitles], [has_multiple_audio] and [is_3d]
    are whole-word tests on the lower-cased file name: each is [True] exactly
    when one of the words of its pattern ("sub", "subs", "subtitle",
    "subtitles"; "dual", "multi", "multilang"; "3d") occurs with no letter,
    digit or underscore just before and just after it, and [False]
    otherwise. *)
Theorem detail_flags_are_whole_words (f : string) :
  flag_is "has_subtitles" ["sub"; "subs"; "subtitle"; "subtitles"] f
  ∧ flag_is "has_multiple_audio" ["dual"; "multi"; "multilang"] f
  ∧ flag_is "is_3d" ["3d"] f.
Proof.
  destruct flags_compile as (Hs & Hm & H3).
  destruct (details_lookup f) as (H1 & H2 & H3' & _).
  split_and!.
  - exists (analysis_of f), (hit false "\b(sub|subs|subtitle|subtitles)\b" (lower f)).
    split; [apply analyze_filename_returns|]. split; [exact H1|].
    by apply (hit_words _ _ _ Hs).
  - exists (analysis_of f), (hit false "\b(dual|multi|multilang)\b" (lower f)).
    split; [apply analyze_filename_returns|]. split; [exact H2|].
    by apply (hit_words _ _ _ Hm).
  - exists (analysis_of f), (hit false "\b3d\b" (lower f)).
    split; [apply analyze_filename_returns|]. split; [exact H3'|].
    by apply (hit_one_word _ _ _ H3).
Qed.

End flags.

Section web.
Import Re.
Implicit Types (w post : list ascii) (prev : option ascii) (cs : list (nat * list ascii)).

Lemma web_compiles :
  compile "\bweb(?!rip|dl)\b"
  = Some (Cat Bnd (lits (chars "web")
            (Cat (NotAhead (Alt (lits (chars "rip") Eps) (lits (chars "dl") Eps)))
               (Cat Bnd Eps)))).
Proof. by vm_compute. Qed.

(** After "web" the pattern asks for a word boundary, so that the text
    goes on with no word character: the look-ahead, which only rejects "rip"
    and "dl", has nothing left to reject. *)
Lemma den_web prev w post cs :
  den false (Cat Bnd (lits (chars "web")
               (Cat (NotAhead (Alt (lits (chars "rip") Eps) (lits (chars "dl") Eps)))
                  (Cat Bnd Eps)))) prev w post [] cs
  ↔ w = chars "web" ∧ word_at prev = false ∧ word_at (head post) = false ∧ cs = [].
Proof.
  rewrite den_Cat_Bnd, den_lits. split.
  - intros (Hb & w2 & -> & Hd). cbn [den] in Hd.
    destruct Hd as (w1 & w3 & cs1 & -> & (-> & -> & Hno) & Hd).
    apply (den_Bnd_end false) in Hd as (-> & Hb' & ->).
    change (xorb (word_at prev) true = true) in Hb.
    change (xorb true (word_at (head post)) = true) in Hb'.
    apply xorb_true_r_inv in Hb. apply xorb_true_l_inv in Hb'. done.
  - intros (-> & Hp & Hq & ->). split; [by simpl; rewrite Hp|].
    exists []. split; [done|]. exists [], [], []. split; [done|]. split.
    + split; [done|]. split; [done|].
      intros (w1 & post1 & cs1 & Heq & Hd). simpl in Heq. subst post.
      rewrite den_Alt, !den_lits in Hd.
      by destruct Hd as [(e & -> & _) | (e & -> & _)].
    + apply den_Bnd_end. by simpl; rewrite Hq.
Qed.

Lemma hit_web (text : string) :
  hit false "\bweb(?!rip|dl)\b" text = true ↔ contains_one_of text ["web"].
Proof.
  rewrite (hit_true _ _ _ _ web_compiles).
  unfold occurs_at, contains_one_of, contains_word, delimited. split.
  - intros (pre & w & post & cs & Heq & (-> & Hp & Hq & _)%den_web).
    exists pre, (chars "web"), post. split_and!; auto. left.
  - intros (pre & w & post & Heq & (x & ->%list_elem_of_singleton & ->)%elem_of_str & Hp & Hq).
    exists pre, (chars "web"), post, []. split; [done|]. by apply den_web.
Qed.

(** X2.  The quality rule "WEB", [\bweb(?!rip|dl)\b], is found in
    the lower-cased file name exactly when "web" occurs there as a word of
    its own; the negative look-ahead rejects nothing that the word boundary
    after it would accept, as the same holds of the pattern [\bweb\b]. *)
Theorem web_rule_is_whole_word (f : string) :
  ("WEB", "\bweb(?!rip|dl)\b") ∈ quality_patterns
  ∧ (hit true "\bweb(?!rip|dl)\b" (lower f) = true ↔ contains_one_of (lower f) ["web"])
  ∧ (hit true "\bweb\b" (lower f) = true ↔ contains_one_of (lower f) ["web"]).
Proof.
  split; [by apply (bool_decide_unpack _); vm_compute|]. split.
  - rewrite (hit_ignorecase _ _ _ web_compiles) by (by vm_compute). apply hit_web.
  - assert (compile "\bweb\b" = Some (word_regex "web")) as Hc by (by vm_compute).
    rewrite (hit_ignorecase _ _ _ Hc) by (by vm_compute).
    by apply (hit_one_word _ _ _ Hc).
Qed.

End web.

Section cross.
Import Re.
Implicit Types (w post : list ascii) (prev : option ascii) (cs : list (nat * list ascii)).

Lemma den_Eos_end ic prev w post cs cs' :
  den ic (Cat Eos Eps) prev w post cs cs' ↔
  w = [] ∧ (post = [] ∨ post = ["010"%char]) ∧ cs' = cs.
Proof.
  simpl. split.
  - intros (w1 & w2 & cs1 & -> & (-> & Hp & ->) & -> & ->). done.
  - intros (-> & Hp & ->). exists [], [], cs. done.
Qed.

Lemma file_type_label (f l : string) :
  l ≠ "Unknown" → file_type (analysis_of f) = l → pick format_patterns (lower f) = Some l.
Proof.
  unfold analysis_of; cbn [file_type].
  destruct (pick format_patterns (lower f)) as [l'|]; simpl; intros Hl Heq; congruence.
Qed.

(** A name that ends in ".ts" holds the word "ts". *)
Lemma ts_suffix_word (text : string) :
  hit false "\.ts$" text = true → contains_one_of text ["ts"; "telesync"; "tele-sync"].
Proof.
  assert (compile "\.ts$" = Some (lits (chars ".ts") (Cat Eos Eps))) as Hc by (by vm_compute).
  rewrite (hit_true _ _ _ _ Hc).
  intros (pre & w & post & cs & Heq & (w2 & -> & (-> & Hpost & _)%den_Eos_end)%den_lits).
  exists (pre ++ ["."%char]), (chars "ts"), post. unfold delimited. split_and!.
  - rewrite Heq. by rewrite <- !app_assoc.
  - simpl. left.
  - by rewrite last_snoc.
  - by destruct Hpost as [-> | ->].
Qed.

Lemma quality_ts_or_cam (text : string) :
  hit true "\b(ts|telesync|tele-sync)\b" text = true →
  pick quality_patterns text = Some "CAM" ∨ pick quality_patterns text = Some "TS".
Proof.
  intros Hts.
  change quality_patterns
    with (("CAM", "\b(cam|camrip|cam-rip)\b") :: ("CAMRip", "\b(camrip|cam-rip)\b")
            :: ("TS", "\b(ts|telesync|tele-sync)\b") :: drop 3 quality_patterns).
  rewrite !pick_cons. pose proof (hit_camrip_cam text) as Hcov.
  destruct (hit true "\b(cam|camrip|cam-rip)\b" text); [by left|].
  destruct (hit true "\b(camrip|cam-rip)\b" text); [by specialize (Hcov eq_refl)|].
  rewrite Hts. by right.
Qed.

(** X3.  A file that the format table types as "TS" (its name ends in
    ".ts", an MPEG transport stream) never comes out without a quality: the
    extension itself is read as the word "ts" of the telesync rule, so that
    the quality is "TS", or "CAM" when that earlier rule is found too. *)
Theorem transport_stream_reads_as_telesync (f : string) (a : AnalysisResult) :
  analyze_filename f = Ok a → file_type a = "TS" →
  quality a = Some "CAM" ∨ quality a = Some "TS".
Proof.
  rewrite analyze_filename_returns. intros [= <-] Hp%file_type_label; [|done].
  destruct tables_distinct as (Hnd & _). destruct lowercase_tables as (Hlf & Hlq & _).
  apply (pick_hit _ _ _ "\.ts$" Hnd) in Hp; [|by apply (bool_decide_unpack _); vm_compute].
  rewrite (lowercase_table_hit format_patterns "TS") in Hp
    by (done || by apply (bool_decide_unpack _); vm_compute).
  apply ts_suffix_word in Hp.
  assert (compile "\b(ts|telesync|tele-sync)\b" = Some (words_regex ["ts"; "telesync"; "tele-sync"]))
    as Hc by (by vm_compute).
  apply (hit_words _ _ _ Hc) in Hp; [|done..].
  rewrite <- (lowercase_table_hit quality_patterns "TS") in Hp
    by (done || by apply (bool_decide_unpack _); vm_compute).
  unfold analysis_of; cbn [quality]. by apply quality_ts_or_cam.
Qed.

(** X4.  A file whose quality comes out as "UHD" has the resolution
    "4K": each word of the "UHD" rule is, or starts with, a word of the "4K"
    rule, the first of the resolution table. *)
Theorem uhd_quality_has_4k_resolution (f : string) (a : AnalysisResult) :
  analyze_filename f = Ok a → quality a = Some "UHD" → resolution a = Some "4K".
Proof.
  rewrite analyze_filename_returns. intros [= <-]. unfold analysis_of; cbn [quality resolution].
  intros Hp. destruct tables_distinct as (_ & Hnd & _).
  destruct lowercase_tables as (_ & Hlq & Hlr & _).
  apply (pick_hit _ _ _ "\b(uhd|ultra\.hd|4k\.uhd)\b" Hnd) in Hp;
    [|by apply (bool_decide_unpack _); vm_compute].
  rewrite (lowercase_table_hit quality_patterns "UHD") in Hp
    by (done || by apply (bool_decide_unpack _); vm_compute).
  assert (compile "\b(uhd|ultra\.hd|4k\.uhd)\b" = Some (words_regex ["uhd"; "ultra.hd"; "4k.uhd"]))
    as Hcq by (by vm_compute).
  assert (compile "\b(4k|2160p|uhd|ultra\.hd)\b"
          = Some (words_regex ["4k"; "2160p"; "uhd"; "ultra.hd"])) as Hcr by (by vm_compute).
  apply (hit_words _ _ _ Hcq) in Hp; [|done..].
  apply (contains_one_of_prefix _ "4k" ".uhd" _ ["4k"; "2160p"; "uhd"; "ultra.hd"]) in Hp;
    [|intros v Hv|by left|done..].
  - apply (hit_words _ _ _ Hcr) in Hp; [|done..].
    rewrite <- (lowercase_table_hit resolution_patterns "4K") in Hp
      by (done || by apply (bool_decide_unpack _); vm_compute).
    change resolution_patterns
      with (("4K", "\b(4k|2160p|uhd|ultra\.hd)\b") :: drop 1 resolution_patterns).
    by apply pick_first.
  - apply elem_of_cons in Hv as [-> | Hv]; [left; by do 2 right; left|].
    apply elem_of_cons in Hv as [-> | Hv]; [left; by do 3 right; left|].
    apply list_elem_of_singleton in Hv as ->. by right.
Qed.

End cross.

Section cross_witnesses.

Lemma transport_stream_reads_as_telesync_witness :
  ∃ a, analyze_filename "clip.ts" = Ok a ∧ file_type a = "TS"
    ∧ (quality a = Some "CAM" ∨ quality a = Some "TS").
Proof.
  exists (analysis_of "clip.ts"). split; [apply analyze_filename_returns|].
  split; [by vm_compute|].
  apply (transport_stream_reads_as_telesync "clip.ts");
    [apply analyze_filename_returns|by vm_compute].
Defined.

Lemma uhd_quality_has_4k_resolution_witness :
  ∃ a, analyze_filename "Film.4K.UHD.mkv" = Ok a ∧ quality a = Some "UHD"
    ∧ resolution a = Some "4K".
Proof.
  exists (analysis_of "Film.4K.UHD.mkv"). split; [apply analyze_filename_returns|].
  split; [by vm_compute|].
  apply (uhd_quality_has_4k_resolution "Film.4K.UHD.mkv");
    [apply analyze_filename_returns|by vm_compute].
Defined.

End cross_witnesses.

Section case.
Import Re.
Implicit Types (f g : string) (pre y post : list ascii).

Lemma se_loop_lower patterns f g :
  lower f = lower g → se_loop patterns f = se_loop patterns g.
Proof.
  intros H. induction patterns as [|p patterns IH]; [done|]. cbn [se_loop]. rewrite H.
  destruct (search p (lower g) false) as [[m|]|e]; simpl; auto.
Qed.

Lemma year_text_digits y :
  year_text y → Forall (λ x, is_digit x = true) y ∧ length y = 4%nat.
Proof.
  intros (p & c3 & c4 & Hp & H3 & H4 & ->).
  destruct Hp as [-> | ->]; split; try done; repeat constructor; done.
Qed.

(** Lower-casing leaves digits alone and turns nothing else into one. *)
Lemma fmap_lower_digits y y' :
  Forall (λ x, is_digit x = true) y → lower_char <$> y' = lower_char <$> y → y' = y.
Proof.
  intros Hy. revert y'. induction Hy as [|c y Hc Hy IH]; intros [|c' y']; try done.
  rewrite !fmap_cons. intros [= Hcc Hyy]. f_equal; [|by apply IH].
  rewrite (lower_char_digit c Hc) in Hcc.
  assert (is_digit (lower_char c') = true) as Hd by (by rewrite Hcc).
  by rewrite <- (lower_char_digit_inv c' Hd).
Qed.

Lemma fmap_lower_fixed y :
  Forall (λ x, is_digit x = true) y → lower_char <$> y = y.
Proof.
  induction 1 as [|c y Hc Hy IH]; [done|]. by rewrite fmap_cons, IH, lower_char_digit.
Qed.

Lemma word_at_fmap_lower (o : option ascii) : word_at (lower_char <$> o) = word_at o.
Proof. destruct o as [c|]; [apply is_word_lower|done]. Qed.

Lemma delimited_lower pre pre' post post' :
  lower_char <$> pre' = lower_char <$> pre → lower_char <$> post' = lower_char <$> post →
  delimited pre post → delimited pre' post'.
Proof.
  intros Hpre Hpost [Hp Hq].
  assert (∀ l : list ascii, lower_char <$> head l = head (lower_char <$> l)) as Hh
    by (by intros []).
  split.
  - rewrite <- (word_at_fmap_lower (last pre')), <- (word_at_fmap_lower (last pre)) in *.
    by rewrite <- !fmap_last, Hpre in *.
  - rewrite <- (word_at_fmap_lower (head post')), <- (word_at_fmap_lower (head post)) in *.
    by rewrite !Hh, Hpost in *.
Qed.

(** The years of a name are those of any name that reads the same in
    lower case, at the same places. *)
Lemma year_word_lower f g pre y post :
  lower f = lower g → year_word f pre y post →
  ∃ pre' post', year_word g pre' y post' ∧ length pre' = length pre.
Proof.
  intros Hfg [[Heq Hy] Hd].
  apply (f_equal chars) in Hfg. rewrite !chars_lower, Heq, !fmap_app in Hfg.
  symmetry in Hfg.
  apply fmap_app_inv in Hfg as (pre' & r & Hpre & Hr & Hg).
  symmetry in Hr. apply fmap_app_inv in Hr as (y' & post' & Hy' & Hpost & ->).
  destruct (year_text_digits y Hy) as [Hdig _].
  symmetry in Hy'. apply (fmap_lower_digits _ _ Hdig) in Hy'. subst y'.
  exists pre', post'. split; [split; [done|]|].
  - by apply (delimited_lower pre pre' post post').
  - by rewrite <- (length_fmap lower_char pre'), <- Hpre, length_fmap.
Qed.

Lemma same_place (pre y post pre' y' post' : list ascii) :
  pre ++ y ++ post = pre' ++ y' ++ post' → length pre = length pre' →
  length y = length y' → y = y'.
Proof.
  intros Heq Hp Hy. apply app_inj_1 in Heq as [_ Heq]; [|done].
  by apply app_inj_1 in Heq as [? _].
Qed.

Lemma extract_year_lower f g : lower f = lower g → _extract_year f = _extract_year g.
Proof.
  intros Hfg.
  destruct (extract_year_leftmost f) as (o & -> & Ho).
  destruct (extract_year_leftmost g) as (o' & -> & Ho'). f_equal.
  destruct o as [y|], o' as [y'|]; simpl in Ho, Ho'.
  - destruct Ho as (pre & post & Hy & Hmin). destruct Ho' as (pre' & post' & Hy' & Hmin').
    destruct (year_word_lower f g _ _ _ Hfg Hy) as (p1 & q1 & Hy1 & Hl1).
    destruct (year_word_lower g f _ _ _ (eq_sym Hfg) Hy') as (p2 & q2 & Hy2 & Hl2).
    pose proof (Hmin _ _ _ Hy2). pose proof (Hmin' _ _ _ Hy1).
    f_equal. apply chars_inj.
    destruct Hy1 as [[Heq1 Ht1] _], Hy' as [[Heq' Ht'] _].
    apply (same_place p1 _ q1 pre' _ post'); [congruence|lia|].
    apply year_text_digits in Ht1 as [_ ->]. by apply year_text_digits in Ht' as [_ ->].
  - destruct Ho as (pre & post & Hy & _).
    destruct (year_word_lower f g _ _ _ Hfg Hy) as (p1 & q1 & Hy1 & _).
    destruct (Ho' _ _ _ Hy1).
  - destruct Ho' as (pre' & post' & Hy' & _).
    destruct (year_word_lower g f _ _ _ (eq_sym Hfg) Hy') as (p2 & q2 & Hy2 & _).
    destruct (Ho _ _ _ Hy2).
  - done.
Qed.

(** X5.  The analysis ignores the case of the file name: two names
    of characters up to U+00FF that read the same in lower case get the same
    format, quality, resolution, codecs, language, source and details, the
    year included although it is searched in the name as given. *)
Theorem analysis_ignores_case (f g : string) :
  lower f = lower g →
  ∃ a b, analyze_filename f = Ok a ∧ analyze_filename g = Ok b
    ∧ file_type a = file_type b ∧ quality a = quality b ∧ resolution a = resolution b
    ∧ codec a = codec b ∧ audio_codec a = audio_codec b ∧ language a = language b
    ∧ source a = source b ∧ format_details a = format_details b.
Proof.
  intros Hfg. exists (analysis_of f), (analysis_of g).
  split; [apply analyze_filename_returns|]. split; [apply analyze_filename_returns|].
  unfold analysis_of;
    cbn [file_type quality resolution codec audio_codec language source format_details].
  rewrite (extract_year_lower f g Hfg). unfold _extract_season_episode.
  rewrite (se_loop_lower _ f g Hfg), Hfg. done.
Qed.

End case.

Section tags.
Import Re.
Implicit Types (a b : string).

Lemma zeros_digits n : Forall (λ x, is_digit x = true) (chars (zeros n)).
Proof. induction n as [|n IH]; simpl; constructor; done. Qed.

(** Padding yields a number of at least two digits, which padding
    leaves as it is. *)
Lemma pad2_number a :
  number (chars a) →
  number (chars (pad2 a)) ∧ (2 ≤ String.length (pad2 a))%nat ∧ pad2 (pad2 a) = pad2 a.
Proof.
  intros [Hne Hd]. destruct a as [|c1 [|c2 a]]; [done| |].
  - inversion Hd; subst. split_and!; [split; [done|]|simpl; lia|done].
    repeat constructor; done.
  - assert (pad2 (String c1 (String c2 a)) = String c1 (String c2 a)) as -> by done.
    split_and!; [done|simpl; lia|done].
Qed.

Lemma digit_run_unique (x x' r r' : list ascii) (c c' : ascii) :
  Forall (λ d, is_digit d = true) x → Forall (λ d, is_digit d = true) x' →
  is_digit c = false → is_digit c' = false →
  x ++ c :: r = x' ++ c' :: r' → x = x' ∧ r = r'.
Proof.
  intros Hx. revert x'. induction Hx as [|d x Hd Hx IH]; intros x' Hx' Hc Hc' Heq.
  - destruct Hx' as [|d' x' Hd' Hx']; simplify_eq/=; [done|congruence].
  - destruct Hx' as [|d' x' Hd' Hx']; simplify_eq/=; [congruence|].
    destruct (IH x' Hx' Hc Hc' H0) as [-> ->]. done.
Qed.

Lemma tag_lower a b :
  number (chars a) → number (chars b) →
  chars (lower ("S" +:+ a +:+ "E" +:+ b)) = chars "s" ++ chars a ++ chars "e" ++ chars b.
Proof.
  intros [_ Ha] [_ Hb].
  rewrite chars_lower, !chars_app, !fmap_app.
  rewrite (fmap_lower_fixed (chars a)), (fmap_lower_fixed (chars b)) by done. done.
Qed.

(** A tag is read back as itself. *)
Lemma tag_fixed a b :
  number (chars a) → number (chars b) → pad2 a = a → pad2 b = b →
  _extract_season_episode ("S" +:+ a +:+ "E" +:+ b) = Ok (Some ("S" +:+ a +:+ "E" +:+ b)).
Proof.
  intros Ha Hb Hpa Hpb. set (out := "S" +:+ a +:+ "E" +:+ b).
  assert (occurrence SxEy (lower out) [] a b []) as Hocc.
  { split; [done|]. split; [done|]. eexists. split; [|done].
    unfold out. rewrite tag_lower by done. by rewrite app_nil_r. }
  unfold _extract_season_episode.
  change se_patterns
    with [family_pattern SxEy; family_pattern SeasonEpisode; family_pattern NxM].
  destruct (family_step SxEy out) as [(a' & b' & Hch & ->) | [Hno _]];
    [|destruct Hno; by exists [], a, b, []].
  destruct Hch as (pre & post & (Ha' & Hb' & w & Heq & Hw) & Hend & Hmin).
  specialize (Hmin _ _ _ _ Hocc). destruct pre as [|? ?]; [|simpl in Hmin; lia].
  unfold out in Heq. rewrite tag_lower in Heq by done. simpl in Hw. subst w.
  simpl in Heq. injection Heq as Heq.
  rewrite <- !app_assoc in Heq. simpl in Heq.
  destruct Ha as [_ Hda], Ha' as [_ Hda'], Hb as [_ Hdb], Hb' as [Hne' Hdb'].
  apply digit_run_unique in Heq as [Haa Hbb]; [|done..].
  apply chars_inj in Haa. subst a'.
  assert (post = []) as ->.
  { destruct post as [|c post]; [done|]. specialize (Hend c eq_refl).
    rewrite Hbb in Hdb. apply Forall_app in Hdb as [_ Hdb].
    inversion Hdb; congruence. }
  rewrite app_nil_r in Hbb. apply chars_inj in Hbb. subst b'.
  unfold rendered. by rewrite Hpa, Hpb.
Qed.

(** X6.  The season/episode tag is in canonical form: it reads
    S<a>E<b> with two numbers of at least two digits each, and given back as a
    file name it is extracted again as it stands. *)
Theorem season_episode_tag_is_canonical (f out : string) :
  _extract_season_episode f = Ok (Some out) →
  (∃ a b, number (chars a) ∧ number (chars b)
     ∧ (2 ≤ String.length a)%nat ∧ (2 ≤ String.length b)%nat
     ∧ out = "S" +:+ a +:+ "E" +:+ b)
  ∧ _extract_season_episode out = Ok (Some out).
Proof.
  destruct (extract_season_episode_spec f) as (o & -> & Hspec). intros [= ->].
  destruct Hspec as (fam & a & b & (pre & post & (Ha & Hb & _) & _) & -> & _).
  destruct (pad2_number a Ha) as (Hna & Hla & Hpa).
  destruct (pad2_number b Hb) as (Hnb & Hlb & Hpb).
  unfold rendered. split; [by exists (pad2 a), (pad2 b)|]. by apply tag_fixed.
Qed.

End tags.

Section case_witnesses.

Lemma analysis_ignores_case_witness :
  lower "MOVIE.2023.1080P.MKV" = lower "movie.2023.1080p.mkv"
  ∧ ∃ a b, analyze_filename "MOVIE.2023.1080P.MKV" = Ok a
      ∧ analyze_filename "movie.2023.1080p.mkv" = Ok b
      ∧ file_type a = file_type b ∧ quality a = quality b ∧ resolution a = resolution b
      ∧ codec a = codec b ∧ audio_codec a = audio_codec b ∧ language a = language b
      ∧ source a = source b ∧ format_details a = format_details b.
Proof.
  split; [reflexivity|].
  apply (analysis_ignores_case "MOVIE.2023.1080P.MKV" "movie.2023.1080p.mkv"). reflexivity.
Defined.

Lemma season_episode_tag_is_canonical_witness :
  _extract_season_episode "Show.1x2.avi" = Ok (Some "S01E02")
  ∧ (∃ a b, number (chars a) ∧ number (chars b)
       ∧ (2 ≤ String.length a)%nat ∧ (2 ≤ String.length b)%nat
       ∧ "S01E02" = "S" +:+ a +:+ "E" +:+ b)
  ∧ _extract_season_episode "S01E02" = Ok (Some "S01E02").
Proof.
  split; [by vm_compute|].
  apply (season_episode_tag_is_canonical "Show.1x2.avi" "S01E02"). by vm_compute.
Defined.

End case_witnesses.

Section response_parts.

Lemma get_empty key : get ∅ key = VNone.
Proof. unfold get. by rewrite lookup_empty. Qed.

Lemma detail_lines_empty : detail_lines ∅ = "".
Proof. unfold detail_lines. by rewrite !get_empty. Qed.

Lemma let_if {B} (c : bool) (p x : string) (b : string → B) :
  (let r := if c then p +:+ x else p in b r) = b (p +:+ (if c then x else "")).
Proof. cbv zeta. by rewrite if_append. Qed.

(** One assignment [response = ...] or [response += ...] of the
    renderer, the latter under an [if] put in the form of [if_append]. *)
Ltac step_let :=
  lazymatch goal with
  | |- (let r := (let d := ?w in @?x d) in @?b r) = ?rhs =>
      change ((let d := w in let r := x d in b r) = rhs); cbv beta
  | |- (let r := ?v in @?b r) = ?rhs =>
      let v' := eval cbv zeta in v in
      lazymatch v' with
      | (if ?c then ?p +:+ ?x else ?p) =>
          transitivity (b (p +:+ (if c then x else ""))); [exact (let_if c p x b)|cbv beta]
      | (if _ then _ else _) => fail
      | _ => change (b v' = rhs); cbv beta
      end
  end.

(** The step [let* x := Ok v in k]. *)
Ltac step_bind :=
  lazymatch goal with
  | |- Py.bind ?m ?k = ?rhs =>
      let m' := eval cbv beta iota zeta delta [Py.bind] in m in
      lazymatch m' with
      | Ok ?v => change (k v = rhs); cbv beta
      end
  end.

(** The response is the header, the lines of the file, and the lines
    of the fields and of the details, in this order. *)
Lemma format_analysis_response_parts (a : AnalysisResult) (fi : option FileMetadata) :
  format_analysis_response a fi
  = let* files :=
      match fi with
      | Some fi => let* size := format_file_size (file_size fi) in Ok (file_lines size fi)
      | None => Ok ""
      end in
    Ok (response_of a files).
Proof.
  assert (detail_lines (format_details a)
          = if bool_decide (format_details a ≠ ∅)
            then detail_lines (format_details a) else "") as Hd.
  { destruct (decide (format_details a = ∅)) as [He|He].
    - rewrite He, detail_lines_empty. by destruct (bool_decide _).
    - by rewrite (bool_decide_eq_true_2 _ He). }
  cbv delta [format_analysis_response]. cbv beta. do 2 step_let.
  destruct fi as [fi|]; [destruct (format_file_size (file_size fi)) as [size|e]; [|done]|];
    step_bind; symmetry; step_bind; symmetry; repeat step_let.
  all: unfold response_of; rewrite Hd.
  all: destruct (bool_decide (format_details a ≠ ∅)); cbv iota; repeat step_let.
  all: unfold field_lines, detail_lines, optional_line, flag_line, response_head, file_lines.
  all: change (truthy (of_opt ?o)) with (truthy_opt o).
  all: change (str_of (of_opt ?o)) with (text o).
  all: rewrite ?if_append, ?append_nil_r, !append_assoc; reflexivity.
Qed.

End response_parts.

Section details_rendering.

Lemma optional_line_reading label v v' :
  reading v = reading v' → optional_line label v = optional_line label v'.
Proof.
  unfold reading, optional_line. destruct (truthy v), (truthy v'); congruence.
Qed.

Lemma flag_line_reading label v v' :
  reading v = reading v' → flag_line label v = flag_line label v'.
Proof.
  unfold reading, flag_line. destruct (truthy v), (truthy v'); congruence.
Qed.

(** X10.  The renderer reads the details through [.get] on the six
    keys it knows, and of each value only whether it is truthy and, if so,
    its text: details that read alike on these keys are rendered alike.  So
    a missing key reads as [None], [False] or an empty string do, keys beyond
    the six are ignored, the empty dict (the default of the model) renders as
    a dict of six falsy values, and no [KeyError] is raised. *)
Theorem render_reads_details_by_key
    (a : AnalysisResult) (d : gmap string val) (fi : option FileMetadata) :
  Forall (λ key, reading (get d key) = reading (get (format_details a) key)) detail_keys →
  format_analysis_response (with_details a d) fi = format_analysis_response a fi.
Proof.
  intros H. rewrite !format_analysis_response_parts.
  assert (detail_lines d = detail_lines (format_details a)) as Hd.
  { unfold detail_keys in H.
    repeat match goal with
           | H : Forall _ (_ :: _) |- _ => apply Forall_cons_1 in H as [? H]
           end.
    unfold detail_lines.
    repeat match goal with
           | H : reading _ = reading _ |- _ =>
               first [rewrite (optional_line_reading _ _ _ H)
                     | rewrite (flag_line_reading _ _ _ H)]; clear H
           end.
    done. }
  unfold response_of, with_details, response_head, field_lines.
  cbn [filename file_type quality resolution codec audio_codec language source format_details].
  by rewrite Hd.
Qed.

End details_rendering.

Section details_rendering_witnesses.

(** A dict with a falsy value and a key of its own against the empty
    dict. *)
Lemma render_reads_details_by_key_witness :
  format_analysis_response
    (with_details (mkAnalysisResult "a.mkv" "MKV" None None None None None None ∅)
       (<["has_subtitles" := VBool false]> (<["note" := VStr "x"]> ∅))) None
  = format_analysis_response
      (mkAnalysisResult "a.mkv" "MKV" None None None None None None ∅) None.
Proof.
  apply (render_reads_details_by_key
           (mkAnalysisResult "a.mkv" "MKV" None None None None None None ∅)
           (<["has_subtitles" := VBool false]> (<["note" := VStr "x"]> ∅)) None).
  unfold detail_keys. repeat (apply Forall_cons_2; [by vm_compute|]). apply Forall_nil_2.
Defined.

End details_rendering_witnesses.

Section sizes.

Lemma float_of_int_returns n :
  Z.abs n < 2 ^ 1024 - 2 ^ 970 → ∃ v, float_of_int n = Ok (Float v 0).
Proof.
  intros Hn. unfold float_of_int.
  destruct (Z.ltb_spec (Z.abs n) (2 ^ 53)) as [|H53]; [by eexists|].
  set (a := Z.abs n) in *. set (L := Z.log2 a).
  assert (0 < a) as Ha by lia.
  destruct (Z.log2_spec a Ha) as [Hlo Hhi]. fold L in Hlo, Hhi.
  assert (53 ≤ L) as HL.
  { apply Z.log2_le_pow2; [done|]. lia. }
  assert (L ≤ 1023) as HL'.
  { assert (L < 1024); [|lia]. apply Z.log2_lt_pow2; [done|]. lia. }
  set (b := 2 ^ (L - 52)). assert (0 < b) as Hb by (apply Z.pow_pos_nonneg; lia).
  destruct (round_half_even_spec a b Hb) as [Hr _]. cbv zeta in Hr.
  set (t := round_half_even a b) in *.
  assert (t * b < 2 ^ 1024) as Hv.
  { destruct (Z.eq_dec L 1023) as [HL1|HL1].
    - subst b. rewrite HL1 in *. change (2 ^ (1023 - 52)) with (2 * 2 ^ 970) in *. lia.
    - assert (2 ^ Z.succ L ≤ 2 ^ 1023) by (apply Z.pow_le_mono_r; lia).
      assert (b ≤ 2 ^ 970) by (apply Z.pow_le_mono_r; lia).
      change (2 ^ 1024) with (2 * 2 ^ 1023).
      assert (2 ^ 970 < 2 ^ 1023) by (by apply Z.pow_lt_mono_r). lia. }
  destruct (Z.leb_spec (2 ^ 1024) (t * b)); [lia|]. by eexists.
Qed.

Lemma float_of_int_raises n :
  2 ^ 1024 - 2 ^ 970 ≤ Z.abs n → float_of_int n = Raise OverflowError.
Proof.
  intros Hn. unfold float_of_int.
  assert (2 ^ 53 < 2 ^ 1024 - 2 ^ 970) as Hbig by (by vm_compute).
  destruct (Z.ltb_spec (Z.abs n) (2 ^ 53)) as [|H53]; [lia|].
  set (a := Z.abs n) in *. set (L := Z.log2 a).
  assert (0 < a) as Ha by lia.
  destruct (Z.log2_spec a Ha) as [Hlo Hhi]. fold L in Hlo, Hhi.
  assert (1023 ≤ L) as HL.
  { apply Z.log2_le_pow2; [done|].
    assert (2 ^ 1023 ≤ 2 ^ 1024 - 2 ^ 970) by (by vm_compute). lia. }
  set (b := 2 ^ (L - 52)). assert (0 < b) as Hb by (apply Z.pow_pos_nonneg; lia).
  destruct (round_half_even_spec a b Hb) as [Hr He]. cbv zeta in Hr, He.
  set (t := round_half_even a b) in *.
  assert (2 ^ 1024 ≤ t * b) as Hv.
  { destruct (Z.eq_dec L 1023) as [HL1|HL1].
    - subst b. rewrite HL1 in *.
      change (2 ^ (1023 - 52)) with (2 ^ 971) in *.
      change (2 ^ 1024) with (2 ^ 53 * 2 ^ 971) in *.
      change (2 ^ 970) with (2 ^ 971 / 2) in *.
      assert (2 ^ 971 = 2 * (2 ^ 971 / 2)) as Hh by (by vm_compute).
      set (c := 2 ^ 971) in *.
      destruct (Z.le_gt_cases (2 ^ 53) t) as [|Hlt]; [nia|].
      assert (t = 2 ^ 53 - 1) as Ht by nia.
      assert (2 * Z.abs (a - t * c) = c) as Htie by nia.
      specialize (He Htie). rewrite Ht in He. vm_compute in He. discriminate He.
    - assert (2 ^ L = 2 ^ 52 * b) as HLb.
      { unfold b. rewrite <- Z.pow_add_r by lia. f_equal. lia. }
      assert (2 ^ 1024 ≤ 2 ^ L) by (apply Z.pow_le_mono_r; lia).
      assert (2 ^ 52 ≤ t) by nia. nia. }
  destruct (Z.leb_spec (2 ^ 1024) (t * b)); [done|lia].
Qed.

Lemma size_loop_cons u us x :
  size_loop (u :: us) x
  = if num_lt1024 x
    then let* s := num_format_1f x in Ok (s +:+ " " +:+ u)
    else let* y := num_div1024 x in size_loop us y.
Proof. done. Qed.

(** Once the size is a float the loop runs to its end. *)
Lemma size_loop_Flt us x : returns (size_loop us (Flt x)).
Proof.
  revert x. induction us as [|u us IH]; intros x; cbn [size_loop num_format_1f bind].
  - by eexists.
  - destruct (num_lt1024 (Flt x)); cbn [num_format_1f num_div1024 bind]; [by eexists|].
    apply IH.
Qed.

(** X7.  [format_file_size] is not total: an integer size converts
    to a float when its magnitude is below 2^1024 - 2^970, and then a text is
    returned; from there on the conversion raises [OverflowError], which
    [format_analysis_response] passes on for a file of that size. *)
Theorem format_file_size_overflow (n : Z) :
  (Z.abs n < 2 ^ 1024 - 2 ^ 970 → returns (format_file_size (Some n)))
  ∧ (2 ^ 1024 - 2 ^ 970 ≤ Z.abs n →
       format_file_size (Some n) = Raise OverflowError
       ∧ ∀ a fi, file_size fi = Some n →
           format_analysis_response a (Some fi) = Raise OverflowError).
Proof.
  split.
  - intros Hn. unfold format_file_size. destruct (n =? 0); [by eexists|].
    rewrite size_loop_cons. destruct (float_of_int_returns n Hn) as (v & Hv).
    destruct (num_lt1024 (Int n)); cbn [num_format_1f num_div1024]; rewrite Hv; cbn [bind].
    + by eexists.
    + apply size_loop_Flt.
  - intros Hn.
    assert (format_file_size (Some n) = Raise OverflowError) as Hraise.
    { unfold format_file_size.
      assert (0 < 2 ^ 1024 - 2 ^ 970) by (by vm_compute).
      destruct (Z.eqb_spec n 0); [lia|].
      rewrite size_loop_cons.
      destruct (num_lt1024 (Int n)); cbn [num_format_1f num_div1024];
        by rewrite (float_of_int_raises n Hn). }
    split; [exact Hraise|]. intros a fi Hfi.
    rewrite format_analysis_response_parts, Hfi, Hraise. reflexivity.
Qed.



Lemma one_decimal_1024 n e :
  0 < n → 0 ≤ e → 20 * (1024 * 2 ^ e) - 2 ^ e ≤ 20 * n → n < 1024 * 2 ^ e →
  format_1f (Float n e) = "1024.0".
Proof.
  intros Hn He Hlo Hhi. destruct (format_1f_pos n e Hn He) as (t & -> & Hr & Heven).
  assert (0 < 2 ^ e) as Hb by (by apply Z.pow_pos_nonneg).
  set (b := 2 ^ e) in *.
  assert (t = 10240); [|by subst t].
  destruct (Z.lt_trichotomy t 10240) as [Hlt | [-> | Hgt]]; [|done|nia].
  assert (t = 10239) as -> by nia.
  assert (2 * Z.abs (10 * n - 10239 * b) = b) as Htie by nia.
  by specialize (Heven Htie).
Qed.

(** X9.  The unit is chosen before the value is rounded: a size
    within a twentieth of a unit below the next unit is printed as
    "1024.0" of the smaller unit (1048575 bytes read "1024.0 KB", not
    "1.0 MB"). *)
Theorem size_just_below_next_unit (n : Z) (k : nat) (unit : string) :
  (1 ≤ k ≤ 4)%nat → units !! k = Some unit →
  20 * 1024 ^ Z.of_nat (k + 1) - 1024 ^ Z.of_nat k ≤ 20 * n → n < 1024 ^ Z.of_nat (k + 1) →
  format_file_size (Some n) = Ok ("1024.0 " +:+ unit).
Proof.
  intros Hk Hu Hlo Hhi. unfold format_file_size.
  assert (k = 1 ∨ k = 2 ∨ k = 3 ∨ k = 4)%nat as Hcases by lia.
  assert (1024 ^ 1 = 1024 * 2 ^ 0 ∧ 1024 ^ 2 = 1024 * 2 ^ 10 ∧ 1024 ^ 3 = 1024 * 2 ^ 20
          ∧ 1024 ^ 4 = 1024 * 2 ^ 30 ∧ 1024 ^ 5 = 1024 * 2 ^ 40) as (E1 & E2 & E3 & E4 & E5)
    by (by vm_compute).
  assert (2 ^ 10 = 1024 ∧ 2 ^ 20 = 1024 * 2 ^ 10 ∧ 2 ^ 30 = 1024 * 2 ^ 20
          ∧ 2 ^ 40 = 1024 * 2 ^ 30 ∧ 1024 * 2 ^ 40 < 2 ^ 53) as (P1 & P2 & P3 & P4 & P5)
    by (by vm_compute).
  assert (0 < 2 ^ 10) as Q1 by (by vm_compute).
  destruct Hcases as [-> | [-> | [-> | ->]]]; simpl in Hu; injection Hu as <-;
    change (Z.of_nat (1 + 1)) with 2 in *; change (Z.of_nat (2 + 1)) with 3 in *;
    change (Z.of_nat (3 + 1)) with 4 in *; change (Z.of_nat (4 + 1)) with 5 in *;
    change (Z.of_nat 1) with 1 in *; change (Z.of_nat 2) with 2 in *;
    change (Z.of_nat 3) with 3 in *; change (Z.of_nat 4) with 4 in *;
    rewrite ?E1, ?E2, ?E3, ?E4, ?E5 in *;
    (destruct (Z.eqb_spec n 0); [lia|]);
    cbn [size_loop num_lt1024]; (destruct (Z.ltb_spec n 1024); [lia|]);
    cbn [num_div1024]; rewrite float_of_int_exact by lia;
    cbn [bind size_loop num_lt1024 num_format_1f num_div1024];
    unfold fdiv1024, flt1024; cbn [f_num f_exp2];
    change (0 + 10) with 10; change (10 + 10) with 20; change (20 + 10) with 30;
    change (30 + 10) with 40;
    repeat (match goal with
            | |- context [?x <? ?y] => destruct (Z.ltb_spec x y); [|lia]
            | |- context [?x <? ?y] => destruct (Z.ltb_spec x y); [lia|]
            end; cbn [bind size_loop]);
    rewrite one_decimal_1024 by lia; done.
Qed.

End sizes.

Section sizes_witnesses.

Lemma format_file_size_overflow_witness :
  returns (format_file_size (Some 1536))
  ∧ format_file_size (Some (2 ^ 1024)) = Raise OverflowError.
Proof.
  split.
  - apply (proj1 (format_file_size_overflow 1536)). vm_compute. reflexivity.
  - assert (2 ^ 1024 - 2 ^ 970 ≤ Z.abs (2 ^ 1024)) as H
      by (vm_compute; intros H; discriminate H).
    destruct (proj2 (format_file_size_overflow (2 ^ 1024)) H) as [Hr _]. exact Hr.
Defined.


Lemma size_just_below_next_unit_witness :
  format_file_size (Some 1048575) = Ok "1024.0 KB".
Proof.
  apply (size_just_below_next_unit 1048575 1 "KB"); [lia|done|by vm_compute..].
Defined.

End sizes_witnesses.

Section text_handler.
Import Re.

Lemma startswith_spec (s p : string) :
  startswith s p = true ↔ ∃ post, s = p +:+ post.
Proof.
  revert s. induction p as [|a p IH]; intros s; simpl.
  - split; [by exists s|done].
  - destruct s as [|b s].
    + split; [done|]. by intros (post & ?).
    + rewrite andb_true_iff, IH. split.
      * intros [->%Ascii.eqb_eq (post & ->)]. by exists post.
      * intros (post & [= -> ->]). split; [apply Ascii.eqb_refl|by exists post].
Qed.

Lemma str_in_spec (sub s : string) :
  str_in sub s = true ↔ ∃ pre post, s = pre +:+ sub +:+ post.
Proof.
  induction s as [|c s IH]; simpl; rewrite orb_true_iff, startswith_spec.
  - split.
    + intros [(post & ->) | ?]; [by exists "", post|done].
    + intros (pre & post & Heq). left.
      destruct pre as [|? ?]; [|done]. by exists post.
  - rewrite IH. split.
    + intros [(post & ->) | (pre & post & ->)]; [by exists "", post|].
      by exists (String c pre), post.
    + intros (pre & post & Heq). destruct pre as [|c' pre].
      * left. by exists post.
      * right. injection Heq as -> ->. by exists pre, post.
Qed.

Lemma str_in_chars (sub s : string) :
  str_in sub s = true ↔ ∃ pre post, chars s = pre ++ chars sub ++ post.
Proof.
  rewrite str_in_spec. split.
  - intros (pre & post & ->). exists (chars pre), (chars post). by rewrite !chars_app.
  - intros (pre & post & Heq). exists (str pre), (str post).
    apply chars_inj. by rewrite !chars_app, !chars_str.
Qed.

(** An extension that occurs in the lower-cased text brings a dot that
    occurs in the text as given. *)
Lemma extension_brings_dot (text ext : string) :
  ext ∈ text_extensions → str_in ext (lower text) = true → str_in "." text = true.
Proof.
  intros Hext (pre & post & Heq)%str_in_chars.
  assert (∃ rest, chars ext = "."%char :: rest) as (rest & Hr).
  { unfold text_extensions in Hext.
    repeat (apply elem_of_cons in Hext as [-> | Hext]; [by eexists|]).
    by apply elem_of_nil in Hext. }
  rewrite Hr, chars_lower in Heq.
  apply fmap_app_inv in Heq as (pre' & r & _ & Hr' & Ht).
  destruct r as [|c r]; [done|]. injection Hr' as Hc _.
  symmetry in Hc. apply lower_char_dot in Hc as ->.
  apply str_in_chars. by exists pre', r.
Qed.

Lemma existsb_elem_of {A} (f : A → bool) (l : list A) :
  existsb f l = true ↔ ∃ x, x ∈ l ∧ f x = true.
Proof.
  rewrite existsb_exists. split; intros (x & Hx & Hf); exists x;
    (split; [by apply list_elem_of_In|done]).
Qed.

Lemma looks_like_filename_extension (text : string) :
  looks_like_filename text = existsb (λ ext, str_in ext (lower text)) text_extensions.
Proof.
  unfold looks_like_filename.
  destruct (existsb _ _) eqn:He; [|apply andb_false_r].
  apply existsb_elem_of in He as (ext & Hext & Hin).
  by rewrite (extension_brings_dot text ext).
Qed.

(** X11.  What [handle_text] takes for a file name: a text whose
    lower case contains one of ".mkv", ".mp4", ".avi", ".webm", ".mov",
    ".flv", ".wmv", anywhere in it.  The first half of the test, that the
    text contain a dot, never decides: it holds whenever the second half
    does. *)
Theorem text_is_filename_iff_extension_occurs (text : string) :
  (looks_like_filename text = true ↔
   ∃ ext pre post, ext ∈ text_extensions ∧ lower text = pre +:+ ext +:+ post)
  ∧ looks_like_filename text = existsb (λ ext, str_in ext (lower text)) text_extensions.
Proof.
  pose proof (looks_like_filename_extension text) as Heq.
  split; [|done]. rewrite Heq, existsb_elem_of. split.
  - intros (ext & Hext & (pre & post & Hs)%str_in_spec). by exists ext, pre, post.
  - intros (ext & pre & post & Hext & Hs). exists ext. split; [done|].
    apply str_in_spec. by exists pre, post.
Qed.

(** A pattern [\.ext$] is found only in a text that contains ".ext". *)
Lemma extension_hit (ext pattern t : string) :
  compile pattern = Some (lits (chars ext) (Cat Eos Eps)) →
  hit false pattern t = true → str_in ext t = true.
Proof.
  intros Hc. rewrite (hit_true _ _ _ _ Hc).
  intros (pre & w & post & cs & Heq & (w2 & -> & _)%den_lits).
  apply str_in_chars. exists pre, (w2 ++ post). by rewrite Heq, <- app_assoc.
Qed.

Lemma format_in_text (text l pattern ext : string) :
  (l, pattern) ∈ format_patterns →
  compile pattern = Some (lits (chars ext) (Cat Eos Eps)) →
  pick format_patterns (lower text) = Some l → str_in ext (lower text) = true.
Proof.
  intros Hin Hc Hp. destruct tables_distinct as (Hnd & _).
  destruct lowercase_tables as (Hlf & _).
  apply (pick_hit _ _ _ pattern Hnd Hin) in Hp.
  rewrite (lowercase_table_hit format_patterns l) in Hp by done.
  by apply (extension_hit ext pattern).
Qed.

(** X12.  Every text of characters up to U+00FF that the analyzer
    types as MKV, MP4, AVI, WebM, MOV, FLV or WMV is taken for a file name by
    [handle_text].  The two tests differ otherwise: "clip.m4v" is typed M4V by the analyzer and is not
    taken for a file name, and "notes.mkv.txt" is taken for one although its
    type is unknown. *)
Theorem text_handler_takes_known_videos :
  (∀ (text : string) (a : AnalysisResult),
     analyze_filename text = Ok a →
     file_type a ∈ ["MKV"; "MP4"; "AVI"; "WebM"; "MOV"; "FLV"; "WMV"] →
     looks_like_filename text = true)
  ∧ (∃ a, analyze_filename "clip.m4v" = Ok a ∧ file_type a = "M4V"
          ∧ looks_like_filename "clip.m4v" = false)
  ∧ (∃ a, analyze_filename "notes.mkv.txt" = Ok a ∧ file_type a = "Unknown"
          ∧ looks_like_filename "notes.mkv.txt" = true).
Proof.
  split_and!.
  - intros text a. rewrite analyze_filename_returns. intros [= <-] Hl.
    rewrite looks_like_filename_extension.
    apply existsb_elem_of.
    assert (∀ l pattern ext : string,
              (l, pattern) ∈ format_patterns →
              compile pattern = Some (lits (chars ext) (Cat Eos Eps)) →
              ext ∈ text_extensions → l ≠ "Unknown" →
              file_type (analysis_of text) = l →
              ∃ x, x ∈ text_extensions ∧ str_in x (lower text) = true) as Hcase.
    { intros l pattern ext Hin Hc Hext Hne Hft. exists ext. split; [done|].
      apply (format_in_text text l pattern ext Hin Hc). by apply file_type_label. }
    repeat (apply elem_of_cons in Hl as [Hl | Hl]);
      [eapply (Hcase "MKV" "\.mkv$" ".mkv") | eapply (Hcase "MP4" "\.mp4$" ".mp4")
      | eapply (Hcase "AVI" "\.avi$" ".avi") | eapply (Hcase "WebM" "\.webm$" ".webm")
      | eapply (Hcase "MOV" "\.mov$" ".mov") | eapply (Hcase "FLV" "\.flv$" ".flv")
      | eapply (Hcase "WMV" "\.wmv$" ".wmv") | by apply elem_of_nil in Hl];
      first [exact Hl | done | by vm_compute | by apply (bool_decide_unpack _); vm_compute].
  - exists (analysis_of "clip.m4v"). split; [apply analyze_filename_returns|]. by vm_compute.
  - exists (analysis_of "notes.mkv.txt"). split; [apply analyze_filename_returns|].
    by vm_compute.
Qed.

End text_handler.

Section text_handler_witnesses.

Lemma text_handler_takes_known_videos_witness :
  ∃ a, analyze_filename "Movie.2023.MKV" = Ok a ∧ file_type a = "MKV"
    ∧ looks_like_filename "Movie.2023.MKV" = true.
Proof.
  exists (analysis_of "Movie.2023.MKV"). split; [apply analyze_filename_returns|].
  split; [by vm_compute|].
  apply (proj1 text_handler_takes_known_videos "Movie.2023.MKV" (analysis_of "Movie.2023.MKV"));
    [apply analyze_filename_returns|].
  apply (bool_decide_unpack _). by vm_compute.
Defined.

End text_handler_witnesses.

Section handler.


(** The steps of a computation. *)
Lemma bind_await {B} w c (k : unit → io B) made :
  (do x <- await w c; k x) made
  = if fails w c then (made ++ [c], inl (CallError c)) else k tt (made ++ [c]).
Proof. unfold io_bind, await. destruct (fails w c); reflexivity. Qed.

Lemma bind_lift {A B} (r : result A) (k : A → io B) made :
  (do x <- lift r; k x) made
  = match r with
    | Ok a => k a made
    | Raise e => (made, inl (PythonError e))
    end.
Proof. unfold io_bind, lift. destruct r; reflexivity. Qed.

Lemma bind_new_FileMetadata {B} id name size mime uid (k : FileMetadata → io B) made :
  (do x <- new_FileMetadata id name size mime uid; k x) made
  = match name with
    | Some n => k (mkFileMetadata id n size mime uid) made
    | None => (made, inl ValidationError)
    end.
Proof. unfold io_bind, new_FileMetadata, ret. destruct name; reflexivity. Qed.

Lemma await_last w c made :
  await w c made = (made ++ [c], if fails w c then inl (CallError c) else inr tt).
Proof. done. Qed.


End handler.

Section handler_replies.




End handler_replies.

Section commands.

Lemma cut_space_none (s : string) : " "%char ∉ chars s → cut_space s = (s, None).
Proof.
  induction s as [|c s IH]; [done|]. simpl. intros [Hc Hs]%not_elem_of_cons.
  destruct (Ascii.eqb_spec c " "); [congruence|]. by rewrite IH.
Qed.

Lemma cut_space_app (s rest : string) :
  " "%char ∉ chars s → cut_space (s +:+ " " +:+ rest) = (s, Some rest).
Proof.
  induction s as [|c s IH]; [done|]. simpl. intros [Hc Hs]%not_elem_of_cons.
  destruct (Ascii.eqb_spec c " "); [congruence|]. by rewrite IH.
Qed.

Lemma startswith_app (s p rest : string) :
  startswith s p = true → startswith (s +:+ rest) p = true.
Proof.
  rewrite !startswith_spec. intros (post & ->). exists (post +:+ rest).
  by rewrite append_assoc.
Qed.

Lemma analyze_not_start (s : string) :
  startswith s "/analyze" = true → startswith s "/start" = false ∧ truthy_opt (Some s) = true.
Proof. intros (post & ->)%startswith_spec. split; reflexivity. Qed.

Lemma render_returns (a : AnalysisResult) : ∃ response, format_analysis_response a None = Ok response.
Proof. rewrite format_analysis_response_parts. eexists. reflexivity. Qed.

(** The handler on a text that starts with "/analyze", in a world where
    no call raises. *)
Lemma handle_analyze w message (t : string) :
  calm w → Telegram.text message = Some t → startswith t "/analyze" = true →
  handle_telegram_message w true message []
  = match split_space_once t with
    | _ :: filename :: _ =>
        match analyze_filename filename with
        | Ok analysis =>
            match format_analysis_response analysis None with
            | Ok response =>
                ([log_call message;
                  insert_analysis (Telegram.chat_id message) filename None analysis "command";
                  send_message (Telegram.chat_id message) response], inr tt)
            | Raise e =>
                ([log_call message; send_message (Telegram.chat_id message) apology_message],
                 inr tt)
            end
        | Raise e =>
            ([log_call message; send_message (Telegram.chat_id message) apology_message],
             inr tt)
        end
    | _ => ([log_call message; send_message (Telegram.chat_id message) usage_message], inr tt)
    end.
Proof.
  intros Hw Ht Hs. destruct (analyze_not_start t Hs) as [Hns Htr].
  unfold handle_telegram_message, try_except, log_call. cbn [negb]. cbv zeta.
  rewrite bind_await, Hw, Ht, Htr.
  unfold text. cbn [of_opt str_of].
  rewrite Hns, Hs.
  destruct (split_space_once t) as [|? [|filename ?]].
  - rewrite await_last, Hw. reflexivity.
  - rewrite await_last, Hw. reflexivity.
  - rewrite bind_lift. destruct (analyze_filename filename) as [analysis|e].
    + rewrite bind_lift. destruct (format_analysis_response analysis None) as [response|e].
      * rewrite bind_await, Hw, await_last, Hw. reflexivity.
      * rewrite await_last, Hw. reflexivity.
    + rewrite await_last, Hw. reflexivity.
Qed.

(** X14.  The file name of the command "/analyze" is the rest of the
    line after the first space, as it stands: for a text that starts with
    "/analyze" and holds no space, the usage hint is sent; for such a text
    followed by a space and any text, the empty one included, that text is
    analysed, the analysis is stored under it with the source "command", and
    its rendering is sent (in a world where no call raises). *)
Theorem analyze_command_reads_rest_of_line
    (w : world) (message : Telegram.Message) (command : string) :
  calm w → startswith command "/analyze" = true → " "%char ∉ chars command →
  (Telegram.text message = Some command →
     handle_telegram_message w true message []
     = ([log_call message; send_message (Telegram.chat_id message) usage_message], inr tt))
  ∧ (∀ filename, Telegram.text message = Some (command +:+ " " +:+ filename) →
       ∃ analysis response,
         analyze_filename filename = Ok analysis
         ∧ format_analysis_response analysis None = Ok response
         ∧ handle_telegram_message w true message []
           = ([log_call message;
               insert_analysis (Telegram.chat_id message) filename None analysis "command";
               send_message (Telegram.chat_id message) response], inr tt)).
Proof.
  intros Hw Hs Hsp. split.
  - intros Ht. rewrite (handle_analyze w message command Hw Ht Hs).
    unfold split_space_once. rewrite cut_space_none by exact Hsp. reflexivity.
  - intros filename Ht.
    rewrite (handle_analyze w message _ Hw Ht (startswith_app _ _ _ Hs)).
    unfold split_space_once. rewrite cut_space_app by exact Hsp.
    rewrite analyze_filename_returns.
    destruct (render_returns (analysis_of filename)) as (response & Hr).
    exists (analysis_of filename), response. rewrite Hr.
    split; [reflexivity|]. split; reflexivity.
Qed.

End commands.

Section audio.

(** X15.  The name of an audio is its file name or else its title;
    the fallback "Unknown Audio" is the default of [getattr] and stands in
    only for an audio object that has no attribute [title].  An audio without
    a file name whose title is [None] gives [file_name=None], which the model
    [FileMetadata] rejects, so that the message is answered with the apology
    and nothing is analysed or stored (in a world where no call raises). *)
Theorem audio_name_fallback
    (w : world) (message : Telegram.Message) (audio : Telegram.Audio) :
  calm w → truthy_opt (Telegram.text message) = false →
  Telegram.document message = None → Telegram.video message = None →
  Telegram.audio message = Some audio →
  truthy_opt (getattr (Telegram.audio_file_name audio) None) = false →
  (Telegram.audio_title audio = Missing →
     ∀ made, ∃ file_info,
       build_file_info message made = (made, inr (Some file_info))
       ∧ file_name file_info = "Unknown Audio")
  ∧ (Telegram.audio_title audio = Present None →
       handle_telegram_message w true message []
       = ([log_call message; send_message (Telegram.chat_id message) apology_message],
          inr tt)).
Proof.
  intros Hw Ht Hd Hv Ha Hn. split.
  - intros Htitle made. unfold build_file_info. rewrite Hd, Hv, Ha.
    rewrite bind_new_FileMetadata. unfold or_else. rewrite Hn, Htitle. cbn [getattr].
    eexists. split; reflexivity.
  - intros Htitle.
    unfold handle_telegram_message, try_except, log_call. cbn [negb]. cbv zeta.
    rewrite bind_await, Hw, Ht, Hd, Hv, Ha. cbn [present orb].
    unfold io_bind at 1. unfold build_file_info. rewrite Hd, Hv, Ha.
    rewrite bind_new_FileMetadata. unfold or_else. rewrite Hn, Htitle. cbn [getattr].
    rewrite await_last, Hw. reflexivity.
Qed.

End audio.

Section handler_witnesses.


(** The command with and without a file name. *)
Lemma analyze_command_reads_rest_of_line_witness :
  handle_telegram_message (mkWorld (λ _, false) (λ _, "")) true
    (Telegram.mkMessage 7 None (Some "/analyze") None None None) []
  = ([log_call (Telegram.mkMessage 7 None (Some "/analyze") None None None);
      send_message 7 usage_message], inr tt).
Proof.
  refine (proj1 (analyze_command_reads_rest_of_line (mkWorld (λ _, false) (λ _, ""))
                   (Telegram.mkMessage 7 None (Some "/analyze") None None None) "/analyze"
                   _ _ _) _).
  - intros c. reflexivity.
  - reflexivity.
  - apply (bool_decide_unpack _). vm_compute. exact I.
  - reflexivity.
Defined.

(** An audio without a name, its title [None]. *)
Lemma audio_name_fallback_witness :
  handle_telegram_message (mkWorld (λ _, false) (λ _, "")) true
    (Telegram.mkMessage 7 None None None None
       (Some (Telegram.mkAudio "id" (Present None) (Present None) None None "uid"))) []
  = ([log_call (Telegram.mkMessage 7 None None None None
                  (Some (Telegram.mkAudio "id" (Present None) (Present None) None None "uid")));
      send_message 7 apology_message], inr tt).
Proof.
  apply (proj2 (audio_name_fallback (mkWorld (λ _, false) (λ _, ""))
                  (Telegram.mkMessage 7 None None None None
                     (Some (Telegram.mkAudio "id" (Present None) (Present None) None None
                              "uid")))
                  (Telegram.mkAudio "id" (Present None) (Present None) None None "uid")
                  (λ c, eq_refl) eq_refl eq_refl eq_refl eq_refl eq_refl)).
  reflexivity.
Defined.

End handler_witnesses.
